(** * The Discord gateway connection of the Nuwani feature

    A shallow embedding of

      - javascript/features/nuwani/discord/discord_socket.js      (DiscordSocket)
      - javascript/features/nuwani/discord/discord_connection.js  (DiscordConnection)

    together with the back-off policy the socket consults.

    Both classes are written with async functions.  An async function runs
    synchronously up to its first [await]; from there on it is a coroutine that
    the event loop resumes.  The embedding follows that shape: every method is
    a pure function from the object's fields to the new fields, the list of
    observable effects of the synchronous stretch, and - where the method
    suspends - the suspended coroutine, which a later [resume] continues.  A
    [World] holds the connection together with the pool of suspended
    coroutines, and an [Event] is one turn of the event loop.

    The model covers a DiscordConnection from its construction up to its
    dispose() call, which releases the socket. *)

From Stdlib Require Import ZArith List String Bool Arith Lia Permutation.
Import ListNotations.

Local Open Scope string_scope.
Local Open Scope list_scope.
Local Open Scope Z_scope.

(** ** Symbols, values and promises *)

(** [Symbol(description)] returns a value that is identical to itself only.
    A symbol is represented by its allocation number; the world hands out the
    numbers in increasing order. *)
Definition Symbol := nat.

(** [stored !== token] on a field that holds [null] or a symbol. *)
Definition differs (stored : option Symbol) (token : Symbol) : bool :=
  match stored with
  | Some held => negb (Nat.eqb held token)
  | None => true
  end.

(** The values that the modelled methods return. *)
Inductive Value :=
| VUndefined
| VBool (b : bool).

(** What the promise returned by an async method looks like when the
    synchronous stretch of the call is over. *)
Inductive Promise :=
| Pending
| Resolved (v : Value)
| Rejected (error : string).

(** ** Gateway payloads *)

(** A JavaScript object with integer-or-null properties, in source order.
    [None] as a property value is JSON [null]. *)
Definition Data := list (string * option Z).

Fixpoint getProperty (name : string) (data : Data) : option (option Z) :=
  match data with
  | [] => None
  | (key, value) :: rest =>
      if String.eqb key name then Some value else getProperty name rest
  end.

(** [data.hasOwnProperty(name)] *)
Definition hasOwnProperty (name : string) (data : Data) : bool :=
  match getProperty name data with
  | Some _ => true
  | None => false
  end.

(** [data[name] ?? fallback]: the fallback replaces [undefined] and [null]. *)
Definition nullish (name : string) (fallback : Z) (data : Data) : Z :=
  match getProperty name data with
  | Some (Some value) => value
  | _ => fallback
  end.

Module Gateway.
(** The Gateway Payload Structure: [{ op, d, s, t }], with an object for
    [d]. *)
Record Payload := {
  op : Z;
  d : Data;
  s : option Z;
  t : option string
}.
End Gateway.

(** ** Observable effects *)

Inductive LogLine :=
| LogConnecting (endpoint : string)
| LogSucceeded (endpoint : string)
| LogFailed (endpoint : string) (delaySec : Z)
| LogIntervalMissing (message : Gateway.Payload)
| LogUnhandled (message : Gateway.Payload)
| LogSocketEvent (listener : string).

Inductive Effect :=
| ConsoleLog (line : LogLine)
(** [this.#socket_.open({ host, path, port, ssl })] on the raw socket; the
    options are a function of the endpoint. *)
| SocketOpen (endpoint : string)
(** [this.#socket_.close()] on the raw socket. *)
| SocketClose
(** [DiscordSocket.write(message)] was called with [message]. *)
| WriteCall (message : Gateway.Payload)
(** An error thrown inside an async method whose promise nobody awaits. *)
| Uncaught (error : string).

Definition isSocketOpen (e : Effect) : bool :=
  match e with SocketOpen _ => true | _ => false end.

(** ** BackoffPolicy *)

Module BackoffPolicy.

(** Modelled from the spec: features/nuwani/runtime/backoff_policy.js is
    missing from the sources; only its caller, DiscordSocket, is present.
    The specification (section 4.1) describes a counter of consecutive
    failures, a delay that doubles per failure up to a ceiling with an added
    jitter component drawn from an injectable source, and an idle baseline
    with no delay.  The method names are those DiscordSocket calls:
    [getTimeToNextRequestMs] is the specification's timeToNextAttempt,
    [markRequestSuccessful] its markSuccess, [markRequestFailed] its
    markFailure. *)
Record t := {
  initialDelayMs : Z;
  maximumDelayMs : Z;
  jitter : nat -> Z;
  attempt : nat
}.

Definition withAttempt (n : nat) (p : t) : t :=
  {| initialDelayMs := initialDelayMs p;
     maximumDelayMs := maximumDelayMs p;
     jitter := jitter p;
     attempt := n |}.

(** Modelled from the spec: the delay bound after [n] consecutive failures,
    doubling per failure from the initial delay and capped at the ceiling. *)
Definition delayBoundMs (p : t) (n : nat) : Z :=
  Z.min (maximumDelayMs p) (initialDelayMs p * 2 ^ Z.of_nat (n - 1)).

(** Modelled from the spec: the idle baseline. *)
Definition kIdleDelayMs : Z := 0.

(** Modelled from the spec: the delay for a given number of consecutive
    failures: the idle baseline without failures, else the doubled delay
    plus jitter, capped at the ceiling. *)
Definition CalculateDelayForAttempt (p : t) (n : nat) : Z :=
  match n with
  | O => kIdleDelayMs
  | S _ => Z.min (maximumDelayMs p) (delayBoundMs p n + jitter p n)
  end.

(** Modelled from the spec: timeToNextAttempt. *)
Definition getTimeToNextRequestMs (p : t) : Z :=
  CalculateDelayForAttempt p (attempt p).

(** Modelled from the spec: markSuccess. *)
Definition markRequestSuccessful (p : t) : t := withAttempt 0 p.

(** Modelled from the spec: markFailure. *)
Definition markRequestFailed (p : t) : t := withAttempt (S (attempt p)) p.

(** Modelled from the spec: resetToIdle. *)
Definition resetToIdle (p : t) : t := withAttempt 0 p.

(** [k] consecutive failures. *)
Definition failures (k : nat) (p : t) : t := Nat.iter k markRequestFailed p.

(** The conditions on the policy's parameters: delays are not negative, and
    the jitter added to a delay bound is between nothing and that bound. *)
Definition wellFormed (p : t) : Prop :=
  0 <= initialDelayMs p /\
  0 <= maximumDelayMs p /\
  forall n, 0 <= jitter p n <= delayBoundMs p n.

End BackoffPolicy.

(** ** DiscordSocket *)

Module DiscordSocket.

(** States that the Socket can be in. *)
Inductive SocketState :=
| kStateConnected
| kStateConnecting
| kStateDisconnecting
| kStateDisconnected.

(** The private fields.  Of the raw socket [#socket_] the class reads the
    state only; opening, closing and the socket's events are effects and
    inputs. *)
Record t := {
  backoffPolicy_ : BackoffPolicy.t;
  connectionToken_ : option Symbol;
  disposed_ : bool;
  socket_ : SocketState
}.

Definition withBackoffPolicy (p : BackoffPolicy.t) (sock : t) : t :=
  {| backoffPolicy_ := p;
     connectionToken_ := connectionToken_ sock;
     disposed_ := disposed_ sock;
     socket_ := socket_ sock |}.

Definition withConnectionToken (token : option Symbol) (sock : t) : t :=
  {| backoffPolicy_ := backoffPolicy_ sock;
     connectionToken_ := token;
     disposed_ := disposed_ sock;
     socket_ := socket_ sock |}.

Definition withSocket (st : SocketState) (sock : t) : t :=
  {| backoffPolicy_ := backoffPolicy_ sock;
     connectionToken_ := connectionToken_ sock;
     disposed_ := disposed_ sock;
     socket_ := st |}.

(** [constructor()]: a new policy and a new raw socket. *)
Definition create (policy : BackoffPolicy.t) : t :=
  {| backoffPolicy_ := policy;
     connectionToken_ := None;
     disposed_ := false;
     socket_ := kStateDisconnected |}.

(** [get state()] *)
Definition state (sock : t) : SocketState := socket_ sock.

(** Where a [connect] coroutine is suspended. *)
Inductive Suspension :=
| InitialWait (ms : Z)   (* await wait(getTimeToNextRequestMs()), line 57 *)
| Opening                (* await this.#socket_.open(...), line 68 *)
| RetryWait (ms : Z).    (* await wait(delay), line 103 *)

(** A suspended [connect] call with its local variables. *)
Record Attempt := {
  connectionToken : Symbol;
  endpoint : string;
  attempt : nat;
  suspended : Suspension
}.

Definition suspendAt (point : Suspension) (a : Attempt) : Attempt :=
  {| connectionToken := connectionToken a;
     endpoint := endpoint a;
     attempt := attempt a;
     suspended := point |}.

Definition nextAttempt (a : Attempt) : Attempt :=
  {| connectionToken := connectionToken a;
     endpoint := endpoint a;
     attempt := S (attempt a);
     suspended := suspended a |}.

(** [connect(endpoint)] up to its first await.  [fresh] is the symbol that
    [Symbol('Discord connection')] returns.  The URL class is not part of
    the sources; parsing the configured endpoint is taken to succeed. *)
Definition connect (fresh : Symbol) (endpoint : string) (sock : t)
  : Promise * t * option Attempt * list Effect :=
  match connectionToken_ sock with
  | Some _ =>
      (Rejected "A connection attempt is already in progress.", sock, None, [])
  | None =>
      (Pending,
       withConnectionToken (Some fresh) sock,
       Some {| connectionToken := fresh;
               endpoint := endpoint;
               attempt := 0;
               suspended :=
                 InitialWait
                   (BackoffPolicy.getTimeToNextRequestMs (backoffPolicy_ sock)) |},
       [])
  end.

(** The head of the do-while body: the log line and the open call. *)
Definition beginAttempt (a : Attempt) : option Attempt * list Effect :=
  (Some (suspendAt Opening a),
   [ConsoleLog (LogConnecting (endpoint a)); SocketOpen (endpoint a)]).

(** The continuation of [connect] from each of its awaits.  [connected] is
    the result of the raw socket's open(); it is read at [Opening] only. *)
Definition resume (a : Attempt) (connected : bool) (sock : t)
  : t * option Attempt * list Effect :=
  let superseded := differs (connectionToken_ sock) (connectionToken a) in
  match suspended a with
  | InitialWait _ =>
      if superseded || disposed_ sock
      then (withBackoffPolicy
              (BackoffPolicy.resetToIdle (backoffPolicy_ sock)) sock, None, [])
      else (sock, fst (beginAttempt a), snd (beginAttempt a))
  | Opening =>
      let sock1 :=
        withBackoffPolicy
          (if connected
           then BackoffPolicy.markRequestSuccessful (backoffPolicy_ sock)
           else BackoffPolicy.markRequestFailed (backoffPolicy_ sock)) sock in
      if superseded
      then (sock1, None,
            if connected && disposed_ sock then [SocketClose] else [])
      else if connected
      then (withConnectionToken None sock1, None,
            [ConsoleLog (LogSucceeded (endpoint a))])
      else
        let delay :=
          BackoffPolicy.getTimeToNextRequestMs (backoffPolicy_ sock1) in
        let delaySec := delay / 1000 in
        (sock1, Some (suspendAt (RetryWait delay) a),
         [ConsoleLog (LogFailed (endpoint a) delaySec)])
  | RetryWait _ =>
      let sock1 :=
        if superseded
        then withBackoffPolicy
               (BackoffPolicy.resetToIdle (backoffPolicy_ sock)) sock
        else sock in
      let a1 := nextAttempt a in
      if negb superseded && negb (disposed_ sock)
      then (sock1, fst (beginAttempt a1), snd (beginAttempt a1))
      else (sock1, None, [])
  end.

(** [write(message)]: the body is empty.  The call is recorded, since
    nothing else of it can be observed. *)
Definition write (message : Gateway.Payload) (sock : t)
  : Promise * t * list Effect :=
  (Resolved VUndefined, sock, [WriteCall message]).

(** [disconnect()] *)
Definition disconnect (sock : t) : Promise * t * list Effect :=
  if disposed_ sock
  then (Resolved VUndefined, sock, [])
  else
    (Resolved VUndefined,
     withConnectionToken None sock,
     match socket_ sock with
     | kStateConnecting | kStateConnected | kStateDisconnecting => [SocketClose]
     | kStateDisconnected => []
     end).

(** The listeners of the raw socket's close, error and message events. *)
Definition onClose (sock : t) : t * list Effect :=
  (sock, [ConsoleLog (LogSocketEvent "onClose:")]).

Definition onError (sock : t) : t * list Effect :=
  (sock, [ConsoleLog (LogSocketEvent "onError:")]).

Definition onMessage (sock : t) : t * list Effect :=
  (sock, [ConsoleLog (LogSocketEvent "onMessage:")]).

(** [dispose()] *)
Definition dispose (sock : t) : t :=
  {| backoffPolicy_ := backoffPolicy_ sock;
     connectionToken_ := connectionToken_ sock;
     disposed_ := true;
     socket_ := socket_ sock |}.

End DiscordSocket.


(** ** DiscordConnection *)

Module DiscordConnection.

(** Minimum interval at which the heartbeat monitor is willing to run. *)
Definition kMinimumHeartbeatMonitorMs : Z := 10 * 1000.

(** The opcodes that are supported by this level of the Discord connection. *)
Definition kOpcodeDispatch : Z := 0.
Definition kOpcodeHeartbeat : Z := 1.
Definition kOpcodeHeartbeatAck : Z := 11.
Definition kOpcodeHello : Z := 10.
Definition kOpcodeIdentify : Z := 2.
Definition kOpcodeInvalidSession : Z := 9.
Definition kOpcodeReconnect : Z := 7.
Definition kOpcodeResume : Z := 6.

(** The configuration, of which the class reads the endpoint. *)
Record Configuration := {
  endpoint : string
}.

(** The private fields. *)
Record t := {
  configuration_ : Configuration;
  connect_ : bool;
  connected_ : bool;
  connecting_ : bool;
  heartbeatAckTime_ : option Z;
  heartbeatIntervalMs_ : option Z;
  heartbeatMonitorToken_ : option Symbol;
  socket_ : DiscordSocket.t
}.

Definition withConnect (b : bool) (c : t) : t :=
  {| configuration_ := configuration_ c;
     connect_ := b;
     connected_ := connected_ c;
     connecting_ := connecting_ c;
     heartbeatAckTime_ := heartbeatAckTime_ c;
     heartbeatIntervalMs_ := heartbeatIntervalMs_ c;
     heartbeatMonitorToken_ := heartbeatMonitorToken_ c;
     socket_ := socket_ c |}.

Definition withConnected (b : bool) (c : t) : t :=
  {| configuration_ := configuration_ c;
     connect_ := connect_ c;
     connected_ := b;
     connecting_ := connecting_ c;
     heartbeatAckTime_ := heartbeatAckTime_ c;
     heartbeatIntervalMs_ := heartbeatIntervalMs_ c;
     heartbeatMonitorToken_ := heartbeatMonitorToken_ c;
     socket_ := socket_ c |}.

Definition withConnecting (b : bool) (c : t) : t :=
  {| configuration_ := configuration_ c;
     connect_ := connect_ c;
     connected_ := connected_ c;
     connecting_ := b;
     heartbeatAckTime_ := heartbeatAckTime_ c;
     heartbeatIntervalMs_ := heartbeatIntervalMs_ c;
     heartbeatMonitorToken_ := heartbeatMonitorToken_ c;
     socket_ := socket_ c |}.

Definition withHeartbeatAckTime (time : option Z) (c : t) : t :=
  {| configuration_ := configuration_ c;
     connect_ := connect_ c;
     connected_ := connected_ c;
     connecting_ := connecting_ c;
     heartbeatAckTime_ := time;
     heartbeatIntervalMs_ := heartbeatIntervalMs_ c;
     heartbeatMonitorToken_ := heartbeatMonitorToken_ c;
     socket_ := socket_ c |}.

Definition withHeartbeatIntervalMs (interval : option Z) (c : t) : t :=
  {| configuration_ := configuration_ c;
     connect_ := connect_ c;
     connected_ := connected_ c;
     connecting_ := connecting_ c;
     heartbeatAckTime_ := heartbeatAckTime_ c;
     heartbeatIntervalMs_ := interval;
     heartbeatMonitorToken_ := heartbeatMonitorToken_ c;
     socket_ := socket_ c |}.

Definition withHeartbeatMonitorToken (token : option Symbol) (c : t) : t :=
  {| configuration_ := configuration_ c;
     connect_ := connect_ c;
     connected_ := connected_ c;
     connecting_ := connecting_ c;
     heartbeatAckTime_ := heartbeatAckTime_ c;
     heartbeatIntervalMs_ := heartbeatIntervalMs_ c;
     heartbeatMonitorToken_ := token;
     socket_ := socket_ c |}.

Definition withSocket (sock : DiscordSocket.t) (c : t) : t :=
  {| configuration_ := configuration_ c;
     connect_ := connect_ c;
     connected_ := connected_ c;
     connecting_ := connecting_ c;
     heartbeatAckTime_ := heartbeatAckTime_ c;
     heartbeatIntervalMs_ := heartbeatIntervalMs_ c;
     heartbeatMonitorToken_ := heartbeatMonitorToken_ c;
     socket_ := sock |}.

(** [constructor(configuration)]; the policy is the one that the socket's
    constructor builds. *)
Definition create (configuration : Configuration) (policy : BackoffPolicy.t) : t :=
  {| configuration_ := configuration;
     connect_ := false;
     connected_ := false;
     connecting_ := false;
     heartbeatAckTime_ := None;
     heartbeatIntervalMs_ := None;
     heartbeatMonitorToken_ := None;
     socket_ := DiscordSocket.create policy |}.

(** [get hearbeatAckTimeForTesting()] *)
Definition hearbeatAckTimeForTesting (c : t) : option Z := heartbeatAckTime_ c.

(** [isConnected()] *)
Definition isConnected (c : t) : bool := connected_ c.

(** [internalConnect()] *)
Definition internalConnect (fresh : Symbol) (c : t)
  : Promise * t * option DiscordSocket.Attempt * list Effect :=
  let c1 := withConnecting true c in
  match DiscordSocket.connect fresh (endpoint (configuration_ c1)) (socket_ c1) with
  | (promise, sock, started, effects) =>
      (promise, withSocket sock c1, started, effects)
  end.

(** [connect()] *)
Definition connect (fresh : Symbol) (c : t)
  : Promise * t * option DiscordSocket.Attempt * list Effect :=
  let c1 := withConnect true c in
  if negb (connecting_ c1)
  then internalConnect fresh c1
  else (Resolved VUndefined, c1, None, []).

(** [disconnect()] *)
Definition disconnect (c : t) : Promise * t * list Effect :=
  let c1 := withConnect false c in
  let c2 := withConnecting false c1 in
  match DiscordSocket.disconnect (socket_ c2) with
  | (promise, sock, effects) => (promise, withSocket sock c2, effects)
  end.

(** [identify()]: both opcodes are still to be implemented. *)
Definition identify (c : t) : Promise * t * list Effect :=
  (Resolved VUndefined, c, []).

(** The argument of [sendOpcodeMessage]: [op] is required; [d] may be left
    out; a left-out [s] or [t] is [null] like an explicit [null]. *)
Record OpcodeMessage := {
  op : Z;
  d : option Data;
  s : option Z;
  t' : option string
}.

(** [{ op }] *)
Definition onlyOp (opcode : Z) : OpcodeMessage :=
  {| op := opcode; d := None; s := None; t' := None |}.

(** [{ op, d = {}, s = null, t = null }] *)
Definition envelope (m : OpcodeMessage) : Gateway.Payload :=
  {| Gateway.op := op m;
     Gateway.d := match d m with Some data => data | None => [] end;
     Gateway.s := s m;
     Gateway.t := t' m |}.

(** [sendOpcodeMessage({ op, d, s, t })] *)
Definition sendOpcodeMessage (m : OpcodeMessage) (c : t)
  : Promise * t * list Effect :=
  if negb (connected_ c)
  then (Resolved (VBool false), c, [])
  else
    match DiscordSocket.write (envelope m) (socket_ c) with
    | (promise, sock, effects) => (promise, withSocket sock c, effects)
    end.

(** [onConnectionClosed()] *)
Definition onConnectionClosed (c : t) : t :=
  withHeartbeatMonitorToken None (withConnected false c).

(** [onConnectionEstablished()] *)
Definition onConnectionEstablished (c : t) : t :=
  withHeartbeatAckTime None
    (withHeartbeatIntervalMs None
       (withConnecting false (withConnected true c))).

(** [onConnectionFailed()] *)
Definition onConnectionFailed (c : t) : t := c.

(** A suspended [heartbeatMonitor] call: its token and the argument of the
    [wait] it is suspended on. *)
Record Monitor := {
  heartbeatMonitorToken : Symbol;
  sleepMs : option Z
}.

(** [!interval || interval < kMinimumHeartbeatMonitorMs] on a field that
    holds [null] or an integer. *)
Definition unwilling (interval : option Z) : bool :=
  match interval with
  | None => true
  | Some ms => (ms =? 0) || (ms <? kMinimumHeartbeatMonitorMs)
  end.

(** [heartbeatMonitor()] up to its first await.  [fresh] is the symbol that
    [Symbol('Heartbeat monitor')] returns. *)
Definition heartbeatMonitor (fresh : Symbol) (c : t)
  : Promise * t * option Monitor :=
  let c1 := withHeartbeatMonitorToken (Some fresh) c in
  if unwilling (heartbeatIntervalMs_ c1)
  then (Rejected "Unwilling to start the Discord monitor: interval too low.",
        c1, None)
  else (Pending, c1,
        Some {| heartbeatMonitorToken := fresh;
                sleepMs := heartbeatIntervalMs_ c1 |}).

(** The continuation of [heartbeatMonitor] when its wait is over (lines 174
    to 181; the extra [await Promise.resolve()] gives way once more before
    the token is compared). *)
Definition wake (m : Monitor) (c : t) : t * option Monitor * list Effect :=
  if differs (heartbeatMonitorToken_ c) (heartbeatMonitorToken m)
  then (c, None, [])
  else
    match sendOpcodeMessage (onlyOp kOpcodeHeartbeat) c with
    | (_, c1, effects) =>
        (c1,
         Some {| heartbeatMonitorToken := heartbeatMonitorToken m;
                 sleepMs := heartbeatIntervalMs_ c1 |},
         effects)
    end.

(** What a dropped promise leaves behind. *)
Definition unawaited (p : Promise) : list Effect :=
  match p with
  | Rejected error => [Uncaught error]
  | _ => []
  end.

(** [onMessage(message)].  [now] is what
    [server.clock.monotonicallyIncreasingTime()] returns, [fresh] the symbol
    that a call of [heartbeatMonitor] would create. *)
Definition onMessage (now : Z) (fresh : Symbol) (message : Gateway.Payload) (c : t)
  : t * option Monitor * list Effect :=
  if Gateway.op message =? kOpcodeHeartbeat then
    match sendOpcodeMessage (onlyOp kOpcodeHeartbeatAck) c with
    | (promise, c1, effects) => (c1, None, effects ++ unawaited promise)
    end
  else if Gateway.op message =? kOpcodeHeartbeatAck then
    (withHeartbeatAckTime (Some now) c, None, [])
  else if Gateway.op message =? kOpcodeHello then
    let missing :=
      if negb (hasOwnProperty "heartbeat_interval" (Gateway.d message))
      then [ConsoleLog (LogIntervalMissing message)]
      else [] in
    let c1 :=
      withHeartbeatIntervalMs
        (Some (nullish "heartbeat_interval" 41250 (Gateway.d message))) c in
    match heartbeatMonitor fresh c1 with
    | (promise, c2, started) =>
        match identify c2 with
        | (_, c3, effects) =>
            (c3, started, missing ++ unawaited promise ++ effects)
        end
    end
  else
    (c, None, [ConsoleLog (LogUnhandled message)]).

End DiscordConnection.

(** ** A Hello without data *)




(** ** The event loop *)

(** The connection, the global clock and symbol supply, and the coroutines
    that are suspended on a timer or on the raw socket. *)
Record World := {
  clock : Z;
  symbols : nat;
  connection : DiscordConnection.t;
  attempts : list DiscordSocket.Attempt;
  monitors : list DiscordConnection.Monitor
}.

(** One turn of the event loop: a call by the application, a callback of the
    socket delegate interface, the resumption of a suspended coroutine, or a
    change on the side of the raw socket or the clock. *)
Inductive Event :=
| Connect
| Disconnect
| SendOpcodeMessage (m : DiscordConnection.OpcodeMessage)
| HeartbeatMonitor
| OnConnectionClosed
| OnConnectionEstablished
| OnConnectionFailed
| OnMessage (message : Gateway.Payload)
(** the await of the [connect] coroutine holding [token] is over; [connected]
    is the result of open() when it was suspended there *)
| ResumeConnect (token : Symbol) (connected : bool)
(** the wait of the [heartbeatMonitor] coroutine holding [token] is over *)
| WakeMonitor (token : Symbol)
(** the raw socket changed its state *)
| SocketChanged (st : DiscordSocket.SocketState)
(** the raw socket fired a close, error or message event *)
| SocketClosed
| SocketError
| SocketMessage
(** time passes *)
| Elapse (ms : N).

(** Splits the first element that satisfies [p] from a pool. *)
Fixpoint extract {A : Type} (p : A -> bool) (pool : list A) : option (A * list A) :=
  match pool with
  | [] => None
  | x :: rest =>
      if p x then Some (x, rest)
      else
        match extract p rest with
        | Some (y, others) => Some (y, x :: others)
        | None => None
        end
  end.

(** Puts a coroutine that suspended (again) back into a pool. *)
Definition suspend {A : Type} (coroutine : option A) (pool : list A) : list A :=
  match coroutine with
  | Some x => pool ++ [x]
  | None => pool
  end.

Definition holdsConnectionToken (token : Symbol) (a : DiscordSocket.Attempt) : bool :=
  Nat.eqb (DiscordSocket.connectionToken a) token.

Definition holdsMonitorToken (token : Symbol) (m : DiscordConnection.Monitor) : bool :=
  Nat.eqb (DiscordConnection.heartbeatMonitorToken m) token.

Definition withConnection (c : DiscordConnection.t) (w : World) : World :=
  {| clock := clock w;
     symbols := symbols w;
     connection := c;
     attempts := attempts w;
     monitors := monitors w |}.

Definition onSocket (f : DiscordSocket.t -> DiscordSocket.t * list Effect) (w : World)
  : World * list Effect :=
  let (sock, effects) := f (DiscordConnection.socket_ (connection w)) in
  (withConnection (DiscordConnection.withSocket sock (connection w)) w, effects).

Definition step (e : Event) (w : World) : World * list Effect :=
  match e with
  | Connect =>
      match DiscordConnection.connect (symbols w) (connection w) with
      | (promise, c, started, effects) =>
          ({| clock := clock w;
              symbols := match started with
                         | Some _ => S (symbols w)
                         | None => symbols w
                         end;
              connection := c;
              attempts := suspend started (attempts w);
              monitors := monitors w |},
           effects ++ DiscordConnection.unawaited promise)
      end
  | Disconnect =>
      match DiscordConnection.disconnect (connection w) with
      | (promise, c, effects) =>
          (withConnection c w, effects ++ DiscordConnection.unawaited promise)
      end
  | SendOpcodeMessage m =>
      match DiscordConnection.sendOpcodeMessage m (connection w) with
      | (promise, c, effects) =>
          (withConnection c w, effects ++ DiscordConnection.unawaited promise)
      end
  | HeartbeatMonitor =>
      match DiscordConnection.heartbeatMonitor (symbols w) (connection w) with
      | (promise, c, started) =>
          ({| clock := clock w;
              symbols := S (symbols w);
              connection := c;
              attempts := attempts w;
              monitors := suspend started (monitors w) |},
           DiscordConnection.unawaited promise)
      end
  | OnConnectionClosed =>
      (withConnection (DiscordConnection.onConnectionClosed (connection w)) w, [])
  | OnConnectionEstablished =>
      (withConnection (DiscordConnection.onConnectionEstablished (connection w)) w, [])
  | OnConnectionFailed =>
      (withConnection (DiscordConnection.onConnectionFailed (connection w)) w, [])
  | OnMessage message =>
      match DiscordConnection.onMessage (clock w) (symbols w) message (connection w) with
      | (c, started, effects) =>
          ({| clock := clock w;
              symbols := if Gateway.op message =? DiscordConnection.kOpcodeHello
                         then S (symbols w)
                         else symbols w;
              connection := c;
              attempts := attempts w;
              monitors := suspend started (monitors w) |},
           effects)
      end
  | ResumeConnect token connected =>
      match extract (holdsConnectionToken token) (attempts w) with
      | None => (w, [])
      | Some (a, others) =>
          match DiscordSocket.resume a connected
                  (DiscordConnection.socket_ (connection w)) with
          | (sock, continued, effects) =>
              ({| clock := clock w;
                  symbols := symbols w;
                  connection := DiscordConnection.withSocket sock (connection w);
                  attempts := suspend continued others;
                  monitors := monitors w |},
               effects)
          end
      end
  | WakeMonitor token =>
      match extract (holdsMonitorToken token) (monitors w) with
      | None => (w, [])
      | Some (m, others) =>
          match DiscordConnection.wake m (connection w) with
          | (c, continued, effects) =>
              ({| clock := clock w;
                  symbols := symbols w;
                  connection := c;
                  attempts := attempts w;
                  monitors := suspend continued others |},
               effects)
          end
      end
  | SocketChanged st =>
      onSocket (fun sock => (DiscordSocket.withSocket st sock, [])) w
  | SocketClosed => onSocket DiscordSocket.onClose w
  | SocketError => onSocket DiscordSocket.onError w
  | SocketMessage => onSocket DiscordSocket.onMessage w
  | Elapse ms =>
      ({| clock := clock w + Z.of_N ms;
          symbols := symbols w;
          connection := connection w;
          attempts := attempts w;
          monitors := monitors w |},
       [])
  end.

(** The world after a sequence of events. *)
Fixpoint run (events : list Event) (w : World) : World :=
  match events with
  | [] => w
  | e :: rest => run rest (fst (step e w))
  end.

(** The effects of a sequence of events, in order. *)
Fixpoint trace (events : list Event) (w : World) : list Effect :=
  match events with
  | [] => []
  | e :: rest => snd (step e w) ++ trace rest (fst (step e w))
  end.

(** A new connection in a new world. *)
Definition boot (configuration : DiscordConnection.Configuration)
    (policy : BackoffPolicy.t) : World :=
  {| clock := 0;
     symbols := 0;
     connection := DiscordConnection.create configuration policy;
     attempts := [];
     monitors := [] |}.

(** ** Sample objects *)

Definition sampleConfiguration : DiscordConnection.Configuration :=
  {| DiscordConnection.endpoint := "wss://gateway.example/v1" |}.

(** One second at first, a minute at most, a fifth of the bound as jitter. *)
Definition samplePolicy : BackoffPolicy.t :=
  {| BackoffPolicy.initialDelayMs := 1000;
     BackoffPolicy.maximumDelayMs := 60000;
     BackoffPolicy.jitter :=
       fun n => Z.min 60000 (1000 * 2 ^ Z.of_nat (n - 1)) / 5;
     BackoffPolicy.attempt := 0 |}.

Definition sampleWorld : World := boot sampleConfiguration samplePolicy.

(** [{ op: 10, d: { heartbeat_interval } }] *)
Definition hello (interval : Z) : Gateway.Payload :=
  {| Gateway.op := DiscordConnection.kOpcodeHello;
     Gateway.d := [("heartbeat_interval", Some interval)];
     Gateway.s := None;
     Gateway.t := None |}.


(** [{ op, d: {} }] as it arrives from the gateway. *)
Definition bare (opcode : Z) : Gateway.Payload :=
  {| Gateway.op := opcode; Gateway.d := []; Gateway.s := None; Gateway.t := None |}.

(** The envelope that the heartbeat monitor sends. *)
Definition heartbeat : Gateway.Payload :=
  DiscordConnection.envelope (DiscordConnection.onlyOp DiscordConnection.kOpcodeHeartbeat).


(** ** Notions used in the statements *)

(** The interval that a Hello leaves in [#heartbeatIntervalMs_]. *)
Definition recordedInterval (message : Gateway.Payload) : Z :=
  nullish "heartbeat_interval" 41250 (Gateway.d message).


Definition isDisconnect (e : Event) : bool :=
  match e with Disconnect => true | _ => false end.

(** No disconnect() among the events. *)
Definition withoutDisconnect (events : list Event) : bool :=
  forallb (fun e => negb (isDisconnect e)) events.

(** The event runs [heartbeatMonitor()]: a call of it, or a Hello. *)
Definition startsMonitor (e : Event) : bool :=
  match e with
  | HeartbeatMonitor => true
  | OnMessage message => Gateway.op message =? DiscordConnection.kOpcodeHello
  | _ => false
  end.

(** The [connect] coroutines whose token is the one that the socket stores:
    the loops that still act when they are resumed. *)
Definition activeAttempts (w : World) : list DiscordSocket.Attempt :=
  filter
    (fun a =>
       negb (differs
               (DiscordSocket.connectionToken_
                  (DiscordConnection.socket_ (connection w)))
               (DiscordSocket.connectionToken a)))
    (attempts w).

(** The event changes nothing and does nothing but write to the console. *)
Definition ignored (e : Event) (w : World) : Prop :=
  fst (step e w) = w /\
  forall effect, In effect (snd (step e w)) -> exists line, effect = ConsoleLog line.

(** The promise is settled with a value, not with an error. *)
Definition fulfilled (p : Promise) : Prop :=
  exists v, p = Resolved v.

(** What holds of the tokens in every world that a new connection gets into:
    they were all handed out by the symbol supply, no two suspended
    coroutines of a kind hold the same one, the socket is not disposed of,
    and [#connecting_] is only set under [#connect_]. *)
Record Coherent (w : World) : Prop := {
  connectionTokenKnown :
    forall token,
      DiscordSocket.connectionToken_ (DiscordConnection.socket_ (connection w))
        = Some token ->
      (token < symbols w)%nat;
  monitorTokenKnown :
    forall token,
      DiscordConnection.heartbeatMonitorToken_ (connection w) = Some token ->
      (token < symbols w)%nat;
  attemptsKnown :
    Forall (fun a => (DiscordSocket.connectionToken a < symbols w)%nat) (attempts w);
  monitorsKnown :
    Forall (fun m => (DiscordConnection.heartbeatMonitorToken m < symbols w)%nat)
      (monitors w);
  attemptsDistinct : NoDup (map DiscordSocket.connectionToken (attempts w));
  monitorsDistinct : NoDup (map DiscordConnection.heartbeatMonitorToken (monitors w));
  socketInUse :
    DiscordSocket.disposed_ (DiscordConnection.socket_ (connection w)) = false;
  connectingIsIntended :
    DiscordConnection.connecting_ (connection w) = true ->
    DiscordConnection.connect_ (connection w) = true
}.

(** The coroutine holding [token] has been superseded for good: the token was
    handed out and is not the stored one. *)
Definition supersededAttempt (token : Symbol) (w : World) : Prop :=
  (token < symbols w)%nat /\
  differs
    (DiscordSocket.connectionToken_ (DiscordConnection.socket_ (connection w)))
    token = true /\
  forall a,
    In a (attempts w) ->
    DiscordSocket.connectionToken a = token ->
    exists ms, DiscordSocket.suspended a = DiscordSocket.InitialWait ms.

Definition supersededMonitor (token : Symbol) (w : World) : Prop :=
  (token < symbols w)%nat /\
  differs (DiscordConnection.heartbeatMonitorToken_ (connection w)) token = true.

(** The heartbeat monitor holding [token] leaves without a trace when it
    wakes up. *)
Definition exitsSilently (token : Symbol) (w : World) : Prop :=
  snd (step (WakeMonitor token) w) = [] /\
  connection (fst (step (WakeMonitor token) w)) = connection w /\
  forall m,
    In m (monitors (fst (step (WakeMonitor token) w))) ->
    DiscordConnection.heartbeatMonitorToken m <> token.


(** Every suspended connect loop is the one whose token the socket stores. *)
Definition soleAttempt (w : World) : Prop :=
  attempts w = [] \/
  exists a,
    attempts w = [a] /\
    DiscordSocket.connectionToken_ (DiscordConnection.socket_ (connection w))
    = Some (DiscordSocket.connectionToken a).

(** ** Further notions *)

(** The connect loop holding [token] can no longer act: the token was handed
    out and is not the one that the socket stores. *)
Definition staleAttempt (token : Symbol) (w : World) : Prop :=
  (token < symbols w)%nat /\
  differs
    (DiscordSocket.connectionToken_ (DiscordConnection.socket_ (connection w)))
    token = true.

(** The heartbeat monitors whose token is the stored one: those that still
    send when they wake up. *)
Definition liveMonitors (w : World) : list DiscordConnection.Monitor :=
  filter
    (fun m =>
       negb (differs (DiscordConnection.heartbeatMonitorToken_ (connection w))
               (DiscordConnection.heartbeatMonitorToken m)))
    (monitors w).

(** No suspended heartbeat monitor holds the stored token. *)
Definition silenced (w : World) : Prop :=
  forall m,
    In m (monitors w) ->
    differs (DiscordConnection.heartbeatMonitorToken_ (connection w))
      (DiscordConnection.heartbeatMonitorToken m) = true.

(** No event of the list runs heartbeatMonitor(). *)
Definition withoutMonitorStart (events : list Event) : bool :=
  forallb (fun e => negb (startsMonitor e)) events.

(** [k] rounds of the connect loop holding [token] in which open() fails: the
    open() returns false, then the retry wait is over. *)
Fixpoint failedRounds (token : Symbol) (k : nat) : list Event :=
  match k with
  | O => []
  | S k' =>
      ResumeConnect token false :: ResumeConnect token false
        :: failedRounds token k'
  end.

(** What [k] failed rounds of a loop are expected to log and call, starting
    from the policy [policy]: per round the failure line with the next delay
    in whole seconds, the connecting line and the open(). *)
Definition failedRoundEffects (endpoint : string) (policy : BackoffPolicy.t)
    (k : nat) : list Effect :=
  flat_map
    (fun i =>
       [ConsoleLog
          (LogFailed endpoint
             (BackoffPolicy.getTimeToNextRequestMs
                (BackoffPolicy.failures (S i) policy) / 1000));
        ConsoleLog (LogConnecting endpoint);
        SocketOpen endpoint])
    (seq 0 k).

(** The loop of [a] after [k] more failed rounds. *)
Definition afterRounds (k : nat) (a : DiscordSocket.Attempt) : DiscordSocket.Attempt :=
  {| DiscordSocket.connectionToken := DiscordSocket.connectionToken a;
     DiscordSocket.endpoint := DiscordSocket.endpoint a;
     DiscordSocket.attempt := (DiscordSocket.attempt a + k)%nat;
     DiscordSocket.suspended := DiscordSocket.Opening |}.

(** What the socket is left with when the connection is disposed of:
    DiscordConnection.dispose() calls the socket's disconnect() and then its
    dispose(). *)
Definition released (sock : DiscordSocket.t) : DiscordSocket.t :=
  DiscordSocket.dispose (snd (fst (DiscordSocket.disconnect sock))).

(** A call on a DiscordSocket by whoever holds it: its methods, the
    resumption of some connect loop, a state change of the raw socket. *)
Inductive SocketCall :=
| CallConnect (fresh : Symbol) (endpoint : string)
| CallDisconnect
| CallWrite (message : Gateway.Payload)
| CallDispose
| CallResume (a : DiscordSocket.Attempt) (connected : bool)
| RawState (st : DiscordSocket.SocketState).

Definition call (c : SocketCall) (sock : DiscordSocket.t)
  : DiscordSocket.t * list Effect :=
  match c with
  | CallConnect fresh endpoint =>
      match DiscordSocket.connect fresh endpoint sock with
      | (_, sock', _, effects) => (sock', effects)
      end
  | CallDisconnect =>
      match DiscordSocket.disconnect sock with
      | (_, sock', effects) => (sock', effects)
      end
  | CallWrite message =>
      match DiscordSocket.write message sock with
      | (_, sock', effects) => (sock', effects)
      end
  | CallDispose => (DiscordSocket.dispose sock, [])
  | CallResume a connected =>
      match DiscordSocket.resume a connected sock with
      | (sock', _, effects) => (sock', effects)
      end
  | RawState st => (DiscordSocket.withSocket st sock, [])
  end.

(** The socket after a sequence of calls, and what the calls did. *)
Fixpoint calls (cs : list SocketCall) (sock : DiscordSocket.t)
  : DiscordSocket.t * list Effect :=
  match cs with
  | [] => (sock, [])
  | c :: rest =>
      let (sock', effects) := call c sock in
      let (final, more) := calls rest sock' in
      (final, effects ++ more)
  end.

(** ** Runtime (javascript/features/nuwani/runtime/runtime.js) *)

Module Runtime.

(** Of a bot's configuration the runtime reads [master] and [optional]. *)
Record BotConfig := {
  master : bool;
  optional : bool
}.

(** A Bot object: the identity of the object, and its [config].  The Bot
    class is not part of the sources; its connect(), disconnect() and
    dispose() are effects. *)
Record Bot := {
  identity : nat;
  config : BotConfig
}.

(** An observer object; [isRuntimeObserver] is what
    [observer instanceof RuntimeObserver] evaluates to. *)
Record Observer := {
  observerIdentity : nat;
  isRuntimeObserver : bool
}.

Inductive Effect :=
| BotConnect (bot : Bot)
| BotDisconnect (bot : Bot)
| BotDispose (bot : Bot)
| NotifyBotConnected (observer : Observer) (bot : Bot)
| NotifyBotMessage (observer : Observer) (bot : Bot) (message : string)
| NotifyBotDisconnected (observer : Observer) (bot : Bot).

(** How a call ends: it returns, or it throws the given error. *)
Inductive Completion :=
| Returns
| Throws (error : string).

(** [a === b] on objects. *)
Definition sameBot (a b : Bot) : bool := Nat.eqb (identity a) (identity b).

Definition sameObserver (a b : Observer) : bool :=
  Nat.eqb (observerIdentity a) (observerIdentity b).

(** A JavaScript Set of objects, in insertion order. *)
Definition setAdd {A : Type} (same : A -> A -> bool) (x : A) (set : list A) : list A :=
  if existsb (same x) set then set else set ++ [x].

Definition setDelete {A : Type} (same : A -> A -> bool) (x : A) (set : list A) : list A :=
  filter (fun y => negb (same x y)) set.

(** The fields.  [observers_] is [None] once it has been set to null. *)
Record t := {
  configuration_ : list BotConfig;
  activeBots_ : list Bot;
  availableBots_ : list Bot;
  observers_ : option (list Observer)
}.

Definition withBots (active available : list Bot) (r : t) : t :=
  {| configuration_ := configuration_ r;
     activeBots_ := active;
     availableBots_ := available;
     observers_ := observers_ r |}.

Definition withObservers (observers : option (list Observer)) (r : t) : t :=
  {| configuration_ := configuration_ r;
     activeBots_ := activeBots_ r;
     availableBots_ := availableBots_ r;
     observers_ := observers |}.

(** [config.master || !config.optional] *)
Definition required (bot : Bot) : bool :=
  master (config bot) || negb (optional (config bot)).

(** The loop of the constructor from the [next]-th configuration on; the
    new Bot object of a configuration is identified by its index. *)
Fixpoint construct (next : nat) (configs : list BotConfig) (r : t) : t :=
  match configs with
  | [] => r
  | c :: rest =>
      let bot := {| identity := next; config := c |} in
      construct (S next) rest
        (if required bot
         then withBots (setAdd sameBot bot (activeBots_ r)) (availableBots_ r) r
         else withBots (activeBots_ r) (setAdd sameBot bot (availableBots_ r)) r)
  end.

(** [constructor(configuration, BotConstructor)] *)
Definition create (configs : list BotConfig) : t :=
  construct 0 configs
    {| configuration_ := configs;
       activeBots_ := [];
       availableBots_ := [];
       observers_ := Some [] |}.

(** [get masterBot()] *)
Definition masterBot (r : t) : option Bot :=
  find (fun bot => master (config bot)) (activeBots_ r).

(** [connect()] *)
Definition connect (r : t) : t * list Effect :=
  (r, map BotConnect (activeBots_ r)).

(** [requestSlaveIncrease()]: the loop returns in its first round. *)
Definition requestSlaveIncrease (r : t) : t * list Effect :=
  match availableBots_ r with
  | [] => (r, [])
  | bot :: _ =>
      (withBots (setAdd sameBot bot (activeBots_ r))
                (setDelete sameBot bot (availableBots_ r)) r,
       [BotConnect bot])
  end.

(** The loop of [requestSlaveDecrease()] over the bots still to visit. *)
Fixpoint decreaseFrom (remaining : list Bot) (r : t) : t * list Effect :=
  match remaining with
  | [] => (r, [])
  | bot :: rest =>
      if master (config bot) || negb (optional (config bot))
      then decreaseFrom rest r
      else
        (withBots (setDelete sameBot bot (activeBots_ r))
                  (setAdd sameBot bot (availableBots_ r)) r,
         [BotDisconnect bot])
  end.

(** [requestSlaveDecrease()] *)
Definition requestSlaveDecrease (r : t) : t * list Effect :=
  decreaseFrom (activeBots_ r) r.

(** The loop of [diconnect()] over the bots still to visit.  The loop only
    deletes the bot it is visiting from the set it iterates over, which does
    not disturb the iteration: it visits the bots that were active when it
    began. *)
Fixpoint diconnectFrom (remaining : list Bot) (r : t) : t * list Effect :=
  match remaining with
  | [] => (r, [])
  | bot :: rest =>
      let r1 :=
        if negb (master (config bot)) && optional (config bot)
        then withBots (setDelete sameBot bot (activeBots_ r))
                      (setAdd sameBot bot (availableBots_ r)) r
        else r in
      let (r2, effects) := diconnectFrom rest r1 in
      (r2, BotDisconnect bot :: effects)
  end.

(** [diconnect()] *)
Definition diconnect (r : t) : t * list Effect :=
  diconnectFrom (activeBots_ r) r.

(** [addObserver(observer)]; on a disposed runtime [this.observers_.add]
    fails on null. *)
Definition addObserver (observer : Observer) (r : t) : Completion * t :=
  if negb (isRuntimeObserver observer)
  then (Throws "The given |observer| does not extend RuntimeObserver.", r)
  else
    match observers_ r with
    | Some observers =>
        (Returns, withObservers (Some (setAdd sameObserver observer observers)) r)
    | None => (Throws "TypeError", r)
    end.


(** [onBotConnected(bot)] *)
Definition onBotConnected (bot : Bot) (r : t) : Completion * list Effect :=
  match observers_ r with
  | None =>
      (Throws "Invalid call to onBotConnected: instance has been disposed of.", [])
  | Some observers =>
      (Returns, map (fun observer => NotifyBotConnected observer bot) observers)
  end.

(** [onBotMessage(bot, message)] *)
Definition onBotMessage (bot : Bot) (message : string) (r : t)
  : Completion * list Effect :=
  match observers_ r with
  | None =>
      (Throws "Invalid call to onBotMessage: instance has been disposed of.", [])
  | Some observers =>
      (Returns, map (fun observer => NotifyBotMessage observer bot message) observers)
  end.

(** [onBotDisconnected(bot)] *)
Definition onBotDisconnected (bot : Bot) (r : t) : Completion * list Effect :=
  match observers_ r with
  | None =>
      (Throws "Invalid call to onBotDisconnected: instance has been disposed of.", [])
  | Some observers =>
      (Returns, map (fun observer => NotifyBotDisconnected observer bot) observers)
  end.

(** [dispose()]; on a runtime that is disposed of already
    [this.observers_.clear()] fails on null, after the bots were disposed
    of once more. *)
Definition dispose (r : t) : Completion * t * list Effect :=
  let effects :=
    map BotDispose (activeBots_ r) ++ map BotDispose (availableBots_ r) in
  match observers_ r with
  | Some _ => (Returns, withObservers None (withBots [] [] r), effects)
  | None => (Throws "TypeError", r, effects)
  end.

(** The calls that move bots between the two sets. *)
Inductive Request :=
| Connect
| RequestSlaveIncrease
| RequestSlaveDecrease
| Diconnect.

Definition request (q : Request) (r : t) : t * list Effect :=
  match q with
  | Connect => connect r
  | RequestSlaveIncrease => requestSlaveIncrease r
  | RequestSlaveDecrease => requestSlaveDecrease r
  | Diconnect => diconnect r
  end.

Fixpoint requests (qs : list Request) (r : t) : t :=
  match qs with
  | [] => r
  | q :: rest => requests rest (fst (request q r))
  end.

(** The bots that the constructor creates for a list of configurations. *)
Fixpoint botsFrom (next : nat) (configs : list BotConfig) : list Bot :=
  match configs with
  | [] => []
  | c :: rest => {| identity := next; config := c |} :: botsFrom (S next) rest
  end.

(** The two sets are made of distinct objects, the available bots are
    optional and not the master. *)
Definition Sorted (r : t) : Prop :=
  NoDup (map identity (activeBots_ r ++ availableBots_ r)) /\
  Forall (fun bot => required bot = false) (availableBots_ r).

End Runtime.

(** The runtime holds exactly the bots [bots], each in one of its two sets,
    with the required ones active and in their original order. *)
Definition Staffed (bots : list Runtime.Bot) (r : Runtime.t) : Prop :=
  Runtime.Sorted r /\
  Permutation (Runtime.activeBots_ r ++ Runtime.availableBots_ r) bots /\
  filter Runtime.required (Runtime.activeBots_ r) = filter Runtime.required bots.

(** [bot] may be taken out of service. *)
Definition spare (bot : Runtime.Bot) : bool := negb (Runtime.required bot).

(** ** PlayerSyncedData (the Pawn side of the player data bridge) *)

Module PlayerSyncedData.

(** [enum PlayerSyncedDataProperty] *)
Definition ISOLATED : Z := 1.
Definition MINIGAME_NAME : Z := 2.
Definition PREFERRED_RADIO_CHANNEL : Z := 0.

Definition INVALID_INT : Z := 0.

(** A Float cell is only passed along; it is kept as its bit pattern, and
    that of 0.0 is zero. *)
Definition Float := Z.
Definition INVALID_FLOAT : Float := 0.

Definition INVALID_STRING : string := "".

(** The members of one player's instance.  A character array holds the
    characters up to its terminating zero. *)
Record t := {
  m_isolated : bool;
  m_minigameName : string;
  m_preferredRadioChannel : string
}.

(** [sizeof(m_minigameName)] and [sizeof(m_preferredRadioChannel)] *)
Definition sizeofMinigameName : nat := 32.
Definition sizeofPreferredRadioChannel : nat := 64.

(** [format(output, size, "%s", value)]: the output array takes at most
    [size - 1] characters and the terminating zero. *)
Definition format (size : nat) (value : string) : string :=
  substring 0 (size - 1) value.

(** A call of the native [UpdatePlayerSyncedData]. *)
Record Update := {
  playerId : nat;
  property : Z;
  intValue : Z;
  floatValue : Float;
  stringValue : string
}.

(** [sync(property)] *)
Definition sync (player : nat) (prop : Z) (data : t) : list Update :=
  if prop =? ISOLATED then
    [{| playerId := player; property := prop;
        intValue := if m_isolated data then 1 else 0;
        floatValue := INVALID_FLOAT; stringValue := INVALID_STRING |}]
  else if prop =? MINIGAME_NAME then
    [{| playerId := player; property := prop;
        intValue := INVALID_INT;
        floatValue := INVALID_FLOAT; stringValue := m_minigameName data |}]
  else if prop =? PREFERRED_RADIO_CHANNEL then
    [{| playerId := player; property := prop;
        intValue := INVALID_INT;
        floatValue := INVALID_FLOAT; stringValue := m_preferredRadioChannel data |}]
  else [].

(** [apply(property, intValue, floatValue, stringValue)] *)
Definition apply (prop : Z) (int : Z) (float : Float) (text : string) (data : t) : t :=
  if prop =? ISOLATED then
    {| m_isolated := negb (int =? 0);
       m_minigameName := m_minigameName data;
       m_preferredRadioChannel := m_preferredRadioChannel data |}
  else if prop =? MINIGAME_NAME then
    {| m_isolated := m_isolated data;
       m_minigameName := format sizeofMinigameName text;
       m_preferredRadioChannel := m_preferredRadioChannel data |}
  else if prop =? PREFERRED_RADIO_CHANNEL then
    {| m_isolated := m_isolated data;
       m_minigameName := m_minigameName data;
       m_preferredRadioChannel := format sizeofPreferredRadioChannel text |}
  else data.

(** [reset()] *)
Definition reset (data : t) : t :=
  {| m_isolated := false; m_minigameName := ""; m_preferredRadioChannel := "" |}.

(** [isolated()] *)
Definition isolated (data : t) : bool := m_isolated data.

(** [setIsolated(isolated)] *)
Definition setIsolated (player : nat) (value : bool) (data : t) : t * list Update :=
  let data' := {| m_isolated := value;
                  m_minigameName := m_minigameName data;
                  m_preferredRadioChannel := m_preferredRadioChannel data |} in
  (data', sync player ISOLATED data').

(** [minigameName()] *)
Definition minigameName (data : t) : string := m_minigameName data.

(** [hasMinigameName()] *)
Definition hasMinigameName (data : t) : bool :=
  match m_minigameName data with
  | EmptyString => false
  | String _ _ => true
  end.

(** [setMinigameName(minigameName)]: not meant to be set from Pawn. *)
Definition setMinigameName (player : nat) (value : string) (data : t)
  : t * list Update :=
  (data, []).

(** [preferredRadioChannel()] *)
Definition preferredRadioChannel (data : t) : string := m_preferredRadioChannel data.

(** [setPreferredRadioChannel(preferredRadioChannel)] *)
Definition setPreferredRadioChannel (player : nat) (value : string) (data : t)
  : t * list Update :=
  let data' := {| m_isolated := m_isolated data;
                  m_minigameName := m_minigameName data;
                  m_preferredRadioChannel := format sizeofPreferredRadioChannel value |} in
  (data', sync player PREFERRED_RADIO_CHANNEL data').

(** [OnPlayerSyncedDataChange(playerId, property, intValue, floatValue,
    stringValue)] on the instance of the player; [connected] is what
    [Player(playerId)->isConnected()] returns. *)
Definition OnPlayerSyncedDataChange (connected : bool) (u : Update) (data : t) : t :=
  if negb connected then data
  else apply (property u) (intValue u) (floatValue u) (stringValue u) data.

(** What Pawn code and the JavaScript side can do to an instance. *)
Inductive Call :=
| Reset
| SetIsolated (value : bool)
| SetMinigameName (value : string)
| SetPreferredRadioChannel (value : string)
| Changed (connected : bool) (u : Update).

Definition call (player : nat) (c : Call) (data : t) : t * list Update :=
  match c with
  | Reset => (reset data, [])
  | SetIsolated value => setIsolated player value data
  | SetMinigameName value => setMinigameName player value data
  | SetPreferredRadioChannel value => setPreferredRadioChannel player value data
  | Changed connected u => (OnPlayerSyncedDataChange connected u data, [])
  end.

Fixpoint calls (player : nat) (cs : list Call) (data : t) : t :=
  match cs with
  | [] => data
  | c :: rest => calls player rest (fst (call player c data))
  end.

(** The strings fit their arrays. *)
Definition fits (data : t) : Prop :=
  (String.length (m_minigameName data) < sizeofMinigameName)%nat /\
  (String.length (m_preferredRadioChannel data) < sizeofPreferredRadioChannel)%nat.

End PlayerSyncedData.

(** ** ReactionTests (javascript/features/reaction_tests/reaction_tests.js) *)

Module ReactionTests.

Section Externals.

(** JavaScript numbers, as the clock returns them. *)
Variable Number : Type.

(** [Math.round((later - earlier) / 10) / 100], where [earlier] may be
    null. *)
Variable seconds : Number -> option Number -> Number.

(** The strategy objects - RandomStrategy is not part of the sources - and
    their [verify(message)]. *)
Variable Strategy : Type.
Variable verify : Strategy -> string -> bool.

(** A player, as far as the feature looks at one; [reactionTests] is
    [player.account.reactionTests]. *)
Record Player := {
  id : nat;
  name : string;
  nonPlayerCharacter : bool;
  reactionTests : Z
}.

(** The settings that the modelled methods read. *)
Record Settings := {
  reaction_test_prize : Z;
  reaction_test_expire_sec : Z
}.

(** The messages, with their parameters. *)
Inductive Text :=
| REACTION_TEST_TOO_LATE (winner : string) (difference : Number)
| REACTION_TEST_ANNOUNCE_WINNER_FIRST (winner : string) (difference : Number)
| REACTION_TEST_ANNOUNCE_WINNER_SECOND (winner : string) (difference : Number)
| REACTION_TEST_ANNOUNCE_WINNER (winner : string) (difference : Number)
    (previousWins : Z)
| REACTION_TEST_WON (prize : Z).

Inductive Effect :=
(** [strategy.start(announceToPlayers, nuwani, prize)] *)
| StrategyStart (strategy : Strategy) (prize : Z)
(** [player.sendMessage(...)] *)
| SendMessage (player : nat) (text : Text)
(** [nuwani.echo('reaction-result', name, id, difference)] *)
| Echo (winner : string) (player : nat) (difference : Number).

(** A pending [wait(...).then(...)].  The delay of a start is computed from
    Math.random() in floating point and is not modelled; timers fire when
    the environment says so. *)
Inductive Timer :=
| StartTimer
| TimeoutTimer (ms : Z).

Definition isStartTimer (timer : Timer) : bool :=
  match timer with StartTimer => true | TimeoutTimer _ => false end.

Definition isTimeoutTimer (timer : Timer) : bool :=
  match timer with StartTimer => false | TimeoutTimer _ => true end.

(** The fields that the modelled methods use; [activeTestToken_] holds a
    number, or null after dispose(). *)
Record t := {
  activeTest_ : option Strategy;
  activeTestStart_ : option Number;
  activeTestToken_ : option Z;
  activeTestWinnerName_ : option string;
  activeTestWinnerTime_ : option Number
}.

(** The feature with what it shares with the rest of the server: the
    players of [server.playerManager], the settings, the pending timers. *)
Record World := {
  feature : t;
  players : list Player;
  settings : Settings;
  timers : list Timer
}.

Definition withFeature (f : t) (w : World) : World :=
  {| feature := f; players := players w; settings := settings w;
     timers := timers w |}.

Definition withToken (token : option Z) (f : t) : t :=
  {| activeTest_ := activeTest_ f;
     activeTestStart_ := activeTestStart_ f;
     activeTestToken_ := token;
     activeTestWinnerName_ := activeTestWinnerName_ f;
     activeTestWinnerTime_ := activeTestWinnerTime_ f |}.

(** [a !== b] on values that are a number or null. *)
Definition tokenDiffers (a b : option Z) : bool :=
  match a, b with
  | Some x, Some y => negb (x =? y)
  | None, None => false
  | _, _ => true
  end.

(** The value of [++this.activeTestToken_]: null counts as zero. *)
Definition incremented (token : option Z) : option Z :=
  match token with
  | Some n => Some (n + 1)
  | None => Some 1
  end.

(** Whether a string-or-null is truthy. *)
Definition truthy (text : option string) : bool :=
  match text with
  | Some (String _ _) => true
  | _ => false
  end.

(** [scheduleNextTest()]: one more pending start. *)
Definition scheduleNextTest (w : World) : World :=
  {| feature := feature w; players := players w; settings := settings w;
     timers := timers w ++ [StartTimer] |}.

(** [shouldSkipReactionTest()] *)
Definition shouldSkipReactionTest (w : World) : bool :=
  forallb nonPlayerCharacter (players w).

(** [announceToPlayers(message, ...params)] *)
Definition announceToPlayers (text : Text) (w : World) : list Effect :=
  map (fun player => SendMessage (id player) text) (players w).

(** [startReactionTest(activeTestToken)]; [strategy] is the object that
    [new this.strategies_[strategyIndex]] creates - the feature has one
    strategy constructor, so the index is 0 - and [now] the clock's time. *)
Definition startReactionTest (strategy : Strategy) (now : Number)
    (activeTestToken : option Z) (w : World) : World * list Effect :=
  if tokenDiffers (activeTestToken_ (feature w)) activeTestToken
  then (w, [])
  else if shouldSkipReactionTest w
  then (scheduleNextTest w, [])
  else
    ({| feature :=
          {| activeTest_ := Some strategy;
             activeTestStart_ := Some now;
             activeTestToken_ := activeTestToken_ (feature w);
             activeTestWinnerName_ := None;
             activeTestWinnerTime_ := None |};
        players := players w;
        settings := settings w;
        timers :=
          timers w
          ++ [TimeoutTimer (reaction_test_expire_sec (settings w) * 1000)] |},
     [StrategyStart strategy (reaction_test_prize (settings w))]).

(** [player.account.reactionTests++] on the player object in the store. *)
Definition countWin (winner : Player) (w : World) : list Player :=
  map (fun player =>
         if Nat.eqb (id player) (id winner)
         then {| id := id player; name := name player;
                 nonPlayerCharacter := nonPlayerCharacter player;
                 reactionTests := reactionTests player + 1 |}
         else player)
      (players w).

(** [onPlayerText(player, message)]; [now] is the clock's time. *)
Definition onPlayerText (player : Player) (message : string) (now : Number)
    (w : World) : bool * World * list Effect :=
  match activeTest_ (feature w) with
  | None => (false, w, [])
  | Some test =>
      if negb (verify test message) then (false, w, [])
      else
        let winner := activeTestWinnerName_ (feature w) in
        if truthy winner
           && match winner with
              | Some held => String.eqb held (name player)
              | None => false
              end
        then (true, w, [])
        else if truthy winner
        then
          (true, w,
           [SendMessage (id player)
              (REACTION_TEST_TOO_LATE
                 (match winner with Some held => held | None => "" end)
                 (seconds now (activeTestWinnerTime_ (feature w))))])
        else
          let difference := seconds now (activeTestStart_ (feature w)) in
          let previousWins := reactionTests player in
          let announcement :=
            if previousWins <=? 1
            then
              if previousWins =? 0
              then REACTION_TEST_ANNOUNCE_WINNER_FIRST (name player) difference
              else REACTION_TEST_ANNOUNCE_WINNER_SECOND (name player) difference
            else REACTION_TEST_ANNOUNCE_WINNER (name player) difference previousWins in
          (true,
           scheduleNextTest
             {| feature :=
                  {| activeTest_ := activeTest_ (feature w);
                     activeTestStart_ := activeTestStart_ (feature w);
                     activeTestToken_ := activeTestToken_ (feature w);
                     activeTestWinnerName_ := Some (name player);
                     activeTestWinnerTime_ := Some now |};
                players := countWin player w;
                settings := settings w;
                timers := timers w |},
           Echo (name player) (id player) difference
             :: announceToPlayers announcement w
             ++ [SendMessage (id player)
                   (REACTION_TEST_WON (reaction_test_prize (settings w)))])
  end.

(** [reactionTestTimedOut(activeTestToken)] *)
Definition reactionTestTimedOut (activeTestToken : option Z) (w : World) : World :=
  if tokenDiffers (activeTestToken_ (feature w)) activeTestToken
  then w
  else
    scheduleNextTest
      (withFeature
         {| activeTest_ := None;
            activeTestStart_ := activeTestStart_ (feature w);
            activeTestToken_ := activeTestToken_ (feature w);
            activeTestWinnerName_ := activeTestWinnerName_ (feature w);
            activeTestWinnerTime_ := activeTestWinnerTime_ (feature w) |} w).

(** [dispose()] *)
Definition dispose (w : World) : World :=
  withFeature (withToken None (feature w)) w.

(** The callback of the timer set by [scheduleNextTest]:
    [() => this.startReactionTest(++this.activeTestToken_)]. *)
Definition startTimerFired (strategy : Strategy) (now : Number) (w : World)
  : World * list Effect :=
  let token := incremented (activeTestToken_ (feature w)) in
  startReactionTest strategy now token
    (withFeature (withToken token (feature w)) w).

(** The callback of the timer set by [startReactionTest]:
    [() => this.reactionTestTimedOut(this.activeTestToken_)]. *)
Definition timeoutTimerFired (w : World) : World :=
  reactionTestTimedOut (activeTestToken_ (feature w)) w.

(** Takes the first timer of a kind out of the pending ones. *)
Definition fire (kind : Timer -> bool) (w : World) : option World :=
  match extract kind (timers w) with
  | Some (_, others) =>
      Some {| feature := feature w; players := players w;
              settings := settings w; timers := others |}
  | None => None
  end.

(** One turn of the event loop. *)
Inductive Event :=
| StartFires (strategy : Strategy) (now : Number)
| TimeoutFires
| PlayerText (player : nat) (message : string) (now : Number)
| Dispose.

Definition step (e : Event) (w : World) : World * list Effect :=
  match e with
  | StartFires strategy now =>
      match fire isStartTimer w with
      | Some w' => startTimerFired strategy now w'
      | None => (w, [])
      end
  | TimeoutFires =>
      match fire isTimeoutTimer w with
      | Some w' => (timeoutTimerFired w', [])
      | None => (w, [])
      end
  | PlayerText player message now =>
      match find (fun p => Nat.eqb (id p) player) (players w) with
      | Some p => let '(_, w', effects) := onPlayerText p message now w in (w', effects)
      | None => (w, [])
      end
  | Dispose => (dispose w, [])
  end.

Fixpoint run (events : list Event) (w : World) : World :=
  match events with
  | [] => w
  | e :: rest => run rest (fst (step e w))
  end.

(** The reaction tests won by all players together. *)
Definition totalWins (w : World) : Z :=
  fold_right (fun player sum => reactionTests player + sum) 0 (players w).


End Externals.

End ReactionTests.

(** A reaction test in progress, for concrete runs: the clock counts
    milliseconds in whole numbers, differences are given in hundredths of a
    second, and a test is verified by repeating its word. *)
Definition sampleSeconds (later : Z) (earlier : option Z) : Z :=
  (later - match earlier with Some time => time | None => 0 end + 5) / 10.

Definition sampleRussell : ReactionTests.Player :=
  {| ReactionTests.id := 0; ReactionTests.name := "Russell";
     ReactionTests.nonPlayerCharacter := false; ReactionTests.reactionTests := 0 |}.

Definition sampleGunther : ReactionTests.Player :=
  {| ReactionTests.id := 1; ReactionTests.name := "Gunther";
     ReactionTests.nonPlayerCharacter := false; ReactionTests.reactionTests := 2 |}.

Definition sampleTest : ReactionTests.World Z string :=
  {| ReactionTests.feature :=
       {| ReactionTests.activeTest_ := Some "abc";
          ReactionTests.activeTestStart_ := Some 1000;
          ReactionTests.activeTestToken_ := Some 1;
          ReactionTests.activeTestWinnerName_ := None;
          ReactionTests.activeTestWinnerTime_ := None |};
     ReactionTests.players := [sampleRussell; sampleGunther];
     ReactionTests.settings :=
       {| ReactionTests.reaction_test_prize := 5000;
          ReactionTests.reaction_test_expire_sec := 300 |};
     ReactionTests.timers := [ReactionTests.TimeoutTimer 300000] |}.

(** ** The back-off policy *)

Lemma failures_attempt (k : nat) (p : BackoffPolicy.t) :
  BackoffPolicy.attempt (BackoffPolicy.failures k p) = (BackoffPolicy.attempt p + k)%nat.
Proof.
  induction k as [|k IH].
  - cbn. lia.
  - change (BackoffPolicy.failures (S k) p)
      with (BackoffPolicy.markRequestFailed (BackoffPolicy.failures k p)).
    cbn [BackoffPolicy.markRequestFailed BackoffPolicy.withAttempt BackoffPolicy.attempt].
    rewrite IH. lia.
Qed.

Lemma failures_delay (k : nat) (p : BackoffPolicy.t) :
  BackoffPolicy.getTimeToNextRequestMs (BackoffPolicy.failures k p)
  = BackoffPolicy.CalculateDelayForAttempt p (BackoffPolicy.attempt p + k).
Proof.
  unfold BackoffPolicy.getTimeToNextRequestMs.
  rewrite failures_attempt.
  generalize (BackoffPolicy.attempt p + k)%nat as n. intro n.
  induction k as [|k IH]; [reflexivity|].
  change (BackoffPolicy.failures (S k) p)
    with (BackoffPolicy.markRequestFailed (BackoffPolicy.failures k p)).
  rewrite <- IH. destruct n; reflexivity.
Qed.

Lemma delayBound_double (p : BackoffPolicy.t) (n : nat) :
  0 <= BackoffPolicy.initialDelayMs p ->
  0 <= BackoffPolicy.maximumDelayMs p ->
  Z.min (BackoffPolicy.maximumDelayMs p) (2 * BackoffPolicy.delayBoundMs p (S n))
  = BackoffPolicy.delayBoundMs p (S (S n)).
Proof.
  intros Hi Hm. unfold BackoffPolicy.delayBoundMs.
  replace (Z.of_nat (S (S n) - 1)) with (Z.succ (Z.of_nat (S n - 1))) by lia.
  rewrite Z.pow_succ_r by lia.
  lia.
Qed.

Lemma delay_step (p : BackoffPolicy.t) (n : nat) :
  BackoffPolicy.wellFormed p ->
  BackoffPolicy.CalculateDelayForAttempt p n
  <= BackoffPolicy.CalculateDelayForAttempt p (S n).
Proof.
  intros (Hi & Hm & Hj).
  destruct n as [|n].
  - cbn [BackoffPolicy.CalculateDelayForAttempt]. unfold BackoffPolicy.kIdleDelayMs.
    pose proof (Hj 1%nat). lia.
  - cbn [BackoffPolicy.CalculateDelayForAttempt].
    pose proof (Hj (S n)). pose proof (Hj (S (S n))).
    pose proof (delayBound_double p n Hi Hm).
    lia.
Qed.

Lemma delay_capped (p : BackoffPolicy.t) (n : nat) :
  0 <= BackoffPolicy.maximumDelayMs p ->
  BackoffPolicy.CalculateDelayForAttempt p n <= BackoffPolicy.maximumDelayMs p.
Proof.
  intros Hm. destruct n; cbn [BackoffPolicy.CalculateDelayForAttempt].
  - exact Hm.
  - lia.
Qed.

Lemma samplePolicy_wellFormed : BackoffPolicy.wellFormed samplePolicy.
Proof.
  unfold BackoffPolicy.wellFormed, BackoffPolicy.delayBoundMs, samplePolicy.
  cbn [BackoffPolicy.initialDelayMs BackoffPolicy.maximumDelayMs BackoffPolicy.jitter].
  repeat split; try lia.
  - pose proof (Z.pow_nonneg 2 (Z.of_nat (n - 1))).
    apply Z.div_pos; lia.
  - pose proof (Z.pow_nonneg 2 (Z.of_nat (n - 1))).
    apply Z.div_le_upper_bound; lia.
Qed.

(** C8: over any number of consecutive failures the delay to the next request
    never decreases and never exceeds the ceiling, and the success that
    follows brings it back to the idle baseline. *)
Theorem backoff_delay_grows_until_success (p : BackoffPolicy.t) (n : nat) :
  BackoffPolicy.wellFormed p ->
  (forall k, (k < n)%nat ->
     BackoffPolicy.getTimeToNextRequestMs (BackoffPolicy.failures k p)
     <= BackoffPolicy.getTimeToNextRequestMs (BackoffPolicy.failures (S k) p)) /\
  (forall k, (k <= n)%nat ->
     BackoffPolicy.getTimeToNextRequestMs (BackoffPolicy.failures k p)
     <= BackoffPolicy.maximumDelayMs p) /\
  BackoffPolicy.getTimeToNextRequestMs
    (BackoffPolicy.markRequestSuccessful (BackoffPolicy.failures n p))
  = BackoffPolicy.kIdleDelayMs.
Proof.
  intros Hp. repeat split.
  - intros k _. rewrite !failures_delay.
    replace (BackoffPolicy.attempt p + S k)%nat
      with (S (BackoffPolicy.attempt p + k)) by lia.
    now apply delay_step.
  - intros k _. rewrite failures_delay. apply delay_capped. apply Hp.
Qed.

Lemma backoff_delay_grows_until_success_witness :
  BackoffPolicy.wellFormed samplePolicy /\
  BackoffPolicy.getTimeToNextRequestMs (BackoffPolicy.failures 2 samplePolicy)
  <= BackoffPolicy.getTimeToNextRequestMs (BackoffPolicy.failures 3 samplePolicy) /\
  BackoffPolicy.getTimeToNextRequestMs
    (BackoffPolicy.markRequestSuccessful (BackoffPolicy.failures 3 samplePolicy)) = 0.
Proof.
  split; [exact samplePolicy_wellFormed|].
  destruct (backoff_delay_grows_until_success samplePolicy 3 samplePolicy_wellFormed)
    as (Hgrow & _ & Hidle).
  split; [apply Hgrow; lia | exact Hidle].
Defined.

(** ** Single calls *)

Lemma withSocket_same (c : DiscordConnection.t) :
  DiscordConnection.withSocket (DiscordConnection.socket_ c) c = c.
Proof. destruct c; reflexivity. Qed.

Lemma withConnection_same (w : World) : withConnection (connection w) w = w.
Proof. destruct w; reflexivity. Qed.

(** C5: a connection that is not established answers [false] and leaves
    connection and socket alone; an established one hands the envelope
    [{ op, d, s, t }], with [d] defaulting to the empty object, to the
    socket's write and nothing else. *)
Theorem sendOpcodeMessage_refuses_or_forwards
    (m : DiscordConnection.OpcodeMessage) (c : DiscordConnection.t) :
  (DiscordConnection.isConnected c = false ->
   DiscordConnection.sendOpcodeMessage m c = (Resolved (VBool false), c, [])) /\
  (DiscordConnection.isConnected c = true ->
   exists promise,
     fulfilled promise /\
     DiscordConnection.sendOpcodeMessage m c
     = (promise, c,
        [WriteCall
           {| Gateway.op := DiscordConnection.op m;
              Gateway.d := match DiscordConnection.d m with
                           | Some data => data
                           | None => []
                           end;
              Gateway.s := DiscordConnection.s m;
              Gateway.t := DiscordConnection.t' m |}])).
Proof.
  unfold DiscordConnection.isConnected, DiscordConnection.sendOpcodeMessage.
  split; intros Hc; rewrite Hc; cbn.
  - reflexivity.
  - exists (Resolved VUndefined). split; [now exists VUndefined|].
    now rewrite withSocket_same.
Qed.

Lemma sendOpcodeMessage_refuses_or_forwards_witness :
  DiscordConnection.sendOpcodeMessage
    (DiscordConnection.onlyOp DiscordConnection.kOpcodeHeartbeat)
    (connection sampleWorld)
  = (Resolved (VBool false), connection sampleWorld, []) /\
  exists promise,
    fulfilled promise /\
    DiscordConnection.sendOpcodeMessage
      {| DiscordConnection.op := 1;
         DiscordConnection.d := Some [("seq", Some 7)];
         DiscordConnection.s := Some 7;
         DiscordConnection.t' := Some "PING" |}
      (connection (run [OnConnectionEstablished] sampleWorld))
    = (promise, connection (run [OnConnectionEstablished] sampleWorld),
       [WriteCall
          {| Gateway.op := 1;
             Gateway.d := [("seq", Some 7)];
             Gateway.s := Some 7;
             Gateway.t := Some "PING" |}]).
Proof.
  split.
  - apply (sendOpcodeMessage_refuses_or_forwards
             (DiscordConnection.onlyOp DiscordConnection.kOpcodeHeartbeat)
             (connection sampleWorld)).
    reflexivity.
  - apply (sendOpcodeMessage_refuses_or_forwards
             {| DiscordConnection.op := 1;
                DiscordConnection.d := Some [("seq", Some 7)];
                DiscordConnection.s := Some 7;
                DiscordConnection.t' := Some "PING" |}
             (connection (run [OnConnectionEstablished] sampleWorld))).
    reflexivity.
Defined.

(** C9: a Heartbeat-Ack sets the time of the last acknowledgement to the
    clock's time at receipt; every other field of the connection - the
    connected flag, the intent, the interval, the monitor token, the socket -
    the clock, the symbol supply and the suspended coroutines stay as they
    are, and nothing is logged, written, opened or closed. *)
Theorem heartbeatAck_records_receipt_only (message : Gateway.Payload) (w : World) :
  Gateway.op message = DiscordConnection.kOpcodeHeartbeatAck ->
  let w' := fst (step (OnMessage message) w) in
  DiscordConnection.hearbeatAckTimeForTesting (connection w') = Some (clock w) /\
  DiscordConnection.isConnected (connection w')
    = DiscordConnection.isConnected (connection w) /\
  connection w'
    = DiscordConnection.withHeartbeatAckTime (Some (clock w)) (connection w) /\
  DiscordConnection.socket_ (connection w') = DiscordConnection.socket_ (connection w) /\
  clock w' = clock w /\ symbols w' = symbols w /\
  attempts w' = attempts w /\ monitors w' = monitors w /\
  snd (step (OnMessage message) w) = [].
Proof.
  intros Hop. cbn [step]. unfold DiscordConnection.onMessage.
  rewrite Hop. cbn. repeat split.
Qed.

Lemma heartbeatAck_records_receipt_only_witness :
  let w := run [OnConnectionEstablished; Elapse 41250%N] sampleWorld in
  let w' := fst (step (OnMessage (bare 11)) w) in
  DiscordConnection.hearbeatAckTimeForTesting (connection w') = Some 41250 /\
  DiscordConnection.isConnected (connection w') = true /\
  snd (step (OnMessage (bare 11)) w) = [].
Proof.
  destruct (heartbeatAck_records_receipt_only (bare 11)
              (run [OnConnectionEstablished; Elapse 41250%N] sampleWorld) eq_refl)
    as (Hack & Hconnected & _ & _ & _ & _ & _ & _ & Hsilent).
  split; [exact Hack | split; [exact Hconnected | exact Hsilent]].
Defined.

(** C7, as the code has it: a Dispatch, Reconnect or InvalidSession - like any
    opcode other than Heartbeat, Heartbeat-Ack and Hello - is logged as
    unhandled and otherwise ignored: the world stays as it is, nothing
    reaches the socket, and no connect loop is started. *)
Theorem unhandled_opcodes_are_logged_only (message : Gateway.Payload) (w : World) :
  Gateway.op message <> DiscordConnection.kOpcodeHeartbeat ->
  Gateway.op message <> DiscordConnection.kOpcodeHeartbeatAck ->
  Gateway.op message <> DiscordConnection.kOpcodeHello ->
  step (OnMessage message) w = (w, [ConsoleLog (LogUnhandled message)]).
Proof.
  intros H1 H11 H10. cbn [step]. unfold DiscordConnection.onMessage.
  apply Z.eqb_neq in H1, H11, H10. rewrite H1, H11, H10.
  destruct w; reflexivity.
Qed.

Lemma unhandled_opcodes_are_logged_only_witness :
  step (OnMessage (bare DiscordConnection.kOpcodeInvalidSession))
       (run [Connect; OnConnectionEstablished] sampleWorld)
  = (run [Connect; OnConnectionEstablished] sampleWorld,
     [ConsoleLog (LogUnhandled (bare DiscordConnection.kOpcodeInvalidSession))]).
Proof.
  apply (unhandled_opcodes_are_logged_only
           (bare DiscordConnection.kOpcodeInvalidSession)
           (run [Connect; OnConnectionEstablished] sampleWorld));
    cbn; discriminate.
Defined.

(** C7, as the claim has it, fails: on an established connection a Reconnect
    is ignored. *)
Lemma reconnect_is_ignored :
  ignored (OnMessage (bare DiscordConnection.kOpcodeReconnect))
          (run [Connect; ResumeConnect 0%nat false; ResumeConnect 0%nat true;
                OnConnectionEstablished] sampleWorld).
Proof.
  split.
  - reflexivity.
  - intros effect [<-|[]]. now eexists.
Qed.




(** C1 at the failing input: a connection is established and receives a Hello
    with an interval of 41250 ms, which starts the heartbeat monitor; then
    disconnect() is called.  The connection token is cleared, the heartbeat
    monitor token is still the monitor's, and the monitor's next wake-up
    writes a Heartbeat. *)
Theorem disconnect_keeps_heartbeat_monitor_running :
  let before := run [OnConnectionEstablished; OnMessage (hello 41250)] sampleWorld in
  let after := fst (step Disconnect before) in
  monitors before
    = [{| DiscordConnection.heartbeatMonitorToken := 0%nat;
          DiscordConnection.sleepMs := Some 41250 |}] /\
  DiscordSocket.connectionToken_ (DiscordConnection.socket_ (connection after)) = None /\
  DiscordConnection.heartbeatMonitorToken_ (connection after) = Some 0%nat /\
  snd (step (WakeMonitor 0%nat) after) = [WriteCall heartbeat].
Proof. repeat split. Qed.

(** disconnect() never touches the heartbeat monitor token. *)
Lemma disconnect_heartbeatMonitorToken (c : DiscordConnection.t) :
  DiscordConnection.heartbeatMonitorToken_
    (snd (fst (DiscordConnection.disconnect c)))
  = DiscordConnection.heartbeatMonitorToken_ c.
Proof.
  unfold DiscordConnection.disconnect, DiscordSocket.disconnect; cbn.
  destruct (DiscordSocket.disposed_ (DiscordConnection.socket_ c)); reflexivity.
Qed.

(** ** Pools of suspended coroutines *)

Section Pools.

Context {A : Type}.
Variable key : A -> Symbol.

Lemma extract_split (p : A -> bool) (pool : list A) (x : A) (others : list A) :
  extract p pool = Some (x, others) ->
  exists before after,
    pool = before ++ x :: after /\ others = before ++ after /\ p x = true.
Proof.
  revert x others. induction pool as [|y pool IH]; intros x others; cbn.
  - discriminate.
  - destruct (p y) eqn:Hy.
    + intros [= <- <-]. now exists [], pool.
    + destruct (extract p pool) as [[z rest]|]; [|discriminate].
      intros [= <- <-].
      destruct (IH z rest eq_refl) as (before & after & -> & -> & Hz).
      now exists (y :: before), after.
Qed.

Lemma pool_known_weaken (n : nat) (pool : list A) :
  Forall (fun x => (key x < n)%nat) pool ->
  Forall (fun x => (key x < S n)%nat) pool.
Proof. apply Forall_impl. intros; lia. Qed.

Lemma pool_known_grow (n : nat) (pool : list A) (x : A) :
  key x = n ->
  Forall (fun x => (key x < n)%nat) pool ->
  Forall (fun x => (key x < S n)%nat) (pool ++ [x]).
Proof.
  intros Hx Hpool. apply Forall_app. split.
  - now apply pool_known_weaken.
  - constructor; [lia | constructor].
Qed.

Lemma pool_distinct_grow (n : nat) (pool : list A) (x : A) :
  key x = n ->
  Forall (fun x => (key x < n)%nat) pool ->
  NoDup (map key pool) ->
  NoDup (map key (pool ++ [x])).
Proof.
  intros Hx Hknown Hdistinct. rewrite map_app. apply NoDup_app; trivial.
  - cbn. constructor; [intros [] | constructor].
  - intros k Hk [<-|[]]. apply in_map_iff in Hk as (y & Hy & Hin).
    rewrite Forall_forall in Hknown. specialize (Hknown y Hin). lia.
Qed.

Lemma pool_known_resume (n : nat) (p : A -> bool) (pool others : list A)
    (x : A) (continued : option A) :
  extract p pool = Some (x, others) ->
  (forall y, continued = Some y -> key y = key x) ->
  Forall (fun x => (key x < n)%nat) pool ->
  Forall (fun x => (key x < n)%nat) (suspend continued others).
Proof.
  intros Hextract Hkey Hknown.
  destruct (extract_split _ _ _ _ Hextract) as (before & after & -> & -> & _).
  apply Forall_app in Hknown as [Hbefore Hafter].
  inversion Hafter as [|? ? Hx Hafter']; subst.
  destruct continued as [y|]; cbn.
  - apply Forall_app. split.
    + apply Forall_app. now split.
    + constructor; [|constructor]. rewrite (Hkey y eq_refl). exact Hx.
  - apply Forall_app. now split.
Qed.

Lemma pool_distinct_resume (p : A -> bool) (pool others : list A)
    (x : A) (continued : option A) :
  extract p pool = Some (x, others) ->
  (forall y, continued = Some y -> key y = key x) ->
  NoDup (map key pool) ->
  NoDup (map key (suspend continued others)).
Proof.
  intros Hextract Hkey Hdistinct.
  destruct (extract_split _ _ _ _ Hextract) as (before & after & -> & -> & _).
  rewrite map_app in Hdistinct. cbn [map] in Hdistinct.
  apply NoDup_remove in Hdistinct as [Hrest Hfresh].
  rewrite <- map_app in Hrest, Hfresh.
  destruct continued as [y|]; cbn; trivial.
  rewrite map_app. apply NoDup_app; trivial.
  - cbn. constructor; [intros [] | constructor].
  - intros k Hk [<-|[]]. rewrite (Hkey y eq_refl) in Hk. contradiction.
Qed.

(** In a pool of distinct keys the key decides the coroutine. *)
Lemma pool_distinct_unique (pool : list A) (x y : A) :
  NoDup (map key pool) -> In x pool -> In y pool -> key x = key y -> x = y.
Proof.
  induction pool as [|z pool IH]; cbn; [tauto|].
  intros Hdistinct Hx Hy Hkey. inversion Hdistinct as [|? ? Hz Hrest]; subst.
  destruct Hx as [->|Hx], Hy as [->|Hy]; trivial.
  - exfalso. apply Hz. rewrite Hkey. now apply in_map.
  - exfalso. apply Hz. rewrite <- Hkey. now apply in_map.
  - now apply IH.
Qed.

(** Once the coroutine of a key is taken out, the key is gone. *)
Lemma pool_distinct_extracted (p : A -> bool) (pool others : list A) (x y : A) :
  NoDup (map key pool) ->
  extract p pool = Some (x, others) ->
  In y others -> key y <> key x.
Proof.
  intros Hdistinct Hextract Hy Hkey.
  destruct (extract_split _ _ _ _ Hextract) as (before & after & -> & -> & _).
  rewrite map_app in Hdistinct. cbn [map] in Hdistinct.
  apply NoDup_remove_2 in Hdistinct. apply Hdistinct.
  rewrite <- map_app, <- Hkey. now apply in_map.
Qed.

End Pools.

(** ** What the methods do to the tokens *)

Lemma sendOpcodeMessage_connection
    (m : DiscordConnection.OpcodeMessage) (c : DiscordConnection.t) :
  snd (fst (DiscordConnection.sendOpcodeMessage m c)) = c.
Proof.
  unfold DiscordConnection.sendOpcodeMessage.
  destruct (DiscordConnection.connected_ c); cbn; [apply withSocket_same | reflexivity].
Qed.

Lemma wake_connection (m : DiscordConnection.Monitor) (c : DiscordConnection.t) :
  fst (fst (DiscordConnection.wake m c)) = c.
Proof.
  unfold DiscordConnection.wake.
  destruct (differs _ _); [reflexivity|].
  pose proof (sendOpcodeMessage_connection
                (DiscordConnection.onlyOp DiscordConnection.kOpcodeHeartbeat) c) as H.
  destruct (DiscordConnection.sendOpcodeMessage _ c) as [[promise c1] effects].
  exact H.
Qed.

Lemma wake_token (m y : DiscordConnection.Monitor) (c : DiscordConnection.t) :
  snd (fst (DiscordConnection.wake m c)) = Some y ->
  DiscordConnection.heartbeatMonitorToken y = DiscordConnection.heartbeatMonitorToken m.
Proof.
  unfold DiscordConnection.wake.
  destruct (differs _ _); [discriminate|].
  destruct (DiscordConnection.sendOpcodeMessage _ c) as [[promise c1] effects].
  cbn. now intros [= <-].
Qed.

Lemma wake_superseded (m : DiscordConnection.Monitor) (c : DiscordConnection.t) :
  differs (DiscordConnection.heartbeatMonitorToken_ c)
          (DiscordConnection.heartbeatMonitorToken m) = true ->
  DiscordConnection.wake m c = (c, None, []).
Proof. intros H. unfold DiscordConnection.wake. now rewrite H. Qed.

Lemma resume_token (a y : DiscordSocket.Attempt) (connected : bool)
    (sock : DiscordSocket.t) :
  snd (fst (DiscordSocket.resume a connected sock)) = Some y ->
  DiscordSocket.connectionToken y = DiscordSocket.connectionToken a.
Proof.
  unfold DiscordSocket.resume.
  destruct (DiscordSocket.suspended a), (differs _ _), (DiscordSocket.disposed_ sock),
    connected; cbn; intros [= <-]; reflexivity.
Qed.

Lemma resume_connectionToken (a : DiscordSocket.Attempt) (connected : bool)
    (sock : DiscordSocket.t) :
  let sock' := fst (fst (DiscordSocket.resume a connected sock)) in
  DiscordSocket.connectionToken_ sock' = DiscordSocket.connectionToken_ sock \/
  DiscordSocket.connectionToken_ sock' = None.
Proof.
  unfold DiscordSocket.resume.
  destruct (DiscordSocket.suspended a), (differs _ _), (DiscordSocket.disposed_ sock),
    connected; cbn; auto.
Qed.

Lemma resume_disposed (a : DiscordSocket.Attempt) (connected : bool)
    (sock : DiscordSocket.t) :
  DiscordSocket.disposed_ (fst (fst (DiscordSocket.resume a connected sock)))
  = DiscordSocket.disposed_ sock.
Proof.
  unfold DiscordSocket.resume. destruct sock as [policy stored disposed st]. cbn.
  destruct (DiscordSocket.suspended a), (differs _ _), disposed, connected;
    reflexivity.
Qed.

(** A superseded coroutine that waits for its first attempt ends without
    touching the raw socket. *)
Lemma resume_superseded_initial (a : DiscordSocket.Attempt) (connected : bool)
    (sock : DiscordSocket.t) (ms : Z) :
  DiscordSocket.suspended a = DiscordSocket.InitialWait ms ->
  differs (DiscordSocket.connectionToken_ sock) (DiscordSocket.connectionToken a) = true ->
  DiscordSocket.resume a connected sock
  = (DiscordSocket.withBackoffPolicy
       (BackoffPolicy.resetToIdle (DiscordSocket.backoffPolicy_ sock)) sock,
     None, []).
Proof.
  intros Hat Hdiffers. unfold DiscordSocket.resume. now rewrite Hat, Hdiffers.
Qed.

Lemma differs_refl (token : Symbol) : differs (Some token) token = false.
Proof. cbn. now rewrite Nat.eqb_refl. Qed.

Lemma differs_fresh (token n : Symbol) :
  (token < n)%nat -> differs (Some n) token = true.
Proof. intros H. cbn. apply negb_true_iff, Nat.eqb_neq. lia. Qed.

(** ** The tokens stay coherent *)

Lemma boot_coherent (configuration : DiscordConnection.Configuration)
    (policy : BackoffPolicy.t) :
  Coherent (boot configuration policy).
Proof.
  constructor; cbn; try discriminate; constructor.
Qed.

Lemma step_coherent (e : Event) (w : World) :
  Coherent w -> Coherent (fst (step e w)).
Proof.
  intros [HcT HmT HaK HmK HaD HmD Hdisposed Hintent].
  destruct e; cbn [step].
  - (* Connect *)
    unfold DiscordConnection.connect, DiscordConnection.internalConnect,
      DiscordSocket.connect; cbn.
    destruct (DiscordConnection.connecting_ (connection w)) eqn:Hconnecting; cbn.
    + constructor; cbn; auto.
    + destruct (DiscordSocket.connectionToken_
                  (DiscordConnection.socket_ (connection w))) eqn:Htoken; cbn.
      * constructor; cbn; auto. now rewrite Htoken.
      * constructor; cbn; auto.
        -- intros token [= <-]. lia.
        -- intros token H. specialize (HmT token H). lia.
        -- now apply pool_known_grow.
        -- now apply pool_known_weaken.
        -- now apply pool_distinct_grow with (n := symbols w).
  - (* Disconnect *)
    unfold DiscordConnection.disconnect, DiscordSocket.disconnect; cbn.
    rewrite Hdisposed; cbn.
    constructor; cbn; auto; discriminate.
  - (* SendOpcodeMessage *)
    pose proof (sendOpcodeMessage_connection m (connection w)) as Hsame.
    destruct (DiscordConnection.sendOpcodeMessage m (connection w))
      as [[promise c] effects].
    cbn in Hsame. subst c. cbn. rewrite withConnection_same.
    now constructor.
  - (* HeartbeatMonitor *)
    unfold DiscordConnection.heartbeatMonitor; cbn.
    destruct (DiscordConnection.unwilling _); cbn;
      constructor; cbn; auto;
      try (intros token H; specialize (HcT token H); lia);
      try (intros token [= <-]; lia);
      try (now apply pool_known_weaken);
      try (now apply pool_known_grow);
      now apply pool_distinct_grow with (n := symbols w).
  - (* OnConnectionClosed *)
    constructor; cbn; auto; discriminate.
  - (* OnConnectionEstablished *)
    constructor; cbn; auto; discriminate.
  - (* OnConnectionFailed *)
    unfold DiscordConnection.onConnectionFailed. rewrite withConnection_same.
    now constructor.
  - (* OnMessage *)
    unfold DiscordConnection.onMessage.
    destruct (Gateway.op message =? DiscordConnection.kOpcodeHeartbeat) eqn:H1.
    { pose proof (sendOpcodeMessage_connection
                    (DiscordConnection.onlyOp DiscordConnection.kOpcodeHeartbeatAck)
                    (connection w)) as Hsame.
      destruct (DiscordConnection.sendOpcodeMessage _ (connection w))
        as [[promise c] effects].
      cbn in Hsame. subst c.
      apply Z.eqb_eq in H1.
      replace (Gateway.op message =? DiscordConnection.kOpcodeHello) with false
        by (symmetry; apply Z.eqb_neq; rewrite H1; discriminate).
      cbn. now constructor. }
    destruct (Gateway.op message =? DiscordConnection.kOpcodeHeartbeatAck) eqn:H11.
    { apply Z.eqb_eq in H11.
      replace (Gateway.op message =? DiscordConnection.kOpcodeHello) with false
        by (symmetry; apply Z.eqb_neq; rewrite H11; discriminate).
      cbn. now constructor. }
    destruct (Gateway.op message =? DiscordConnection.kOpcodeHello) eqn:H10.
    { unfold DiscordConnection.heartbeatMonitor, DiscordConnection.identify.
      destruct (DiscordConnection.unwilling _); cbn;
        constructor; cbn; auto;
        try (intros token H; specialize (HcT token H); lia);
        try (intros token [= <-]; lia);
        try (now apply pool_known_weaken);
        try (now apply pool_known_grow);
        now apply pool_distinct_grow with (n := symbols w). }
    cbn. now constructor.
  - (* ResumeConnect *)
    destruct (extract (holdsConnectionToken token) (attempts w))
      as [[a others]|] eqn:Hextract; [|now constructor].
    pose proof (resume_token a) as Hkey.
    pose proof (resume_connectionToken a connected
                  (DiscordConnection.socket_ (connection w))) as Hstored.
    pose proof (resume_disposed a connected
                  (DiscordConnection.socket_ (connection w))) as Hsame.
    specialize (Hkey) with (connected := connected)
                           (sock := DiscordConnection.socket_ (connection w)).
    destruct (DiscordSocket.resume a connected _) as [[sock continued] effects].
    cbn in Hkey, Hstored, Hsame. cbn.
    constructor; cbn; auto.
    + intros held Hheld. destruct Hstored as [Hstored|Hstored];
        rewrite Hstored in Hheld; [auto | discriminate].
    + eapply pool_known_resume; eauto.
    + eapply pool_distinct_resume; eauto.
    + congruence.
  - (* WakeMonitor *)
    destruct (extract (holdsMonitorToken token) (monitors w))
      as [[m others]|] eqn:Hextract; [|now constructor].
    pose proof (wake_connection m (connection w)) as Hsame.
    pose proof (fun y => wake_token m y (connection w)) as Hkey.
    destruct (DiscordConnection.wake m (connection w)) as [[c continued] effects].
    cbn in Hsame, Hkey. subst c. cbn.
    constructor; cbn; auto.
    + eapply pool_known_resume; eauto.
    + eapply pool_distinct_resume; eauto.
  - (* SocketChanged *)
    constructor; cbn; auto.
  - constructor; cbn; auto.
  - constructor; cbn; auto.
  - constructor; cbn; auto.
  - (* Elapse *)
    constructor; cbn; auto.
Qed.

Lemma run_coherent (events : list Event) (w : World) :
  Coherent w -> Coherent (run events w).
Proof.
  revert w. induction events as [|e events IH]; intros w Hw; cbn; trivial.
  apply IH. now apply step_coherent.
Qed.


Lemma extract_In {A : Type} (p : A -> bool) (pool : list A) (x : A) (others : list A) :
  extract p pool = Some (x, others) ->
  In x pool /\ p x = true /\ forall y, In y others -> In y pool.
Proof.
  intros H. destruct (extract_split _ _ _ _ H) as (before & after & -> & -> & Hx).
  repeat split; trivial.
  - apply in_elt.
  - intros y Hy. apply in_app_iff in Hy. apply in_app_iff. cbn. tauto.
Qed.

Lemma extract_none {A : Type} (p : A -> bool) (pool : list A) :
  extract p pool = None -> forall x, In x pool -> p x = false.
Proof.
  induction pool as [|y pool IH]; cbn; [tauto|].
  destruct (p y) eqn:Hy; [discriminate|].
  destruct (extract p pool) as [[z rest]|]; [discriminate|].
  intros _ x [<-|Hx]; auto.
Qed.

Lemma in_suspend {A : Type} (continued : option A) (pool : list A) (x : A) :
  In x (suspend continued pool) -> In x pool \/ continued = Some x.
Proof.
  destruct continued as [y|]; cbn; [|tauto].
  intros H. apply in_app_iff in H as [H|[<-|[]]]; auto.
Qed.

(** ** Superseded connect loops *)

Lemma step_supersededAttempt (token : Symbol) (e : Event) (w : World) :
  supersededAttempt token w -> supersededAttempt token (fst (step e w)).
Proof.
  intros (Hknown & Hdiffers & Hwaiting).
  destruct e; cbn [step].
  - (* Connect *)
    unfold DiscordConnection.connect, DiscordConnection.internalConnect,
      DiscordSocket.connect; cbn.
    destruct (DiscordConnection.connecting_ (connection w)); cbn.
    + now repeat split.
    + destruct (DiscordSocket.connectionToken_
                  (DiscordConnection.socket_ (connection w))) eqn:Hstored; cbn.
      * repeat split; cbn; trivial. now rewrite Hstored.
      * repeat split; cbn; [lia | now apply differs_fresh |].
        intros a Ha Htoken. apply in_app_iff in Ha as [Ha|[<-|[]]]; auto.
        cbn in Htoken. lia.
  - (* Disconnect *)
    unfold DiscordConnection.disconnect, DiscordSocket.disconnect; cbn.
    destruct (DiscordSocket.disposed_ (DiscordConnection.socket_ (connection w)));
      cbn; now repeat split.
  - (* SendOpcodeMessage *)
    pose proof (sendOpcodeMessage_connection m (connection w)) as Hsame.
    destruct (DiscordConnection.sendOpcodeMessage m (connection w))
      as [[promise c] effects].
    cbn in Hsame. subst c. cbn. rewrite withConnection_same. now repeat split.
  - (* HeartbeatMonitor *)
    unfold DiscordConnection.heartbeatMonitor.
    destruct (DiscordConnection.unwilling _); cbn; repeat split; cbn; auto.
  - now repeat split.
  - now repeat split.
  - now repeat split.
  - (* OnMessage *)
    unfold DiscordConnection.onMessage.
    destruct (Gateway.op message =? DiscordConnection.kOpcodeHeartbeat).
    { pose proof (sendOpcodeMessage_connection
                    (DiscordConnection.onlyOp DiscordConnection.kOpcodeHeartbeatAck)
                    (connection w)) as Hsame.
      destruct (DiscordConnection.sendOpcodeMessage _ (connection w))
        as [[promise c] effects].
      cbn in Hsame. subst c. cbn.
      destruct (Gateway.op message =? DiscordConnection.kOpcodeHello);
        repeat split; cbn; auto. }
    destruct (Gateway.op message =? DiscordConnection.kOpcodeHeartbeatAck).
    { cbn. destruct (Gateway.op message =? DiscordConnection.kOpcodeHello);
        repeat split; cbn; auto. }
    destruct (Gateway.op message =? DiscordConnection.kOpcodeHello).
    { unfold DiscordConnection.heartbeatMonitor, DiscordConnection.identify.
      destruct (DiscordConnection.unwilling _); cbn; repeat split; cbn; auto. }
    cbn. now repeat split.
  - (* ResumeConnect *)
    destruct (extract (holdsConnectionToken token0) (attempts w))
      as [[a others]|] eqn:Hextract; [|now repeat split].
    destruct (extract_In _ _ _ _ Hextract) as (Ha & _ & Hothers).
    pose proof (fun y => resume_token a y connected
                  (DiscordConnection.socket_ (connection w))) as Hkey.
    pose proof (resume_connectionToken a connected
                  (DiscordConnection.socket_ (connection w))) as Hstored.
    pose proof (resume_superseded_initial a connected
                  (DiscordConnection.socket_ (connection w))) as Hends.
    destruct (DiscordSocket.resume a connected _) as [[sock continued] effects].
    cbn in Hkey, Hstored. cbn.
    repeat split; cbn; trivial.
    + destruct Hstored as [-> | ->]; trivial.
    + intros y Hy Htoken. apply in_suspend in Hy as [Hy|Hy]; [now auto|].
      subst continued. specialize (Hkey y eq_refl).
      rewrite Htoken in Hkey. symmetry in Hkey.
      destruct (Hwaiting a Ha Hkey) as [ms Hms].
      rewrite Hkey in Hends. specialize (Hends ms Hms Hdiffers).
      discriminate Hends.
  - (* WakeMonitor *)
    destruct (extract (holdsMonitorToken token0) (monitors w))
      as [[m others]|]; [|now repeat split].
    pose proof (wake_connection m (connection w)) as Hsame.
    destruct (DiscordConnection.wake m (connection w)) as [[c continued] effects].
    cbn in Hsame. subst c. cbn. now repeat split.
  - now repeat split.
  - now repeat split.
  - now repeat split.
  - now repeat split.
  - now repeat split.
Qed.

Lemma run_supersededAttempt (token : Symbol) (events : list Event) (w : World) :
  supersededAttempt token w -> supersededAttempt token (run events w).
Proof.
  revert w. induction events as [|e events IH]; intros w Hw; cbn; trivial.
  apply IH. now apply step_supersededAttempt.
Qed.

Lemma supersededAttempt_resume (token : Symbol) (connected : bool) (w : World) :
  supersededAttempt token w ->
  snd (step (ResumeConnect token connected) w) = [].
Proof.
  intros (_ & Hdiffers & Hwaiting). cbn [step].
  destruct (extract (holdsConnectionToken token) (attempts w))
    as [[a others]|] eqn:Hextract; [|reflexivity].
  destruct (extract_In _ _ _ _ Hextract) as (Ha & Hholds & _).
  apply Nat.eqb_eq in Hholds.
  destruct (Hwaiting a Ha Hholds) as [ms Hms].
  rewrite <- Hholds in Hdiffers.
  now rewrite (resume_superseded_initial a connected _ ms Hms Hdiffers).
Qed.

Lemma disconnect_supersedes (a : DiscordSocket.Attempt) (ms : Z) (w : World) :
  Coherent w ->
  In a (attempts w) ->
  DiscordSocket.suspended a = DiscordSocket.InitialWait ms ->
  supersededAttempt (DiscordSocket.connectionToken a) (fst (step Disconnect w)).
Proof.
  intros Hw Ha Hms. cbn [step].
  unfold DiscordConnection.disconnect, DiscordSocket.disconnect; cbn.
  rewrite (socketInUse w Hw); cbn.
  repeat split; cbn.
  - pose proof (attemptsKnown w Hw) as Hknown.
    rewrite Forall_forall in Hknown. now apply Hknown.
  - intros a' Ha' Htoken. exists ms.
    now rewrite (pool_distinct_unique DiscordSocket.connectionToken
                   (attempts w) a' a (attemptsDistinct w Hw) Ha' Ha Htoken).
Qed.

(** C4: take a connect loop that is suspended on its initial back-off wait
    and call disconnect().  Whatever happens afterwards, and whenever that
    loop is resumed, the resumption has no effect at all; in particular it
    never calls open() on the raw socket.  On the socket alone the same holds
    in every state, disposed or not: resumed right after the socket's
    disconnect(), the loop ends without an effect. *)
Theorem disconnect_during_initial_wait_prevents_open
    (configuration : DiscordConnection.Configuration) (policy : BackoffPolicy.t)
    (before after : list Event) (a : DiscordSocket.Attempt) (ms : Z)
    (connected : bool) :
  let w := run before (boot configuration policy) in
  In a (attempts w) ->
  DiscordSocket.suspended a = DiscordSocket.InitialWait ms ->
  let later := run after (fst (step Disconnect w)) in
  let effects :=
    snd (step (ResumeConnect (DiscordSocket.connectionToken a) connected) later) in
  effects = [] /\
  forallb (fun e => negb (isSocketOpen e)) effects = true /\
  forall sock,
    DiscordSocket.resume a connected (snd (fst (DiscordSocket.disconnect sock)))
    = (DiscordSocket.withBackoffPolicy
         (BackoffPolicy.resetToIdle (DiscordSocket.backoffPolicy_ sock))
         (snd (fst (DiscordSocket.disconnect sock))),
       None, []).
Proof.
  intros w Ha Hms later effects.
  assert (effects = []) as ->.
  { apply supersededAttempt_resume, run_supersededAttempt.
    eapply disconnect_supersedes; eauto.
    apply run_coherent, boot_coherent. }
  split; [reflexivity | split; [reflexivity|]].
  intros sock. unfold DiscordSocket.resume, DiscordSocket.disconnect.
  rewrite Hms.
  destruct (DiscordSocket.disposed_ sock) eqn:Hdisposed; cbn.
  - rewrite Hdisposed. now rewrite orb_true_r.
  - reflexivity.
Qed.

Lemma disconnect_during_initial_wait_prevents_open_witness :
  let a := {| DiscordSocket.connectionToken := 0%nat;
              DiscordSocket.endpoint := "wss://gateway.example/v1";
              DiscordSocket.attempt := 0;
              DiscordSocket.suspended := DiscordSocket.InitialWait 0 |} in
  attempts (run [Connect; Elapse 5] sampleWorld) = [a] /\
  trace [Disconnect; Elapse 1000; ResumeConnect 0%nat true]
        (run [Connect; Elapse 5] sampleWorld) = [] /\
  snd (step (ResumeConnect 0%nat true)
         (run [Connect; OnConnectionEstablished]
            (fst (step Disconnect (run [Connect; Elapse 5] sampleWorld)))))
  = [].
Proof.
  split; [reflexivity|]. split; [reflexivity|].
  apply (disconnect_during_initial_wait_prevents_open
           sampleConfiguration samplePolicy [Connect; Elapse 5]
           [Connect; OnConnectionEstablished]
           {| DiscordSocket.connectionToken := 0%nat;
              DiscordSocket.endpoint := "wss://gateway.example/v1";
              DiscordSocket.attempt := 0;
              DiscordSocket.suspended := DiscordSocket.InitialWait 0 |}
           0 true).
  - left. reflexivity.
  - reflexivity.
Defined.

(** ** Superseded heartbeat monitors *)

Lemma step_supersededMonitor (token : Symbol) (e : Event) (w : World) :
  supersededMonitor token w -> supersededMonitor token (fst (step e w)).
Proof.
  intros (Hknown & Hdiffers).
  destruct e; cbn [step].
  - destruct (DiscordConnection.connect (symbols w) (connection w))
      as [[[promise c] started] effects] eqn:Hconnect.
    assert (DiscordConnection.heartbeatMonitorToken_ c
            = DiscordConnection.heartbeatMonitorToken_ (connection w)) as Hsame.
    { revert Hconnect.
      unfold DiscordConnection.connect, DiscordConnection.internalConnect,
        DiscordSocket.connect; cbn.
      destruct (DiscordConnection.connecting_ (connection w)); cbn.
      - now intros [= <- <- <- <-].
      - destruct (DiscordSocket.connectionToken_ _); now intros [= <- <- <- <-]. }
    split; cbn; [destruct started; lia | now rewrite Hsame].
  - pose proof (disconnect_heartbeatMonitorToken (connection w)) as Hsame.
    destruct (DiscordConnection.disconnect (connection w)) as [[promise c] effects].
    cbn in Hsame. split; cbn; [trivial | now rewrite Hsame].
  - pose proof (sendOpcodeMessage_connection m (connection w)) as Hsame.
    destruct (DiscordConnection.sendOpcodeMessage m (connection w))
      as [[promise c] effects].
    cbn in Hsame. subst c. now split.
  - unfold DiscordConnection.heartbeatMonitor.
    destruct (DiscordConnection.unwilling _); cbn; split; cbn;
      try lia; now apply differs_fresh.
  - now split.
  - now split.
  - now split.
  - unfold DiscordConnection.onMessage.
    destruct (Gateway.op message =? DiscordConnection.kOpcodeHeartbeat).
    { pose proof (sendOpcodeMessage_connection
                    (DiscordConnection.onlyOp DiscordConnection.kOpcodeHeartbeatAck)
                    (connection w)) as Hsame.
      destruct (DiscordConnection.sendOpcodeMessage _ (connection w))
        as [[promise c] effects].
      cbn in Hsame. subst c. cbn.
      destruct (Gateway.op message =? DiscordConnection.kOpcodeHello);
        split; cbn; auto. }
    destruct (Gateway.op message =? DiscordConnection.kOpcodeHeartbeatAck).
    { cbn. destruct (Gateway.op message =? DiscordConnection.kOpcodeHello);
        split; cbn; auto. }
    destruct (Gateway.op message =? DiscordConnection.kOpcodeHello).
    { unfold DiscordConnection.heartbeatMonitor, DiscordConnection.identify.
      destruct (DiscordConnection.unwilling _); cbn; split; cbn;
        try lia; now apply differs_fresh. }
    cbn. now split.
  - destruct (extract (holdsConnectionToken token0) (attempts w))
      as [[a others]|]; [|now split].
    destruct (DiscordSocket.resume a connected _) as [[sock continued] effects].
    now split.
  - destruct (extract (holdsMonitorToken token0) (monitors w))
      as [[m others]|]; [|now split].
    pose proof (wake_connection m (connection w)) as Hsame.
    destruct (DiscordConnection.wake m (connection w)) as [[c continued] effects].
    cbn in Hsame. subst c. now split.
  - now split.
  - now split.
  - now split.
  - now split.
  - now split.
Qed.

Lemma run_supersededMonitor (token : Symbol) (events : list Event) (w : World) :
  supersededMonitor token w -> supersededMonitor token (run events w).
Proof.
  revert w. induction events as [|e events IH]; intros w Hw; cbn; trivial.
  apply IH. now apply step_supersededMonitor.
Qed.

Lemma supersededMonitor_exitsSilently (token : Symbol) (w : World) :
  Coherent w -> supersededMonitor token w -> exitsSilently token w.
Proof.
  intros Hw (_ & Hdiffers). unfold exitsSilently. cbn [step].
  destruct (extract (holdsMonitorToken token) (monitors w))
    as [[m others]|] eqn:Hextract.
  - destruct (extract_In _ _ _ _ Hextract) as (Hm & Hholds & _).
    apply Nat.eqb_eq in Hholds.
    rewrite <- Hholds in Hdiffers.
    rewrite (wake_superseded m (connection w) Hdiffers). cbn.
    repeat split. intros m' Hm'. rewrite <- Hholds.
    exact (pool_distinct_extracted DiscordConnection.heartbeatMonitorToken
             _ _ _ _ _ (monitorsDistinct w Hw) Hextract Hm').
  - cbn. repeat split. intros m Hm Htoken.
    pose proof (extract_none _ _ Hextract m Hm) as Hholds.
    apply Nat.eqb_neq in Hholds. contradiction.
Qed.

Lemma startsMonitor_supersedes (e : Event) (w : World) :
  startsMonitor e = true ->
  DiscordConnection.heartbeatMonitorToken_ (connection (fst (step e w)))
    = Some (symbols w) /\
  symbols (fst (step e w)) = S (symbols w).
Proof.
  destruct e; try discriminate; cbn [startsMonitor step].
  - intros _. unfold DiscordConnection.heartbeatMonitor.
    now destruct (DiscordConnection.unwilling _).
  - intros Hhello. unfold DiscordConnection.onMessage. rewrite Hhello.
    apply Z.eqb_eq in Hhello.
    replace (Gateway.op message =? DiscordConnection.kOpcodeHeartbeat) with false
      by (symmetry; apply Z.eqb_neq; rewrite Hhello; discriminate).
    replace (Gateway.op message =? DiscordConnection.kOpcodeHeartbeatAck) with false
      by (symmetry; apply Z.eqb_neq; rewrite Hhello; discriminate).
    unfold DiscordConnection.heartbeatMonitor, DiscordConnection.identify.
    now destruct (DiscordConnection.unwilling _).
Qed.

(** C10: a run of heartbeatMonitor() - called as such or through a Hello -
    stores a new token whether or not it goes on to throw.  Every monitor
    that was suspended at that moment is superseded from then on: whatever
    happens next, its wake-up has no effect, leaves the connection as it is,
    and ends the monitor. *)
Theorem heartbeatMonitor_retires_earlier_monitors
    (configuration : DiscordConnection.Configuration) (policy : BackoffPolicy.t)
    (before after : list Event) (e : Event) (old : DiscordConnection.Monitor) :
  let w := run before (boot configuration policy) in
  startsMonitor e = true ->
  In old (monitors w) ->
  DiscordConnection.heartbeatMonitorToken_ (connection (fst (step e w)))
    = Some (symbols w) /\
  DiscordConnection.heartbeatMonitorToken old <> symbols w /\
  exitsSilently (DiscordConnection.heartbeatMonitorToken old)
    (run after (fst (step e w))).
Proof.
  intros w Hstarts Hold.
  assert (Coherent w) as Hw by apply run_coherent, boot_coherent.
  destruct (startsMonitor_supersedes e w Hstarts) as [Hstored Hsymbols].
  assert (DiscordConnection.heartbeatMonitorToken old < symbols w)%nat as Hknown.
  { pose proof (monitorsKnown w Hw) as H. rewrite Forall_forall in H. now apply H. }
  split; [exact Hstored | split; [lia|]].
  apply supersededMonitor_exitsSilently.
  - now apply run_coherent, step_coherent.
  - apply run_supersededMonitor. split.
    + rewrite Hsymbols. lia.
    + rewrite Hstored. now apply differs_fresh.
Qed.

Lemma heartbeatMonitor_retires_earlier_monitors_witness :
  let w := run [OnConnectionEstablished; OnMessage (hello 41250)] sampleWorld in
  let rejected := step (OnMessage (hello 5000)) w in
  monitors w = [{| DiscordConnection.heartbeatMonitorToken := 0%nat;
                   DiscordConnection.sleepMs := Some 41250 |}] /\
  snd rejected
    = [Uncaught "Unwilling to start the Discord monitor: interval too low."] /\
  DiscordConnection.heartbeatMonitorToken_ (connection (fst rejected)) = Some 1%nat /\
  exitsSilently 0%nat (run [Elapse 41250] (fst rejected)).
Proof.
  split; [reflexivity|]. split; [reflexivity|].
  destruct (heartbeatMonitor_retires_earlier_monitors
              sampleConfiguration samplePolicy
              [OnConnectionEstablished; OnMessage (hello 41250)] [Elapse 41250]
              (OnMessage (hello 5000))
              {| DiscordConnection.heartbeatMonitorToken := 0%nat;
                 DiscordConnection.sleepMs := Some 41250 |}
              eq_refl (or_introl eq_refl))
    as (Hstored & _ & Hexits).
  split; [exact Hstored | exact Hexits].
Defined.

(** ** Heartbeats and the Hello before them *)










(** Where the code falls short of C2's floor: heartbeatMonitor() checks the
    interval when it starts (line 170), but the loop reads
    [#heartbeatIntervalMs_] again at every wait (line 174), and
    onConnectionEstablished() clears that field (line 117) without retiring
    the monitor.  A monitor started by a Hello with 41250 ms, on a connection
    that is then established again, writes a Heartbeat at its next wake-up,
    goes back to sleep on [wait(null)], and from there on writes a Heartbeat
    at every wake-up with no interval at all. *)
Lemma heartbeat_monitor_waits_on_cleared_interval (k : nat) :
  let w := run [OnConnectionEstablished; OnMessage (hello 41250);
                OnConnectionEstablished] sampleWorld in
  let woken := fst (step (WakeMonitor 0%nat) w) in
  DiscordConnection.heartbeatIntervalMs_ (connection w) = None /\
  DiscordConnection.heartbeatMonitorToken_ (connection w) = Some 0%nat /\
  snd (step (WakeMonitor 0%nat) w) = [WriteCall heartbeat] /\
  monitors woken
  = [{| DiscordConnection.heartbeatMonitorToken := 0%nat;
        DiscordConnection.sleepMs := None |}] /\
  run (repeat (WakeMonitor 0%nat) k) woken = woken /\
  trace (repeat (WakeMonitor 0%nat) k) woken = repeat (WriteCall heartbeat) k.
Proof.
  cbv zeta. do 4 (split; [reflexivity|]).
  set (woken := fst (step (WakeMonitor 0%nat) _)).
  assert (step (WakeMonitor 0%nat) woken = (woken, [WriteCall heartbeat]))
    as Hagain by reflexivity.
  induction k as [|k [IHrun IHtrace]]; [now split|].
  cbn [repeat run trace]. rewrite Hagain. cbn [fst snd].
  split; [exact IHrun | now rewrite IHtrace].
Qed.

(** ** One connect loop at a time *)

Lemma differs_false (stored : option Symbol) (token : Symbol) :
  differs stored token = false -> stored = Some token.
Proof.
  destruct stored as [held|]; cbn; [|discriminate].
  intros H. apply negb_false_iff, Nat.eqb_eq in H. now subst.
Qed.

Lemma active_at_most_one (stored : option Symbol) (pool : list DiscordSocket.Attempt) :
  NoDup (map DiscordSocket.connectionToken pool) ->
  (List.length
     (filter (fun a => negb (differs stored (DiscordSocket.connectionToken a))) pool)
   <= 1)%nat.
Proof.
  induction pool as [|a pool IH]; cbn; [lia|].
  intros Hdistinct. inversion Hdistinct as [|? ? Ha Hrest]; subst.
  specialize (IH Hrest).
  destruct (differs stored (DiscordSocket.connectionToken a)) eqn:Hdiffers; cbn;
    [exact IH|].
  apply differs_false in Hdiffers.
  assert (filter
            (fun a' => negb (differs stored (DiscordSocket.connectionToken a')))
            pool = []) as ->; [|cbn; lia].
  clear IH Hrest Hdistinct.
  induction pool as [|b pool IH]; cbn; trivial.
  destruct (differs stored (DiscordSocket.connectionToken b)) eqn:Hb; cbn.
  - apply IH. intros H. apply Ha. now right.
  - apply differs_false in Hb. exfalso. apply Ha. left. congruence.
Qed.

Lemma step_soleAttempt (e : Event) (w : World) :
  Coherent w ->
  isDisconnect e = false ->
  soleAttempt w -> soleAttempt (fst (step e w)).
Proof.
  intros Hw He Hsole.
  destruct e; try discriminate He; cbn [step].
  - (* Connect *)
    unfold DiscordConnection.connect, DiscordConnection.internalConnect,
      DiscordSocket.connect; cbn.
    destruct (DiscordConnection.connecting_ (connection w)); cbn; trivial.
    destruct (DiscordSocket.connectionToken_
                (DiscordConnection.socket_ (connection w))) eqn:Hstored; cbn.
    + exact Hsole.
    + destruct Hsole as [Hnone | (a & _ & Hsome)]; [|congruence].
      right. unfold soleAttempt. cbn. rewrite Hnone. cbn. eauto.
  - (* SendOpcodeMessage *)
    pose proof (sendOpcodeMessage_connection m (connection w)) as Hsame.
    destruct (DiscordConnection.sendOpcodeMessage m (connection w))
      as [[promise c] effects].
    cbn in Hsame. subst c. cbn. now rewrite withConnection_same.
  - unfold DiscordConnection.heartbeatMonitor.
    now destruct (DiscordConnection.unwilling _).
  - exact Hsole.
  - exact Hsole.
  - exact Hsole.
  - (* OnMessage *)
    unfold DiscordConnection.onMessage.
    destruct (Gateway.op message =? DiscordConnection.kOpcodeHeartbeat).
    { pose proof (sendOpcodeMessage_connection
                    (DiscordConnection.onlyOp DiscordConnection.kOpcodeHeartbeatAck)
                    (connection w)) as Hsame.
      destruct (DiscordConnection.sendOpcodeMessage _ (connection w))
        as [[promise c] effects].
      cbn in Hsame. subst c. exact Hsole. }
    destruct (Gateway.op message =? DiscordConnection.kOpcodeHeartbeatAck);
      [exact Hsole|].
    destruct (Gateway.op message =? DiscordConnection.kOpcodeHello); [|exact Hsole].
    unfold DiscordConnection.heartbeatMonitor, DiscordConnection.identify.
    now destruct (DiscordConnection.unwilling _).
  - (* ResumeConnect *)
    destruct Hsole as [Hnone | (a & Hone & Hstored)].
    + rewrite Hnone. cbn. now left.
    + rewrite Hone. cbn [extract].
      destruct (holdsConnectionToken token a); [|right; cbn; eauto].
      unfold DiscordSocket.resume.
      rewrite Hstored, differs_refl, (socketInUse w Hw).
      destruct (DiscordSocket.suspended a), connected; cbn;
        solve [now left | right; unfold soleAttempt; cbn; eauto].
  - (* WakeMonitor *)
    destruct (extract (holdsMonitorToken token) (monitors w))
      as [[m others]|]; [|exact Hsole].
    pose proof (wake_connection m (connection w)) as Hsame.
    destruct (DiscordConnection.wake m (connection w)) as [[c continued] effects].
    cbn in Hsame. subst c. exact Hsole.
  - exact Hsole.
  - exact Hsole.
  - exact Hsole.
  - exact Hsole.
  - exact Hsole.
Qed.

Lemma run_soleAttempt (events : list Event) (w : World) :
  Coherent w ->
  withoutDisconnect events = true ->
  soleAttempt w -> soleAttempt (run events w).
Proof.
  revert w. induction events as [|e events IH]; intros w Hw Hevents Hsole; cbn;
    trivial.
  cbn in Hevents. apply andb_true_iff in Hevents as [He Hevents].
  apply negb_true_iff in He.
  apply IH; trivial.
  - now apply step_coherent.
  - now apply step_soleAttempt.
Qed.

Lemma connect_while_connecting (w : World) :
  DiscordConnection.connecting_ (connection w) = true ->
  DiscordConnection.connect_ (connection w) = true ->
  step Connect w = (w, []).
Proof.
  intros Hconnecting Hconnect. cbn [step]. unfold DiscordConnection.connect. cbn.
  rewrite Hconnecting. cbn.
  destruct w as [time supply c pool sleepers].
  destruct c as [configuration intent connected connecting ack interval token sock].
  cbn in *. now subst.
Qed.

Lemma connect_sets_flags (w : World) :
  DiscordConnection.connecting_ (connection (fst (step Connect w))) = true /\
  DiscordConnection.connect_ (connection (fst (step Connect w))) = true.
Proof.
  cbn [step].
  unfold DiscordConnection.connect, DiscordConnection.internalConnect,
    DiscordSocket.connect; cbn.
  destruct (DiscordConnection.connecting_ (connection w)) eqn:Hconnecting; cbn.
  - now split.
  - now destruct (DiscordSocket.connectionToken_ _).
Qed.

(** C3: at any time at most one connect loop holds the token that the socket
    stores, and as long as disconnect() is not called at most one connect
    loop is suspended at all.  A connect() while the connection is
    connecting changes nothing and has no effect; in particular the second
    of two connect() calls in a row. *)
Theorem connect_twice_starts_one_loop
    (configuration : DiscordConnection.Configuration) (policy : BackoffPolicy.t)
    (events : list Event) :
  let w := run events (boot configuration policy) in
  (List.length (activeAttempts w) <= 1)%nat /\
  (withoutDisconnect events = true -> (List.length (attempts w) <= 1)%nat) /\
  (DiscordConnection.connecting_ (connection w) = true -> step Connect w = (w, [])) /\
  step Connect (fst (step Connect w)) = (fst (step Connect w), []).
Proof.
  intros w.
  assert (Coherent w) as Hw by apply run_coherent, boot_coherent.
  split; [|split; [|split]].
  - apply active_at_most_one, (attemptsDistinct w Hw).
  - intros Hevents.
    assert (soleAttempt w) as [Hnone | (a & Hone & _)].
    { apply run_soleAttempt; trivial; [apply boot_coherent | now left]. }
    + rewrite Hnone. cbn. lia.
    + rewrite Hone. cbn. lia.
  - intros Hconnecting. apply connect_while_connecting; trivial.
    now apply (connectingIsIntended w Hw).
  - apply connect_while_connecting; apply connect_sets_flags.
Qed.

Lemma connect_twice_starts_one_loop_witness :
  let events := [Connect; ResumeConnect 0%nat false; ResumeConnect 0%nat false;
                 Connect; ResumeConnect 0%nat false] in
  let w := run events sampleWorld in
  withoutDisconnect events = true /\
  DiscordConnection.connecting_ (connection w) = true /\
  attempts w
    = [{| DiscordSocket.connectionToken := 0%nat;
          DiscordSocket.endpoint := "wss://gateway.example/v1";
          DiscordSocket.attempt := 1;
          DiscordSocket.suspended := DiscordSocket.Opening |}] /\
  (List.length (attempts w) <= 1)%nat /\
  step Connect w = (w, []).
Proof.
  destruct (connect_twice_starts_one_loop sampleConfiguration samplePolicy
              [Connect; ResumeConnect 0%nat false; ResumeConnect 0%nat false;
               Connect; ResumeConnect 0%nat false])
    as (_ & Hone & Hnothing & _).
  split; [reflexivity|]. split; [reflexivity|]. split; [reflexivity|].
  split; [apply Hone | apply Hnothing]; reflexivity.
Defined.

(** ** Beyond the claims: superseded connect loops at any await *)

Lemma step_staleAttempt (token : Symbol) (e : Event) (w : World) :
  staleAttempt token w -> staleAttempt token (fst (step e w)).
Proof.
  intros (Hknown & Hdiffers).
  destruct e; cbn [step].
  - unfold DiscordConnection.connect, DiscordConnection.internalConnect,
      DiscordSocket.connect; cbn.
    destruct (DiscordConnection.connecting_ (connection w)); cbn.
    + now split.
    + destruct (DiscordSocket.connectionToken_
                  (DiscordConnection.socket_ (connection w))) eqn:Hstored; cbn.
      * split; cbn; trivial. now rewrite Hstored.
      * split; cbn; [lia | now apply differs_fresh].
  - unfold DiscordConnection.disconnect, DiscordSocket.disconnect; cbn.
    destruct (DiscordSocket.disposed_ (DiscordConnection.socket_ (connection w)));
      cbn; now split.
  - pose proof (sendOpcodeMessage_connection m (connection w)) as Hsame.
    destruct (DiscordConnection.sendOpcodeMessage m (connection w))
      as [[promise c] effects].
    cbn in Hsame. subst c. cbn. rewrite withConnection_same. now split.
  - unfold DiscordConnection.heartbeatMonitor.
    destruct (DiscordConnection.unwilling _); cbn; split; cbn; auto.
  - now split.
  - now split.
  - now split.
  - unfold DiscordConnection.onMessage.
    destruct (Gateway.op message =? DiscordConnection.kOpcodeHeartbeat).
    { pose proof (sendOpcodeMessage_connection
                    (DiscordConnection.onlyOp DiscordConnection.kOpcodeHeartbeatAck)
                    (connection w)) as Hsame.
      destruct (DiscordConnection.sendOpcodeMessage _ (connection w))
        as [[promise c] effects].
      cbn in Hsame. subst c. cbn.
      destruct (Gateway.op message =? DiscordConnection.kOpcodeHello);
        split; cbn; auto. }
    destruct (Gateway.op message =? DiscordConnection.kOpcodeHeartbeatAck).
    { cbn. destruct (Gateway.op message =? DiscordConnection.kOpcodeHello);
        split; cbn; auto. }
    destruct (Gateway.op message =? DiscordConnection.kOpcodeHello).
    { unfold DiscordConnection.heartbeatMonitor, DiscordConnection.identify.
      destruct (DiscordConnection.unwilling _); cbn; split; cbn; auto. }
    cbn. now split.
  - destruct (extract (holdsConnectionToken token0) (attempts w))
      as [[a others]|]; [|now split].
    pose proof (resume_connectionToken a connected
                  (DiscordConnection.socket_ (connection w))) as Hstored.
    destruct (DiscordSocket.resume a connected _) as [[sock continued] effects].
    cbn in Hstored. split; cbn; trivial.
    destruct Hstored as [-> | ->]; trivial.
  - destruct (extract (holdsMonitorToken token0) (monitors w))
      as [[m others]|]; [|now split].
    pose proof (wake_connection m (connection w)) as Hsame.
    destruct (DiscordConnection.wake m (connection w)) as [[c continued] effects].
    cbn in Hsame. subst c. now split.
  - now split.
  - now split.
  - now split.
  - now split.
  - now split.
Qed.

Lemma run_staleAttempt (token : Symbol) (events : list Event) (w : World) :
  staleAttempt token w -> staleAttempt token (run events w).
Proof.
  revert w. induction events as [|e events IH]; intros w Hw; cbn; trivial.
  apply IH. now apply step_staleAttempt.
Qed.

(** On a socket in use, a superseded loop ends at whichever await it is
    resumed from, and all it may change is the back-off policy. *)
Lemma resume_superseded (a : DiscordSocket.Attempt) (connected : bool)
    (sock : DiscordSocket.t) :
  differs (DiscordSocket.connectionToken_ sock) (DiscordSocket.connectionToken a) = true ->
  DiscordSocket.disposed_ sock = false ->
  exists policy,
    DiscordSocket.resume a connected sock
    = (DiscordSocket.withBackoffPolicy policy sock, None, []).
Proof.
  intros Hdiffers Hdisposed. unfold DiscordSocket.resume.
  rewrite Hdiffers, Hdisposed.
  destruct (DiscordSocket.suspended a); cbn.
  - eauto.
  - rewrite andb_false_r. eauto.
  - eauto.
Qed.

(** X1: disconnect() stops every connect loop that is suspended at that
    moment, wherever it is suspended - on the initial wait, inside open() or
    on a retry wait.  As long as the connection is not disposed of, whatever
    else happens afterwards, resuming the loop has no effect, ends it, and
    leaves the stored token and the raw socket's state as they are.  When
    the connection has been disposed of in the meantime - its dispose() calls
    the socket's disconnect() and then its dispose() - a loop that is resumed
    ends as well and opens nothing, whatever the back-off policy and the raw
    socket's state are by then; its one possible effect is the close() of a
    raw socket whose open() has just succeeded. *)
Theorem disconnect_stops_every_loop
    (configuration : DiscordConnection.Configuration) (policy : BackoffPolicy.t)
    (before after : list Event) (a : DiscordSocket.Attempt) (connected : bool) :
  let w := run before (boot configuration policy) in
  In a (attempts w) ->
  let later := run after (fst (step Disconnect w)) in
  let result :=
    step (ResumeConnect (DiscordSocket.connectionToken a) connected) later in
  snd result = [] /\
  (forall a',
     In a' (attempts (fst result)) ->
     DiscordSocket.connectionToken a' <> DiscordSocket.connectionToken a) /\
  DiscordSocket.connectionToken_ (DiscordConnection.socket_ (connection (fst result)))
  = DiscordSocket.connectionToken_ (DiscordConnection.socket_ (connection later)) /\
  DiscordSocket.state (DiscordConnection.socket_ (connection (fst result)))
  = DiscordSocket.state (DiscordConnection.socket_ (connection later)) /\
  (forall x policy' st,
     In x (attempts later) ->
     let disposed :=
       DiscordSocket.withBackoffPolicy policy'
         (DiscordSocket.withSocket st
            (released (DiscordConnection.socket_ (connection later)))) in
     snd (fst (DiscordSocket.resume x connected disposed)) = None /\
     snd (DiscordSocket.resume x connected disposed)
     = match DiscordSocket.suspended x with
       | DiscordSocket.Opening => if connected then [SocketClose] else []
       | _ => []
       end).
Proof.
  intros w Ha later result.
  assert (Coherent w) as Hw by apply run_coherent, boot_coherent.
  assert (Coherent later) as Hlater by now apply run_coherent, step_coherent.
  assert (forall x policy' st,
            In x (attempts later) ->
            let disposed :=
              DiscordSocket.withBackoffPolicy policy'
                (DiscordSocket.withSocket st
                   (released (DiscordConnection.socket_ (connection later)))) in
            snd (fst (DiscordSocket.resume x connected disposed)) = None /\
            snd (DiscordSocket.resume x connected disposed)
            = match DiscordSocket.suspended x with
              | DiscordSocket.Opening => if connected then [SocketClose] else []
              | _ => []
              end) as Hdisposed.
  { intros x policy' st _.
    unfold released, DiscordSocket.disconnect, DiscordSocket.resume.
    rewrite (socketInUse later Hlater). cbn.
    destruct (DiscordSocket.suspended x), connected; cbn; auto. }
  assert (staleAttempt (DiscordSocket.connectionToken a) later) as (_ & Hdiffers).
  { apply run_staleAttempt.
    pose proof (attemptsKnown w Hw) as Hknown.
    rewrite Forall_forall in Hknown. specialize (Hknown a Ha).
    unfold staleAttempt. cbn [step].
    unfold DiscordConnection.disconnect, DiscordSocket.disconnect. cbn.
    rewrite (socketInUse w Hw). cbn. now split. }
  subst result. cbn [step].
  destruct (extract (holdsConnectionToken (DiscordSocket.connectionToken a))
              (attempts later)) as [[x others]|] eqn:Hextract.
  - destruct (extract_In _ _ _ _ Hextract) as (Hx & Hholds & _).
    apply Nat.eqb_eq in Hholds. rewrite <- Hholds in Hdiffers.
    destruct (resume_superseded x connected _ Hdiffers (socketInUse later Hlater))
      as [policy' ->].
    cbn. split; [reflexivity|]. split;
      [|split; [reflexivity | split; [reflexivity | exact Hdisposed]]].
    intros a' Ha'. rewrite <- Hholds.
    exact (pool_distinct_extracted DiscordSocket.connectionToken
             _ _ _ _ _ (attemptsDistinct later Hlater) Hextract Ha').
  - cbn. split; [reflexivity|]. split;
      [|split; [reflexivity | split; [reflexivity | exact Hdisposed]]].
    intros a' Ha' Htoken.
    pose proof (extract_none _ _ Hextract a' Ha') as Hholds.
    apply Nat.eqb_neq in Hholds. contradiction.
Qed.

Lemma disconnect_stops_every_loop_witness :
  let w := run [Connect; ResumeConnect 0%nat false; ResumeConnect 0%nat false]
               sampleWorld in
  let later := run [Connect; Elapse 1000] (fst (step Disconnect w)) in
  let opening := {| DiscordSocket.connectionToken := 1%nat;
                    DiscordSocket.endpoint := "wss://gateway.example/v1";
                    DiscordSocket.attempt := 0;
                    DiscordSocket.suspended := DiscordSocket.Opening |} in
  attempts w
    = [{| DiscordSocket.connectionToken := 0%nat;
          DiscordSocket.endpoint := "wss://gateway.example/v1";
          DiscordSocket.attempt := 0;
          DiscordSocket.suspended := DiscordSocket.RetryWait 1200 |}] /\
  snd (step (ResumeConnect 0%nat true) later) = [] /\
  attempts (run [ResumeConnect 1%nat false] later)
    = [{| DiscordSocket.connectionToken := 0%nat;
          DiscordSocket.endpoint := "wss://gateway.example/v1";
          DiscordSocket.attempt := 0;
          DiscordSocket.suspended := DiscordSocket.RetryWait 1200 |};
       opening] /\
  snd (DiscordSocket.resume opening true
         (released
            (DiscordConnection.socket_
               (connection (run [ResumeConnect 1%nat false] later)))))
  = [SocketClose].
Proof.
  destruct (disconnect_stops_every_loop sampleConfiguration samplePolicy
              [Connect; ResumeConnect 0%nat false; ResumeConnect 0%nat false]
              [Connect; Elapse 1000]
              {| DiscordSocket.connectionToken := 0%nat;
                 DiscordSocket.endpoint := "wss://gateway.example/v1";
                 DiscordSocket.attempt := 0;
                 DiscordSocket.suspended := DiscordSocket.RetryWait 1200 |}
              true) as (Hquiet & _).
  { left. reflexivity. }
  destruct (disconnect_stops_every_loop sampleConfiguration samplePolicy
              [Connect; ResumeConnect 0%nat false; ResumeConnect 0%nat false]
              [Connect; Elapse 1000; ResumeConnect 1%nat false]
              {| DiscordSocket.connectionToken := 0%nat;
                 DiscordSocket.endpoint := "wss://gateway.example/v1";
                 DiscordSocket.attempt := 0;
                 DiscordSocket.suspended := DiscordSocket.RetryWait 1200 |}
              true) as (_ & _ & _ & _ & Hdisposed).
  { left. reflexivity. }
  split; [reflexivity|]. split; [exact Hquiet|]. split; [reflexivity|].
  exact (proj2
           (Hdisposed
              {| DiscordSocket.connectionToken := 1%nat;
                 DiscordSocket.endpoint := "wss://gateway.example/v1";
                 DiscordSocket.attempt := 0;
                 DiscordSocket.suspended := DiscordSocket.Opening |}
              samplePolicy DiscordSocket.kStateDisconnected
              (or_intror (or_introl eq_refl)))).
Defined.

(** ** Beyond the claims: the retry loop *)

Lemma step_open_failed (w : World) (a : DiscordSocket.Attempt) :
  attempts w = [a] ->
  DiscordSocket.suspended a = DiscordSocket.Opening ->
  DiscordSocket.connectionToken_ (DiscordConnection.socket_ (connection w))
    = Some (DiscordSocket.connectionToken a) ->
  let sock := DiscordConnection.socket_ (connection w) in
  let policy := BackoffPolicy.markRequestFailed (DiscordSocket.backoffPolicy_ sock) in
  let delay := BackoffPolicy.getTimeToNextRequestMs policy in
  step (ResumeConnect (DiscordSocket.connectionToken a) false) w
  = ({| clock := clock w;
        symbols := symbols w;
        connection :=
          DiscordConnection.withSocket
            (DiscordSocket.withBackoffPolicy policy sock) (connection w);
        attempts := [DiscordSocket.suspendAt (DiscordSocket.RetryWait delay) a];
        monitors := monitors w |},
     [ConsoleLog (LogFailed (DiscordSocket.endpoint a) (delay / 1000))]).
Proof.
  intros Hpool Hat Hstored. cbn [step].
  rewrite Hpool. cbn [extract]. unfold holdsConnectionToken.
  rewrite Nat.eqb_refl.
  unfold DiscordSocket.resume. rewrite Hat, Hstored, differs_refl.
  reflexivity.
Qed.

Lemma step_retry (w : World) (a : DiscordSocket.Attempt) (ms : Z) (connected : bool) :
  attempts w = [a] ->
  DiscordSocket.suspended a = DiscordSocket.RetryWait ms ->
  DiscordSocket.connectionToken_ (DiscordConnection.socket_ (connection w))
    = Some (DiscordSocket.connectionToken a) ->
  DiscordSocket.disposed_ (DiscordConnection.socket_ (connection w)) = false ->
  step (ResumeConnect (DiscordSocket.connectionToken a) connected) w
  = ({| clock := clock w;
        symbols := symbols w;
        connection := connection w;
        attempts :=
          [DiscordSocket.suspendAt DiscordSocket.Opening (DiscordSocket.nextAttempt a)];
        monitors := monitors w |},
     [ConsoleLog (LogConnecting (DiscordSocket.endpoint a));
      SocketOpen (DiscordSocket.endpoint a)]).
Proof.
  intros Hpool Hat Hstored Hdisposed. cbn [step].
  rewrite Hpool. cbn [extract]. unfold holdsConnectionToken.
  rewrite Nat.eqb_refl.
  unfold DiscordSocket.resume. rewrite Hat, Hstored, differs_refl, Hdisposed.
  cbn. now rewrite withSocket_same.
Qed.

Lemma step_open_succeeded (w : World) (a : DiscordSocket.Attempt) :
  attempts w = [a] ->
  DiscordSocket.suspended a = DiscordSocket.Opening ->
  DiscordSocket.connectionToken_ (DiscordConnection.socket_ (connection w))
    = Some (DiscordSocket.connectionToken a) ->
  let sock := DiscordConnection.socket_ (connection w) in
  step (ResumeConnect (DiscordSocket.connectionToken a) true) w
  = ({| clock := clock w;
        symbols := symbols w;
        connection :=
          DiscordConnection.withSocket
            (DiscordSocket.withConnectionToken None
               (DiscordSocket.withBackoffPolicy
                  (BackoffPolicy.markRequestSuccessful
                     (DiscordSocket.backoffPolicy_ sock)) sock))
            (connection w);
        attempts := [];
        monitors := monitors w |},
     [ConsoleLog (LogSucceeded (DiscordSocket.endpoint a))]).
Proof.
  intros Hpool Hat Hstored. cbn [step].
  rewrite Hpool. cbn [extract]. unfold holdsConnectionToken.
  rewrite Nat.eqb_refl.
  unfold DiscordSocket.resume. rewrite Hat, Hstored, differs_refl.
  reflexivity.
Qed.

Lemma failures_shift (k : nat) (p : BackoffPolicy.t) :
  BackoffPolicy.failures k (BackoffPolicy.markRequestFailed p)
  = BackoffPolicy.failures (S k) p.
Proof.
  unfold BackoffPolicy.failures. now rewrite Nat.iter_succ_r.
Qed.

Lemma flat_map_seq_shift {A : Type} (f : nat -> list A) (start k : nat) :
  flat_map f (seq (S start) k) = flat_map (fun i => f (S i)) (seq start k).
Proof.
  revert start. induction k as [|k IH]; intros start; cbn; trivial.
  now rewrite IH.
Qed.

Lemma failedRoundEffects_step (endpoint : string) (p : BackoffPolicy.t) (k : nat) :
  failedRoundEffects endpoint p (S k)
  = failedRoundEffects endpoint p 1
    ++ failedRoundEffects endpoint (BackoffPolicy.markRequestFailed p) k.
Proof.
  unfold failedRoundEffects.
  change (seq 0 (S k)) with (0%nat :: seq 1 k).
  cbn [flat_map seq app]. do 3 f_equal.
  rewrite flat_map_seq_shift.
  apply flat_map_ext. intros i. now rewrite failures_shift.
Qed.

Lemma trace_app (before after : list Event) (w : World) :
  trace (before ++ after) w = trace before w ++ trace after (run before w).
Proof.
  revert w. induction before as [|e before IH]; intros w; cbn; trivial.
  now rewrite IH, app_assoc.
Qed.

Lemma failed_rounds (k : nat) (w : World) (a : DiscordSocket.Attempt) :
  attempts w = [a] ->
  DiscordSocket.suspended a = DiscordSocket.Opening ->
  DiscordSocket.connectionToken_ (DiscordConnection.socket_ (connection w))
    = Some (DiscordSocket.connectionToken a) ->
  DiscordSocket.disposed_ (DiscordConnection.socket_ (connection w)) = false ->
  let rounds := failedRounds (DiscordSocket.connectionToken a) k in
  let sock := DiscordConnection.socket_ (connection w) in
  let sock' := DiscordConnection.socket_ (connection (run rounds w)) in
  attempts (run rounds w) = [afterRounds k a] /\
  DiscordSocket.backoffPolicy_ sock'
    = BackoffPolicy.failures k (DiscordSocket.backoffPolicy_ sock) /\
  DiscordSocket.connectionToken_ sock' = Some (DiscordSocket.connectionToken a) /\
  trace rounds w
    = failedRoundEffects (DiscordSocket.endpoint a)
        (DiscordSocket.backoffPolicy_ sock) k.
Proof.
  revert w a. induction k as [|k IH]; intros w a Hpool Hat Hstored Hdisposed.
  - cbn. repeat split; trivial. rewrite Hpool. f_equal.
    destruct a as [token endpoint attempt point]. cbn in *. subst point.
    unfold afterRounds. cbn. now rewrite Nat.add_0_r.
  - cbn zeta. cbn [failedRounds run trace].
    rewrite (step_open_failed w a Hpool Hat Hstored). cbn [fst snd].
    match goal with
    | |- context [step _ ?w1] => set (w1' := w1)
    end.
    pose proof (step_retry w1' _ _ false eq_refl eq_refl Hstored Hdisposed)
      as Hretry.
    cbn [DiscordSocket.connectionToken DiscordSocket.endpoint
         DiscordSocket.suspendAt] in Hretry.
    rewrite Hretry. clear Hretry. cbn [fst snd].
    match goal with
    | |- context [run _ ?w2] => set (w2' := w2)
    end.
    specialize (IH w2' (afterRounds 1 a)).
    assert (attempts w2' = [afterRounds 1 a]) as Hpool'.
    { subst w2' w1'. cbn. unfold afterRounds, DiscordSocket.suspendAt,
        DiscordSocket.nextAttempt. cbn. now rewrite Nat.add_1_r. }
    specialize (IH Hpool' eq_refl Hstored Hdisposed).
    cbn zeta in IH. cbn [afterRounds DiscordSocket.connectionToken
                          DiscordSocket.endpoint] in IH.
    destruct IH as (Hattempts & Hpolicy & Htoken & Htrace).
    repeat split.
    + rewrite Hattempts. unfold afterRounds. cbn. do 2 f_equal. lia.
    + rewrite Hpolicy. subst w2' w1'. cbn. apply failures_shift.
    + exact Htoken.
    + rewrite Htrace, failedRoundEffects_step. subst w2' w1'. cbn.
      reflexivity.
Qed.

(** X2: the connect loop never gives up.  Take the one loop of a connection
    on which disconnect() was not called, suspended inside open().  Over any
    number [k] of rounds in which open() fails, the loop reports each failure
    to the back-off policy, logs the next delay, waits, and calls open()
    again: afterwards it is suspended inside open() once more with [k] more
    attempts counted, still holding the stored token.  When open() then
    succeeds, the loop logs it, ends, clears the token and reports the success
    to the policy. *)
Theorem connect_loop_retries_until_open_succeeds
    (configuration : DiscordConnection.Configuration) (policy : BackoffPolicy.t)
    (before : list Event) (a : DiscordSocket.Attempt) (k : nat) :
  let w := run before (boot configuration policy) in
  withoutDisconnect before = true ->
  attempts w = [a] ->
  DiscordSocket.suspended a = DiscordSocket.Opening ->
  let rounds := failedRounds (DiscordSocket.connectionToken a) k in
  let sock := DiscordConnection.socket_ (connection w) in
  let w' := run rounds w in
  let sock' := DiscordConnection.socket_ (connection w') in
  let done := step (ResumeConnect (DiscordSocket.connectionToken a) true) w' in
  let sock'' := DiscordConnection.socket_ (connection (fst done)) in
  attempts w' = [afterRounds k a] /\
  DiscordSocket.backoffPolicy_ sock'
    = BackoffPolicy.failures k (DiscordSocket.backoffPolicy_ sock) /\
  DiscordSocket.connectionToken_ sock' = Some (DiscordSocket.connectionToken a) /\
  trace rounds w
    = failedRoundEffects (DiscordSocket.endpoint a)
        (DiscordSocket.backoffPolicy_ sock) k /\
  snd done = [ConsoleLog (LogSucceeded (DiscordSocket.endpoint a))] /\
  attempts (fst done) = [] /\
  DiscordSocket.connectionToken_ sock'' = None /\
  DiscordSocket.backoffPolicy_ sock''
    = BackoffPolicy.markRequestSuccessful
        (BackoffPolicy.failures k (DiscordSocket.backoffPolicy_ sock)).
Proof.
  intros w Hbefore Hpool Hat rounds sock w' sock' done sock''.
  assert (Coherent w) as Hw by apply run_coherent, boot_coherent.
  assert (DiscordSocket.connectionToken_ sock = Some (DiscordSocket.connectionToken a))
    as Hstored.
  { assert (soleAttempt w) as [Hnone | (x & Hone & Hx)].
    { apply run_soleAttempt; trivial; [apply boot_coherent | now left]. }
    - rewrite Hnone in Hpool. discriminate.
    - rewrite Hone in Hpool. injection Hpool as ->. exact Hx. }
  destruct (failed_rounds k w a Hpool Hat Hstored (socketInUse w Hw))
    as (Hattempts & Hpolicy & Htoken & Htrace).
  fold rounds w' sock' sock in Hattempts, Hpolicy, Htoken, Htrace.
  split; [exact Hattempts|]. split; [exact Hpolicy|].
  split; [exact Htoken|]. split; [exact Htrace|].
  pose proof (step_open_succeeded w' (afterRounds k a) Hattempts eq_refl Htoken)
    as Hdone.
  cbn [afterRounds DiscordSocket.connectionToken DiscordSocket.endpoint] in Hdone.
  subst sock'' done. rewrite Hdone. cbn. repeat split.
  fold sock'. now rewrite Hpolicy.
Qed.

Lemma connect_loop_retries_until_open_succeeds_witness :
  let before := [Connect; ResumeConnect 0%nat false] in
  let w := run before sampleWorld in
  attempts w
    = [{| DiscordSocket.connectionToken := 0%nat;
          DiscordSocket.endpoint := "wss://gateway.example/v1";
          DiscordSocket.attempt := 0;
          DiscordSocket.suspended := DiscordSocket.Opening |}] /\
  trace (failedRounds 0%nat 2) w
    = [ConsoleLog (LogFailed "wss://gateway.example/v1" 1);
       ConsoleLog (LogConnecting "wss://gateway.example/v1");
       SocketOpen "wss://gateway.example/v1";
       ConsoleLog (LogFailed "wss://gateway.example/v1" 2);
       ConsoleLog (LogConnecting "wss://gateway.example/v1");
       SocketOpen "wss://gateway.example/v1"] /\
  attempts (fst (step (ResumeConnect 0%nat true) (run (failedRounds 0%nat 2) w)))
    = [].
Proof.
  split; [reflexivity|].
  destruct (connect_loop_retries_until_open_succeeds
              sampleConfiguration samplePolicy
              [Connect; ResumeConnect 0%nat false]
              {| DiscordSocket.connectionToken := 0%nat;
                 DiscordSocket.endpoint := "wss://gateway.example/v1";
                 DiscordSocket.attempt := 0;
                 DiscordSocket.suspended := DiscordSocket.Opening |}
              2 eq_refl eq_refl eq_refl)
    as (_ & _ & _ & Htrace & _ & Hdone & _).
  split; [exact Htrace | exact Hdone].
Defined.

(** ** Beyond the claims: the socket on its own *)

(** X3: on a socket that is not disposed of, disconnect() clears the token in
    every state of the raw socket, closes the raw socket exactly when it is
    not disconnected, and changes nothing when it is repeated; the connect()
    that follows is accepted and starts a loop on the wait that the policy
    asks for.  A disposed socket ignores disconnect() altogether. *)
Theorem disconnect_clears_and_connect_restarts
    (fresh : Symbol) (endpoint : string) (sock : DiscordSocket.t) :
  (DiscordSocket.disposed_ sock = false ->
   let sock' := snd (fst (DiscordSocket.disconnect sock)) in
   DiscordSocket.connectionToken_ sock' = None /\
   (snd (DiscordSocket.disconnect sock) = [SocketClose] <->
    DiscordSocket.state sock <> DiscordSocket.kStateDisconnected) /\
   (snd (DiscordSocket.disconnect sock) = [] <->
    DiscordSocket.state sock = DiscordSocket.kStateDisconnected) /\
   snd (fst (DiscordSocket.disconnect sock')) = sock' /\
   DiscordSocket.connect fresh endpoint sock'
   = (Pending,
      DiscordSocket.withConnectionToken (Some fresh) sock',
      Some {| DiscordSocket.connectionToken := fresh;
              DiscordSocket.endpoint := endpoint;
              DiscordSocket.attempt := 0;
              DiscordSocket.suspended :=
                DiscordSocket.InitialWait
                  (BackoffPolicy.getTimeToNextRequestMs
                     (DiscordSocket.backoffPolicy_ sock)) |},
      [])) /\
  (DiscordSocket.disposed_ sock = true ->
   DiscordSocket.disconnect sock = (Resolved VUndefined, sock, [])).
Proof.
  split; intros Hdisposed; unfold DiscordSocket.disconnect; rewrite Hdisposed;
    [|reflexivity].
  cbn. unfold DiscordSocket.state. repeat split.
  - destruct (DiscordSocket.socket_ sock); intros; discriminate.
  - destruct (DiscordSocket.socket_ sock); trivial. intros H. now contradiction H.
  - destruct (DiscordSocket.socket_ sock); trivial; discriminate.
  - now intros ->.
  - unfold DiscordSocket.disconnect. cbn. now rewrite Hdisposed.
Qed.

Lemma disconnect_clears_and_connect_restarts_witness :
  let sock := DiscordSocket.withSocket DiscordSocket.kStateConnecting
                (DiscordConnection.socket_ (connection (run [Connect] sampleWorld))) in
  DiscordSocket.connectionToken_ sock = Some 0%nat /\
  snd (DiscordSocket.disconnect sock) = [SocketClose] /\
  DiscordSocket.connectionToken_ (snd (fst (DiscordSocket.disconnect sock))) = None /\
  DiscordSocket.disconnect (DiscordSocket.dispose sock)
  = (Resolved VUndefined, DiscordSocket.dispose sock, []).
Proof.
  destruct (disconnect_clears_and_connect_restarts 1%nat "wss://gateway.example/v1"
              (DiscordSocket.withSocket DiscordSocket.kStateConnecting
                 (DiscordConnection.socket_ (connection (run [Connect] sampleWorld)))))
    as [Huse _].
  destruct (Huse eq_refl) as (Hcleared & Hcloses & _).
  destruct (disconnect_clears_and_connect_restarts 1%nat "wss://gateway.example/v1"
              (DiscordSocket.dispose
                 (DiscordSocket.withSocket DiscordSocket.kStateConnecting
                    (DiscordConnection.socket_
                       (connection (run [Connect] sampleWorld))))))
    as [_ Hignored].
  split; [reflexivity|]. split; [apply Hcloses; discriminate|].
  split; [exact Hcleared | exact (Hignored eq_refl)].
Defined.

Lemma call_disposed (c : SocketCall) (sock : DiscordSocket.t) :
  DiscordSocket.disposed_ sock = true ->
  DiscordSocket.disposed_ (fst (call c sock)) = true /\
  forallb (fun e => negb (isSocketOpen e)) (snd (call c sock)) = true.
Proof.
  intros Hdisposed. destruct c; cbn.
  - unfold DiscordSocket.connect.
    destruct (DiscordSocket.connectionToken_ sock); cbn; auto.
  - unfold DiscordSocket.disconnect. rewrite Hdisposed. cbn. auto.
  - auto.
  - auto.
  - pose proof (resume_disposed a connected sock) as Hsame.
    unfold DiscordSocket.resume in *. rewrite Hdisposed in *.
    destruct (DiscordSocket.suspended a), (differs _ _), connected;
      cbn in *; auto.
  - auto.
Qed.

Lemma forallb_app_true {A : Type} (p : A -> bool) (l1 l2 : list A) :
  forallb p l1 = true -> forallb p l2 = true -> forallb p (l1 ++ l2) = true.
Proof. intros H1 H2. rewrite forallb_app, H1, H2. reflexivity. Qed.

(** X4: a disposed socket never calls open() again, whatever is called on it
    and whichever loop is resumed, and it stays disposed.  After the sequence
    by which the connection lets go of a socket in use - disconnect(), then
    dispose() - every loop ends when it is next resumed, and a loop whose
    open() was under way and then succeeds closes the raw socket again. *)
Theorem disposed_socket_never_opens
    (cs : list SocketCall) (a : DiscordSocket.Attempt) (connected : bool)
    (sock : DiscordSocket.t) :
  (DiscordSocket.disposed_ sock = true ->
   DiscordSocket.disposed_ (fst (calls cs sock)) = true /\
   forallb (fun e => negb (isSocketOpen e)) (snd (calls cs sock)) = true) /\
  (DiscordSocket.disposed_ sock = false ->
   DiscordSocket.disposed_ (released sock) = true /\
   snd (fst (DiscordSocket.resume a connected (released sock))) = None /\
   snd (DiscordSocket.resume a connected (released sock))
   = match DiscordSocket.suspended a with
     | DiscordSocket.Opening => if connected then [SocketClose] else []
     | _ => []
     end).
Proof.
  split.
  - revert sock. induction cs as [|c cs IH]; intros sock Hdisposed; cbn; auto.
    destruct (call_disposed c sock Hdisposed) as [Hstill Hquiet].
    destruct (call c sock) as [sock' effects]. cbn in Hstill, Hquiet.
    specialize (IH sock' Hstill).
    destruct (calls cs sock') as [final more]. cbn in IH |- *.
    split; [apply IH | apply forallb_app_true; [exact Hquiet | apply IH]].
  - intros Hdisposed.
    unfold released, DiscordSocket.disconnect, DiscordSocket.resume.
    rewrite Hdisposed. cbn.
    destruct (DiscordSocket.suspended a), connected; cbn; auto.
Qed.

Lemma disposed_socket_never_opens_witness :
  let sock := DiscordConnection.socket_
                (connection (run [Connect; ResumeConnect 0%nat false] sampleWorld)) in
  let opening := {| DiscordSocket.connectionToken := 0%nat;
                    DiscordSocket.endpoint := "wss://gateway.example/v1";
                    DiscordSocket.attempt := 0;
                    DiscordSocket.suspended := DiscordSocket.Opening |} in
  let cs := [CallConnect 1%nat "wss://gateway.example/v1";
             CallResume opening false; CallResume opening false] in
  snd (DiscordSocket.resume opening true (released sock)) = [SocketClose] /\
  DiscordSocket.disposed_ (fst (calls cs (released sock))) = true /\
  forallb (fun e => negb (isSocketOpen e)) (snd (calls cs (released sock))) = true.
Proof.
  destruct (disposed_socket_never_opens []
              {| DiscordSocket.connectionToken := 0%nat;
                 DiscordSocket.endpoint := "wss://gateway.example/v1";
                 DiscordSocket.attempt := 0;
                 DiscordSocket.suspended := DiscordSocket.Opening |}
              true
              (DiscordConnection.socket_
                 (connection (run [Connect; ResumeConnect 0%nat false] sampleWorld))))
    as [_ Hreleased].
  destruct (Hreleased eq_refl) as (_ & _ & Hcloses).
  split; [exact Hcloses|].
  apply (disposed_socket_never_opens
           [CallConnect 1%nat "wss://gateway.example/v1";
            CallResume
              {| DiscordSocket.connectionToken := 0%nat;
                 DiscordSocket.endpoint := "wss://gateway.example/v1";
                 DiscordSocket.attempt := 0;
                 DiscordSocket.suspended := DiscordSocket.Opening |} false;
            CallResume
              {| DiscordSocket.connectionToken := 0%nat;
                 DiscordSocket.endpoint := "wss://gateway.example/v1";
                 DiscordSocket.attempt := 0;
                 DiscordSocket.suspended := DiscordSocket.Opening |} false]
           {| DiscordSocket.connectionToken := 0%nat;
              DiscordSocket.endpoint := "wss://gateway.example/v1";
              DiscordSocket.attempt := 0;
              DiscordSocket.suspended := DiscordSocket.Opening |}
           true
           (released
              (DiscordConnection.socket_
                 (connection
                    (run [Connect; ResumeConnect 0%nat false] sampleWorld))))).
  reflexivity.
Defined.

(** ** Beyond the claims: the heartbeat monitor *)

(** X5: when the socket reports the connection closed, the connection is no
    longer established and no monitor token is stored; every heartbeat
    monitor that is suspended at that moment is superseded from then on:
    whatever happens next, its wake-up has no effect and ends it. *)
Theorem onConnectionClosed_retires_monitors
    (configuration : DiscordConnection.Configuration) (policy : BackoffPolicy.t)
    (before after : list Event) (old : DiscordConnection.Monitor) :
  let w := run before (boot configuration policy) in
  In old (monitors w) ->
  let closed := fst (step OnConnectionClosed w) in
  DiscordConnection.isConnected (connection closed) = false /\
  DiscordConnection.heartbeatMonitorToken_ (connection closed) = None /\
  exitsSilently (DiscordConnection.heartbeatMonitorToken old) (run after closed).
Proof.
  intros w Hold closed.
  assert (Coherent w) as Hw by apply run_coherent, boot_coherent.
  split; [reflexivity | split; [reflexivity|]].
  apply supersededMonitor_exitsSilently.
  - now apply run_coherent, step_coherent.
  - apply run_supersededMonitor. split; [|reflexivity].
    pose proof (monitorsKnown w Hw) as H. rewrite Forall_forall in H.
    now apply H.
Qed.

Lemma onConnectionClosed_retires_monitors_witness :
  let w := run [OnConnectionEstablished; OnMessage (hello 41250)] sampleWorld in
  snd (step (WakeMonitor 0%nat) w) = [WriteCall heartbeat] /\
  exitsSilently 0%nat
    (run [OnConnectionEstablished] (fst (step OnConnectionClosed w))).
Proof.
  split; [reflexivity|].
  apply (onConnectionClosed_retires_monitors sampleConfiguration samplePolicy
           [OnConnectionEstablished; OnMessage (hello 41250)]
           [OnConnectionEstablished]
           {| DiscordConnection.heartbeatMonitorToken := 0%nat;
              DiscordConnection.sleepMs := Some 41250 |}).
  left. reflexivity.
Defined.

Lemma live_at_most_one (stored : option Symbol) (pool : list DiscordConnection.Monitor) :
  NoDup (map DiscordConnection.heartbeatMonitorToken pool) ->
  (List.length
     (filter
        (fun m => negb (differs stored (DiscordConnection.heartbeatMonitorToken m)))
        pool)
   <= 1)%nat.
Proof.
  induction pool as [|m pool IH]; cbn; [lia|].
  intros Hdistinct. inversion Hdistinct as [|? ? Hm Hrest]; subst.
  specialize (IH Hrest).
  destruct (differs stored (DiscordConnection.heartbeatMonitorToken m)) eqn:Hdiffers;
    cbn; [exact IH|].
  apply differs_false in Hdiffers.
  assert (filter
            (fun m' =>
               negb (differs stored (DiscordConnection.heartbeatMonitorToken m')))
            pool = []) as ->; [|cbn; lia].
  clear IH Hrest Hdistinct.
  induction pool as [|b pool IH]; cbn; trivial.
  destruct (differs stored (DiscordConnection.heartbeatMonitorToken b)) eqn:Hb; cbn.
  - apply IH. intros H. apply Hm. now right.
  - apply differs_false in Hb. exfalso. apply Hm. left. congruence.
Qed.

Lemma live_none_known (n : Symbol) (pool : list DiscordConnection.Monitor) :
  Forall (fun m => (DiscordConnection.heartbeatMonitorToken m < n)%nat) pool ->
  filter
    (fun m => negb (differs (Some n) (DiscordConnection.heartbeatMonitorToken m)))
    pool = [].
Proof.
  induction 1 as [|m pool Hm _ IH]; cbn [filter]; trivial.
  now rewrite (differs_fresh (DiscordConnection.heartbeatMonitorToken m) n Hm).
Qed.

(** X6: at any time at most one suspended heartbeat monitor holds the stored
    token.  A Hello that leaves an interval of at least ten seconds makes it
    exactly one: the monitor it starts, which sleeps for that interval. *)
Theorem one_live_heartbeat_monitor
    (configuration : DiscordConnection.Configuration) (policy : BackoffPolicy.t)
    (events : list Event) (message : Gateway.Payload) :
  let w := run events (boot configuration policy) in
  (List.length (liveMonitors w) <= 1)%nat /\
  (Gateway.op message = DiscordConnection.kOpcodeHello ->
   DiscordConnection.kMinimumHeartbeatMonitorMs <= recordedInterval message ->
   liveMonitors (fst (step (OnMessage message) w))
   = [{| DiscordConnection.heartbeatMonitorToken := symbols w;
         DiscordConnection.sleepMs := Some (recordedInterval message) |}]).
Proof.
  intros w.
  assert (Coherent w) as Hw by apply run_coherent, boot_coherent.
  split.
  - apply live_at_most_one, (monitorsDistinct w Hw).
  - intros Hhello Hfloor. unfold liveMonitors. cbn [step].
    unfold DiscordConnection.onMessage. rewrite Hhello. cbn [Z.eqb Pos.eqb].
    unfold DiscordConnection.heartbeatMonitor, DiscordConnection.identify.
    cbn [DiscordConnection.heartbeatIntervalMs_
         DiscordConnection.withHeartbeatMonitorToken
         DiscordConnection.withHeartbeatIntervalMs].
    fold (recordedInterval message).
    assert (DiscordConnection.unwilling (Some (recordedInterval message)) = false)
      as ->.
    { cbn. apply orb_false_iff. unfold DiscordConnection.kMinimumHeartbeatMonitorMs in *.
      split; [apply Z.eqb_neq | apply Z.ltb_ge]; lia. }
    cbn. rewrite filter_app.
    pose proof (live_none_known (symbols w) _ (monitorsKnown w Hw)) as Hnone.
    cbn in Hnone. rewrite Hnone.
    cbn. now rewrite Nat.eqb_refl.
Qed.

Lemma one_live_heartbeat_monitor_witness :
  let w := run [OnConnectionEstablished; OnMessage (hello 41250)] sampleWorld in
  monitors (fst (step (OnMessage (hello 45000)) w))
    = [{| DiscordConnection.heartbeatMonitorToken := 0%nat;
          DiscordConnection.sleepMs := Some 41250 |};
       {| DiscordConnection.heartbeatMonitorToken := 1%nat;
          DiscordConnection.sleepMs := Some 45000 |}] /\
  liveMonitors (fst (step (OnMessage (hello 45000)) w))
    = [{| DiscordConnection.heartbeatMonitorToken := 1%nat;
          DiscordConnection.sleepMs := Some 45000 |}].
Proof.
  split; [reflexivity|].
  apply (one_live_heartbeat_monitor sampleConfiguration samplePolicy
           [OnConnectionEstablished; OnMessage (hello 41250)] (hello 45000)).
  - reflexivity.
  - cbn. discriminate.
Defined.

Lemma wake_current (m : DiscordConnection.Monitor) (c : DiscordConnection.t) :
  differs (DiscordConnection.heartbeatMonitorToken_ c)
          (DiscordConnection.heartbeatMonitorToken m) = false ->
  DiscordConnection.wake m c
  = (c,
     Some {| DiscordConnection.heartbeatMonitorToken :=
               DiscordConnection.heartbeatMonitorToken m;
             DiscordConnection.sleepMs := DiscordConnection.heartbeatIntervalMs_ c |},
     if DiscordConnection.isConnected c then [WriteCall heartbeat] else []).
Proof.
  intros Hcurrent. unfold DiscordConnection.wake. rewrite Hcurrent.
  unfold DiscordConnection.sendOpcodeMessage, DiscordConnection.isConnected.
  destruct (DiscordConnection.connected_ c); cbn; [|reflexivity].
  now rewrite withSocket_same.
Qed.

Lemma wake_ups (k : nat) (token : Symbol) (w : World) :
  (exists m, In m (monitors w) /\ DiscordConnection.heartbeatMonitorToken m = token) ->
  DiscordConnection.heartbeatMonitorToken_ (connection w) = Some token ->
  let events := repeat (WakeMonitor token) k in
  trace events w
    = (if DiscordConnection.isConnected (connection w)
       then repeat (WriteCall heartbeat) k
       else []) /\
  connection (run events w) = connection w /\
  clock (run events w) = clock w /\
  exists m,
    In m (monitors (run events w)) /\
    DiscordConnection.heartbeatMonitorToken m = token.
Proof.
  revert w. induction k as [|k IH]; intros w Hsuspended Hstored; cbn zeta.
  - cbn. repeat split; trivial. now destruct (DiscordConnection.isConnected _).
  - cbn [repeat run trace].
    assert (exists x others,
              extract (holdsMonitorToken token) (monitors w) = Some (x, others) /\
              DiscordConnection.heartbeatMonitorToken x = token)
      as (x & others & Hextract & Hx).
    { destruct (extract (holdsMonitorToken token) (monitors w))
        as [[x others]|] eqn:Hextract.
      - exists x, others. split; trivial.
        destruct (extract_In _ _ _ _ Hextract) as (_ & Hholds & _).
        now apply Nat.eqb_eq in Hholds.
      - destruct Hsuspended as (m & Hm & Htoken).
        pose proof (extract_none _ _ Hextract m Hm) as Hholds.
        apply Nat.eqb_neq in Hholds. contradiction. }
    assert (step (WakeMonitor token) w
            = ({| clock := clock w;
                  symbols := symbols w;
                  connection := connection w;
                  attempts := attempts w;
                  monitors :=
                    others ++
                    [{| DiscordConnection.heartbeatMonitorToken := token;
                        DiscordConnection.sleepMs :=
                          DiscordConnection.heartbeatIntervalMs_ (connection w) |}] |},
               if DiscordConnection.isConnected (connection w)
               then [WriteCall heartbeat] else [])) as Hstep.
    { cbn [step]. rewrite Hextract, wake_current.
      - now rewrite Hx.
      - rewrite Hstored, Hx. apply differs_refl. }
    rewrite Hstep. cbn [fst snd].
    match goal with
    | |- context [run _ ?w1] => set (w1' := w1)
    end.
    destruct (IH w1') as (Htrace & Hconnection & Hclock & Hstill).
    + eexists. split; [apply in_or_app; right; now left | reflexivity].
    + exact Hstored.
    + rewrite Htrace, Hconnection, Hclock. subst w1'. cbn [connection clock].
      repeat split; trivial.
      now destruct (DiscordConnection.isConnected (connection w)).
Qed.

(** X7: as long as nothing else happens, the heartbeat monitor that holds the
    stored token sends one Heartbeat, and nothing else, every time it wakes
    up on an established connection, and goes back to sleep; on a connection
    that is not established it sends nothing and goes back to sleep all the
    same.  The connection itself is not changed by it. *)
Theorem heartbeat_on_every_wake_up
    (configuration : DiscordConnection.Configuration) (policy : BackoffPolicy.t)
    (before : list Event) (m : DiscordConnection.Monitor) (k : nat) :
  let w := run before (boot configuration policy) in
  In m (monitors w) ->
  DiscordConnection.heartbeatMonitorToken_ (connection w)
    = Some (DiscordConnection.heartbeatMonitorToken m) ->
  let events := repeat (WakeMonitor (DiscordConnection.heartbeatMonitorToken m)) k in
  trace events w
    = (if DiscordConnection.isConnected (connection w)
       then repeat (WriteCall heartbeat) k
       else []) /\
  connection (run events w) = connection w /\
  (List.length (liveMonitors (run events w)) = 1)%nat.
Proof.
  intros w Hm Hstored events.
  destruct (wake_ups k (DiscordConnection.heartbeatMonitorToken m) w)
    as (Htrace & Hconnection & _ & (m' & Hm' & Htoken)); eauto.
  fold events in Htrace, Hconnection, Hm'.
  repeat split; trivial.
  assert (Coherent (run events w)) as Hlater
    by (apply run_coherent, run_coherent, boot_coherent).
  pose proof (live_at_most_one
                (DiscordConnection.heartbeatMonitorToken_ (connection (run events w)))
                (monitors (run events w)) (monitorsDistinct _ Hlater)) as Hmost.
  assert (In m' (liveMonitors (run events w))) as Hlive.
  { apply filter_In. split; trivial.
    rewrite Hconnection, Hstored, Htoken, differs_refl. reflexivity. }
  unfold liveMonitors in *.
  destruct (filter _ (monitors (run events w))); cbn in *; [contradiction | lia].
Qed.

Lemma heartbeat_on_every_wake_up_witness :
  let w := run [OnConnectionEstablished; OnMessage (hello 41250)] sampleWorld in
  trace (repeat (WakeMonitor 0%nat) 3) w
    = [WriteCall heartbeat; WriteCall heartbeat; WriteCall heartbeat] /\
  trace (repeat (WakeMonitor 0%nat) 3) (run [OnMessage (hello 41250)] sampleWorld)
    = [].
Proof.
  split.
  - apply (heartbeat_on_every_wake_up sampleConfiguration samplePolicy
             [OnConnectionEstablished; OnMessage (hello 41250)]
             {| DiscordConnection.heartbeatMonitorToken := 0%nat;
                DiscordConnection.sleepMs := Some 41250 |} 3).
    + left. reflexivity.
    + reflexivity.
  - apply (heartbeat_on_every_wake_up sampleConfiguration samplePolicy
             [OnMessage (hello 41250)]
             {| DiscordConnection.heartbeatMonitorToken := 0%nat;
                DiscordConnection.sleepMs := Some 41250 |} 3).
    + left. reflexivity.
    + reflexivity.
Defined.

(** X8: a Heartbeat from the gateway is answered with a Heartbeat-Ack,
    [{ op: 11, d: {}, s: null, t: null }], when the connection is established
    and with nothing when it is not; in both cases the world stays as it
    is. *)
Theorem heartbeat_request_is_acknowledged (message : Gateway.Payload) (w : World) :
  Gateway.op message = DiscordConnection.kOpcodeHeartbeat ->
  step (OnMessage message) w
  = (w,
     if DiscordConnection.isConnected (connection w)
     then [WriteCall (bare DiscordConnection.kOpcodeHeartbeatAck)]
     else []).
Proof.
  intros Hop. cbn [step]. unfold DiscordConnection.onMessage. rewrite Hop.
  cbn [Z.eqb Pos.eqb DiscordConnection.kOpcodeHeartbeat DiscordConnection.kOpcodeHello].
  unfold DiscordConnection.sendOpcodeMessage, DiscordConnection.isConnected.
  destruct w as [time supply c pool sleepers]. cbn.
  destruct (DiscordConnection.connected_ c); cbn; [|reflexivity].
  now rewrite withSocket_same.
Qed.

Lemma heartbeat_request_is_acknowledged_witness :
  let w := run [OnConnectionEstablished] sampleWorld in
  step (OnMessage (bare 1)) w = (w, [WriteCall (bare 11)]) /\
  step (OnMessage (bare 1)) sampleWorld = (sampleWorld, []).
Proof.
  split.
  - apply (heartbeat_request_is_acknowledged (bare 1)
             (run [OnConnectionEstablished] sampleWorld)).
    reflexivity.
  - apply (heartbeat_request_is_acknowledged (bare 1) sampleWorld).
    reflexivity.
Defined.

Lemma step_silenced (e : Event) (w : World) :
  startsMonitor e = false -> silenced w -> silenced (fst (step e w)).
Proof.
  intros He Hw. destruct e; try discriminate He; cbn [step startsMonitor] in *.
  - destruct (DiscordConnection.connect (symbols w) (connection w))
      as [[[promise c] started] effects] eqn:Hconnect.
    assert (DiscordConnection.heartbeatMonitorToken_ c
            = DiscordConnection.heartbeatMonitorToken_ (connection w)) as Hsame.
    { revert Hconnect.
      unfold DiscordConnection.connect, DiscordConnection.internalConnect,
        DiscordSocket.connect; cbn.
      destruct (DiscordConnection.connecting_ (connection w)); cbn.
      - now intros [= <- <- <- <-].
      - destruct (DiscordSocket.connectionToken_ _); now intros [= <- <- <- <-]. }
    unfold silenced. cbn. now rewrite Hsame.
  - pose proof (disconnect_heartbeatMonitorToken (connection w)) as Hsame.
    destruct (DiscordConnection.disconnect (connection w)) as [[promise c] effects].
    cbn in Hsame. unfold silenced. cbn. now rewrite Hsame.
  - pose proof (sendOpcodeMessage_connection m (connection w)) as Hsame.
    destruct (DiscordConnection.sendOpcodeMessage m (connection w))
      as [[promise c] effects].
    cbn in Hsame. subst c. exact Hw.
  - intros m _. reflexivity.
  - exact Hw.
  - exact Hw.
  - unfold DiscordConnection.onMessage. rewrite He.
    destruct (Gateway.op message =? DiscordConnection.kOpcodeHeartbeat).
    { pose proof (sendOpcodeMessage_connection
                    (DiscordConnection.onlyOp DiscordConnection.kOpcodeHeartbeatAck)
                    (connection w)) as Hsame.
      destruct (DiscordConnection.sendOpcodeMessage _ (connection w))
        as [[promise c] effects].
      cbn in Hsame. subst c. exact Hw. }
    destruct (Gateway.op message =? DiscordConnection.kOpcodeHeartbeatAck);
      exact Hw.
  - destruct (extract (holdsConnectionToken token) (attempts w))
      as [[a others]|]; [|exact Hw].
    destruct (DiscordSocket.resume a connected _) as [[sock continued] effects].
    exact Hw.
  - destruct (extract (holdsMonitorToken token) (monitors w))
      as [[m others]|] eqn:Hextract; [|exact Hw].
    destruct (extract_In _ _ _ _ Hextract) as (Hm & _ & Hothers).
    rewrite (wake_superseded m (connection w) (Hw m Hm)).
    intros m' Hm'. cbn in Hm' |- *. auto.
  - exact Hw.
  - exact Hw.
  - exact Hw.
  - exact Hw.
  - exact Hw.
Qed.

Lemma run_silenced (events : list Event) (w : World) :
  withoutMonitorStart events = true -> silenced w -> silenced (run events w).
Proof.
  revert w. induction events as [|e events IH]; intros w Hevents Hw; cbn; trivial.
  cbn in Hevents. apply andb_true_iff in Hevents as [He Hevents].
  apply negb_true_iff in He.
  apply IH; trivial. now apply step_silenced.
Qed.

Lemma silenced_wake (token : Symbol) (w : World) :
  silenced w -> snd (step (WakeMonitor token) w) = [].
Proof.
  intros Hw. cbn [step].
  destruct (extract (holdsMonitorToken token) (monitors w))
    as [[m others]|] eqn:Hextract; [|reflexivity].
  destruct (extract_In _ _ _ _ Hextract) as (Hm & _ & _).
  now rewrite (wake_superseded m (connection w) (Hw m Hm)).
Qed.

Lemma rejected_start_silences (e : Event) (w : World) :
  Coherent w ->
  startsMonitor e = true ->
  In (Uncaught "Unwilling to start the Discord monitor: interval too low.")
     (snd (step e w)) ->
  silenced (fst (step e w)).
Proof.
  intros Hw He. pose proof (monitorsKnown w Hw) as Hknown.
  rewrite Forall_forall in Hknown.
  destruct e; try discriminate He; cbn [step startsMonitor] in *.
  - unfold DiscordConnection.heartbeatMonitor.
    destruct (DiscordConnection.unwilling _); cbn; [|intros []].
    intros _ m Hm. cbn. apply differs_fresh. now apply Hknown.
  - unfold DiscordConnection.onMessage. rewrite He.
    apply Z.eqb_eq in He.
    replace (Gateway.op message =? DiscordConnection.kOpcodeHeartbeat) with false
      by (symmetry; apply Z.eqb_neq; rewrite He; discriminate).
    replace (Gateway.op message =? DiscordConnection.kOpcodeHeartbeatAck) with false
      by (symmetry; apply Z.eqb_neq; rewrite He; discriminate).
    unfold DiscordConnection.heartbeatMonitor, DiscordConnection.identify.
    destruct (DiscordConnection.unwilling _); cbn.
    + intros _ m Hm. cbn. apply differs_fresh. now apply Hknown.
    + intros Hin. exfalso.
      destruct (hasOwnProperty _ _); cbn in Hin;
        repeat (destruct Hin as [Hin|Hin]; try discriminate Hin); trivial.
Qed.

(** X9: when heartbeatMonitor() refuses to start - after a Hello whose
    interval is below ten seconds, say - heartbeats stop altogether: the
    earlier monitor is retired and none takes its place, so until
    heartbeatMonitor() runs again no wake-up of any monitor writes or does
    anything. *)
Theorem refused_monitor_stops_heartbeats
    (configuration : DiscordConnection.Configuration) (policy : BackoffPolicy.t)
    (before after : list Event) (e : Event) (token : Symbol) :
  let w := run before (boot configuration policy) in
  startsMonitor e = true ->
  In (Uncaught "Unwilling to start the Discord monitor: interval too low.")
     (snd (step e w)) ->
  withoutMonitorStart after = true ->
  liveMonitors (run after (fst (step e w))) = [] /\
  snd (step (WakeMonitor token) (run after (fst (step e w)))) = [].
Proof.
  intros w He Hrejected Hafter.
  assert (silenced (run after (fst (step e w)))) as Hsilenced.
  { apply run_silenced; trivial.
    apply rejected_start_silences; trivial.
    apply run_coherent, boot_coherent. }
  split; [|now apply silenced_wake].
  unfold liveMonitors, silenced in *.
  revert Hsilenced.
  generalize (DiscordConnection.heartbeatMonitorToken_
                (connection (run after (fst (step e w))))) as stored.
  induction (monitors (run after (fst (step e w)))) as [|m pool IH];
    intros stored Hsilenced; cbn [filter]; trivial.
  rewrite (Hsilenced m (or_introl eq_refl)). cbn [negb].
  apply IH. intros m' Hm'. apply Hsilenced. now right.
Qed.

Lemma refused_monitor_stops_heartbeats_witness :
  let w := run [OnConnectionEstablished; OnMessage (hello 41250)] sampleWorld in
  let after := [Elapse 41250; SendOpcodeMessage (DiscordConnection.onlyOp 0)] in
  snd (step (WakeMonitor 0%nat) w) = [WriteCall heartbeat] /\
  snd (step (OnMessage (hello 9999)) w)
    = [Uncaught "Unwilling to start the Discord monitor: interval too low."] /\
  snd (step (WakeMonitor 0%nat) (run after (fst (step (OnMessage (hello 9999)) w))))
    = [].
Proof.
  split; [reflexivity|]. split; [reflexivity|].
  apply (refused_monitor_stops_heartbeats sampleConfiguration samplePolicy
           [OnConnectionEstablished; OnMessage (hello 41250)]
           [Elapse 41250; SendOpcodeMessage (DiscordConnection.onlyOp 0)]
           (OnMessage (hello 9999)) 0%nat).
  - reflexivity.
  - left. reflexivity.
  - reflexivity.
Defined.



(** ** Beyond the claims: the runtime and its bots *)

Lemma setAdd_fresh (bot : Runtime.Bot) (set : list Runtime.Bot) :
  ~ In (Runtime.identity bot) (map Runtime.identity set) ->
  Runtime.setAdd Runtime.sameBot bot set = set ++ [bot].
Proof.
  intros Hfresh. unfold Runtime.setAdd.
  destruct (existsb (Runtime.sameBot bot) set) eqn:Hexists; trivial.
  apply existsb_exists in Hexists as (other & Hin & Hsame).
  apply Nat.eqb_eq in Hsame. exfalso. apply Hfresh. rewrite Hsame.
  now apply in_map.
Qed.

Lemma setDelete_absent (bot : Runtime.Bot) (set : list Runtime.Bot) :
  ~ In (Runtime.identity bot) (map Runtime.identity set) ->
  Runtime.setDelete Runtime.sameBot bot set = set.
Proof.
  intros Habsent. unfold Runtime.setDelete.
  induction set as [|other set IH]; cbn; trivial.
  cbn in Habsent.
  destruct (Runtime.sameBot bot other) eqn:Hsame; cbn.
  - apply Nat.eqb_eq in Hsame. exfalso. apply Habsent. now left.
  - f_equal. apply IH. intros H. apply Habsent. now right.
Qed.

Lemma setDelete_split (bot : Runtime.Bot) (before after : list Runtime.Bot) :
  NoDup (map Runtime.identity (before ++ bot :: after)) ->
  Runtime.setDelete Runtime.sameBot bot (before ++ bot :: after) = before ++ after.
Proof.
  intros Hdistinct. rewrite map_app in Hdistinct. cbn [map] in Hdistinct.
  pose proof (NoDup_remove_2 _ _ _ Hdistinct) as Habsent.
  unfold Runtime.setDelete. rewrite filter_app. cbn [filter].
  unfold Runtime.sameBot at 2. rewrite Nat.eqb_refl. cbn [negb].
  f_equal.
  - apply (setDelete_absent bot before). intros H. apply Habsent.
    apply in_or_app. now left.
  - apply (setDelete_absent bot after). intros H. apply Habsent.
    apply in_or_app. now right.
Qed.

(** Moving a bot that is not required from the active to the available
    set. *)
Lemma move_to_available (bot : Runtime.Bot) (before after available : list Runtime.Bot) :
  NoDup (map Runtime.identity ((before ++ bot :: after) ++ available)) ->
  Runtime.setDelete Runtime.sameBot bot (before ++ bot :: after) = before ++ after /\
  Runtime.setAdd Runtime.sameBot bot available = available ++ [bot] /\
  NoDup (map Runtime.identity ((before ++ after) ++ available ++ [bot])) /\
  Permutation ((before ++ after) ++ available ++ [bot])
              ((before ++ bot :: after) ++ available).
Proof.
  intros Hdistinct.
  assert (Permutation ((before ++ after) ++ available ++ [bot])
                      ((before ++ bot :: after) ++ available)) as Hperm.
  { rewrite <- !app_assoc. apply Permutation_app_head. cbn.
    rewrite app_assoc. rewrite <- Permutation_cons_append.
    reflexivity. }
  repeat split; trivial.
  - apply setDelete_split. rewrite map_app in Hdistinct.
    now apply NoDup_app_remove_r in Hdistinct.
  - apply setAdd_fresh. rewrite map_app in Hdistinct.
    intros Hin.
    rewrite map_app in Hdistinct. cbn [map] in Hdistinct.
    rewrite <- app_assoc in Hdistinct. cbn [app] in Hdistinct.
    apply NoDup_remove_2 in Hdistinct. apply Hdistinct.
    apply in_or_app. right. apply in_or_app. now right.
  - apply (Permutation_NoDup (l := map Runtime.identity
                                     ((before ++ bot :: after) ++ available)));
      trivial.
    apply Permutation_map. now symmetry.
Qed.

Lemma partition_permutation {A : Type} (p : A -> bool) (l : list A) :
  Permutation (filter p l ++ filter (fun x => negb (p x)) l) l.
Proof.
  induction l as [|x l IH]; cbn; trivial.
  destruct (p x); cbn.
  - now constructor.
  - rewrite <- Permutation_middle. now constructor.
Qed.

Lemma filter_idempotent {A : Type} (p : A -> bool) (l : list A) :
  filter p (filter p l) = filter p l.
Proof.
  induction l as [|x l IH]; cbn; trivial.
  destruct (p x) eqn:Hx; cbn; [rewrite Hx; f_equal|]; exact IH.
Qed.


Lemma filter_all {A : Type} (p : A -> bool) (l : list A) :
  Forall (fun x => p x = true) l -> filter p l = l.
Proof.
  induction 1 as [|x l Hx _ IH]; cbn; trivial. rewrite Hx. now f_equal.
Qed.

Lemma botsFrom_identity (next : nat) (configs : list Runtime.BotConfig) :
  Forall (fun bot => (next <= Runtime.identity bot)%nat) (Runtime.botsFrom next configs) /\
  NoDup (map Runtime.identity (Runtime.botsFrom next configs)).
Proof.
  revert next. induction configs as [|c configs IH]; intros next; cbn.
  - split; constructor.
  - destruct (IH (S next)) as [Hknown Hdistinct]. split.
    + constructor; [cbn; lia|]. eapply Forall_impl; [|exact Hknown].
      cbn. intros; lia.
    + constructor; trivial. intros Hin.
      apply in_map_iff in Hin as (bot & Hid & Hbot).
      rewrite Forall_forall in Hknown. specialize (Hknown bot Hbot). lia.
Qed.

Lemma construct_sets (configs : list Runtime.BotConfig) (next : nat) (r : Runtime.t) :
  Forall (fun bot => (Runtime.identity bot < next)%nat)
    (Runtime.activeBots_ r ++ Runtime.availableBots_ r) ->
  let r' := Runtime.construct next configs r in
  Runtime.activeBots_ r'
    = Runtime.activeBots_ r
      ++ filter Runtime.required (Runtime.botsFrom next configs) /\
  Runtime.availableBots_ r'
    = Runtime.availableBots_ r ++ filter spare (Runtime.botsFrom next configs) /\
  Runtime.observers_ r' = Runtime.observers_ r.
Proof.
  revert next r. induction configs as [|c configs IH]; intros next r Hknown; cbn zeta.
  - cbn. now rewrite !app_nil_r.
  - cbn [Runtime.construct Runtime.botsFrom filter].
    set (bot := {| Runtime.identity := next; Runtime.config := c |}).
    assert (forall set,
              Forall (fun b => (Runtime.identity b < next)%nat) set ->
              Runtime.setAdd Runtime.sameBot bot set = set ++ [bot]) as Hadd.
    { intros set Hset. apply setAdd_fresh. intros Hin.
      apply in_map_iff in Hin as (other & Hid & Hother).
      rewrite Forall_forall in Hset. specialize (Hset other Hother).
      subst bot. cbn in Hid. lia. }
    apply Forall_app in Hknown as [Hactive Havailable].
    unfold spare at 1.
    destruct (Runtime.required bot) eqn:Hrequired; cbn [negb].
    + rewrite (Hadd _ Hactive).
      destruct (IH (S next)
                  (Runtime.withBots (Runtime.activeBots_ r ++ [bot])
                     (Runtime.availableBots_ r) r)) as (Ha & Hv & Ho).
      { cbn. apply Forall_app. split.
        - apply Forall_app. split.
          + eapply Forall_impl; [|exact Hactive]. cbn. intros; lia.
          + constructor; [cbn; lia | constructor].
        - eapply Forall_impl; [|exact Havailable]. cbn. intros; lia. }
      cbn in Ha, Hv, Ho. rewrite Ha, Hv, Ho, <- app_assoc. now repeat split.
    + rewrite (Hadd _ Havailable).
      destruct (IH (S next)
                  (Runtime.withBots (Runtime.activeBots_ r)
                     (Runtime.availableBots_ r ++ [bot]) r)) as (Ha & Hv & Ho).
      { cbn. apply Forall_app. split.
        - eapply Forall_impl; [|exact Hactive]. cbn. intros; lia.
        - apply Forall_app. split.
          + eapply Forall_impl; [|exact Havailable]. cbn. intros; lia.
          + constructor; [cbn; lia | constructor]. }
      cbn in Ha, Hv, Ho. rewrite Ha, Hv, Ho, <- app_assoc. now repeat split.
Qed.

Lemma create_sets (configs : list Runtime.BotConfig) :
  Runtime.activeBots_ (Runtime.create configs)
    = filter Runtime.required (Runtime.botsFrom 0 configs) /\
  Runtime.availableBots_ (Runtime.create configs)
    = filter spare (Runtime.botsFrom 0 configs) /\
  Runtime.observers_ (Runtime.create configs) = Some [].
Proof.
  unfold Runtime.create.
  destruct (construct_sets configs 0
              {| Runtime.configuration_ := configs;
                 Runtime.activeBots_ := [];
                 Runtime.availableBots_ := [];
                 Runtime.observers_ := Some [] |}) as (Ha & Hv & Ho).
  - constructor.
  - cbn in Ha, Hv, Ho. now rewrite Ha, Hv, Ho.
Qed.

Lemma spare_sets_staffed (bots active : list Runtime.Bot) (r : Runtime.t) :
  NoDup (map Runtime.identity bots) ->
  Permutation active bots ->
  filter Runtime.required active = filter Runtime.required bots ->
  Runtime.activeBots_ r = filter Runtime.required active ->
  Runtime.availableBots_ r = filter spare active ->
  Staffed bots r.
Proof.
  intros Hdistinct Hperm Hrequired Hactive Havailable.
  assert (Permutation (Runtime.activeBots_ r ++ Runtime.availableBots_ r) bots)
    as Hall.
  { rewrite Hactive, Havailable. unfold spare.
    now rewrite partition_permutation. }
  repeat split; trivial.
  - apply (Permutation_NoDup (l := map Runtime.identity bots)); trivial.
    apply Permutation_map. now symmetry.
  - rewrite Havailable. apply Forall_forall. intros bot Hbot.
    apply filter_In in Hbot as [_ Hspare]. now apply negb_true_iff in Hspare.
  - now rewrite Hactive, filter_idempotent.
Qed.

Lemma create_staffed (configs : list Runtime.BotConfig) :
  Staffed (Runtime.botsFrom 0 configs) (Runtime.create configs).
Proof.
  destruct (create_sets configs) as (Ha & Hv & _).
  apply spare_sets_staffed with (active := Runtime.botsFrom 0 configs); trivial.
  apply botsFrom_identity.
Qed.

Lemma increase_spec (bots : list Runtime.Bot) (r : Runtime.t) :
  Staffed bots r ->
  Runtime.requestSlaveIncrease r
  = match Runtime.availableBots_ r with
    | [] => (r, [])
    | bot :: rest =>
        (Runtime.withBots (Runtime.activeBots_ r ++ [bot]) rest r,
         [Runtime.BotConnect bot])
    end /\
  Staffed bots (fst (Runtime.requestSlaveIncrease r)).
Proof.
  intros Hstaffed. pose proof Hstaffed as ((Hdistinct & Hspare) & Hperm & Hrequired).
  unfold Runtime.requestSlaveIncrease.
  destruct (Runtime.availableBots_ r) as [|bot rest] eqn:Havailable.
  - split; trivial.
  - assert (Runtime.setAdd Runtime.sameBot bot (Runtime.activeBots_ r)
            = Runtime.activeBots_ r ++ [bot]) as ->.
    { apply setAdd_fresh. rewrite map_app in Hdistinct. cbn [map] in Hdistinct.
      intros Hin. apply NoDup_remove_2 in Hdistinct. apply Hdistinct.
      apply in_or_app. now left. }
    assert (Runtime.setDelete Runtime.sameBot bot (bot :: rest) = rest) as ->.
    { apply (setDelete_split bot [] rest). rewrite map_app in Hdistinct.
      now apply NoDup_app_remove_l in Hdistinct. }
    split; trivial. cbn [fst].
    inversion Hspare as [|? ? Hbot Hrest]; subst.
    repeat split; cbn.
    + now rewrite <- app_assoc.
    + exact Hrest.
    + now rewrite <- app_assoc.
    + rewrite filter_app. cbn. rewrite Hbot, app_nil_r. exact Hrequired.
Qed.

Lemma moved_staffed (bots before after : list Runtime.Bot) (bot : Runtime.Bot)
    (r : Runtime.t) :
  Staffed bots r ->
  Runtime.activeBots_ r = before ++ bot :: after ->
  Runtime.required bot = false ->
  Runtime.setDelete Runtime.sameBot bot (Runtime.activeBots_ r) = before ++ after /\
  Runtime.setAdd Runtime.sameBot bot (Runtime.availableBots_ r)
    = Runtime.availableBots_ r ++ [bot] /\
  Staffed bots
    (Runtime.withBots (before ++ after) (Runtime.availableBots_ r ++ [bot]) r).
Proof.
  intros ((Hdistinct & Hspare) & Hperm & Hrequired) Hactive Hbot.
  rewrite Hactive in *.
  destruct (move_to_available bot before after (Runtime.availableBots_ r) Hdistinct)
    as (Hdelete & Hadd & Hdistinct' & Hperm').
  repeat split; trivial; cbn.
  - apply Forall_app. split; trivial. now repeat constructor.
  - now rewrite Hperm'.
  - rewrite <- Hrequired, !filter_app. cbn. now rewrite Hbot.
Qed.

Lemma decreaseFrom_spec (bots : list Runtime.Bot) (remaining done : list Runtime.Bot)
    (r : Runtime.t) :
  Staffed bots r ->
  Runtime.activeBots_ r = done ++ remaining ->
  (Forall (fun bot => Runtime.required bot = true) remaining /\
   Runtime.decreaseFrom remaining r = (r, [])) \/
  (exists kept bot rest,
     remaining = kept ++ bot :: rest /\
     Forall (fun b => Runtime.required b = true) kept /\
     Runtime.required bot = false /\
     Runtime.decreaseFrom remaining r
     = (Runtime.withBots (done ++ kept ++ rest)
          (Runtime.availableBots_ r ++ [bot]) r,
        [Runtime.BotDisconnect bot]) /\
     Staffed bots (fst (Runtime.decreaseFrom remaining r))).
Proof.
  intros Hstaffed. revert done.
  induction remaining as [|bot rest IH]; intros done Hactive.
  - left. now split.
  - cbn [Runtime.decreaseFrom]. fold (Runtime.required bot).
    destruct (Runtime.required bot) eqn:Hbot.
    + destruct (IH (done ++ [bot])) as [[Hall Hsame] | Hmoved].
      * now rewrite <- app_assoc.
      * left. split; [now constructor | exact Hsame].
      * right. destruct Hmoved as (kept & b & rest' & -> & Hkept & Hb & Hresult & Hs).
        exists (bot :: kept), b, rest'.
        split; [reflexivity|]. split; [now constructor|]. split; [exact Hb|].
        split; [|exact Hs].
        rewrite Hresult. now rewrite <- app_assoc.
    + right. exists [], bot, rest.
      destruct (moved_staffed bots done rest bot r Hstaffed Hactive Hbot)
        as (Hdelete & Hadd & Hs).
      rewrite Hdelete, Hadd.
      split; [reflexivity|]. split; [constructor|]. split; [exact Hbot|].
      split; [reflexivity | exact Hs].
Qed.

Lemma diconnectFrom_spec (remaining done : list Runtime.Bot) (r : Runtime.t) :
  NoDup (map Runtime.identity (Runtime.activeBots_ r ++ Runtime.availableBots_ r)) ->
  Runtime.activeBots_ r = done ++ remaining ->
  Runtime.diconnectFrom remaining r
  = (Runtime.withBots (done ++ filter Runtime.required remaining)
       (Runtime.availableBots_ r ++ filter spare remaining) r,
     map Runtime.BotDisconnect remaining).
Proof.
  revert done r. induction remaining as [|bot rest IH]; intros done r Hdistinct Hactive.
  - cbn. rewrite <- Hactive, app_nil_r. destruct r; reflexivity.
  - cbn [Runtime.diconnectFrom filter map]. unfold spare at 1.
    replace (negb (Runtime.master (Runtime.config bot))
             && Runtime.optional (Runtime.config bot))
      with (negb (Runtime.required bot))
      by (unfold Runtime.required; now rewrite negb_orb, negb_involutive).
    destruct (Runtime.required bot) eqn:Hbot; cbn [negb].
    + rewrite (IH (done ++ [bot]) r Hdistinct) by now rewrite <- app_assoc.
      now rewrite <- app_assoc.
    + rewrite Hactive in *.
      destruct (move_to_available bot done rest (Runtime.availableBots_ r) Hdistinct)
        as (Hdelete & Hadd & Hdistinct' & _).
      rewrite Hdelete, Hadd.
      rewrite (IH done (Runtime.withBots (done ++ rest)
                          (Runtime.availableBots_ r ++ [bot]) r));
        trivial.
      cbn. now rewrite <- app_assoc.
Qed.

Lemma diconnect_spec (bots : list Runtime.Bot) (r : Runtime.t) :
  Staffed bots r ->
  Runtime.diconnect r
  = (Runtime.withBots (filter Runtime.required (Runtime.activeBots_ r))
       (Runtime.availableBots_ r ++ filter spare (Runtime.activeBots_ r)) r,
     map Runtime.BotDisconnect (Runtime.activeBots_ r)) /\
  Staffed bots (fst (Runtime.diconnect r)).
Proof.
  intros ((Hdistinct & Hspare) & Hperm & Hrequired).
  unfold Runtime.diconnect.
  rewrite (diconnectFrom_spec (Runtime.activeBots_ r) [] r Hdistinct eq_refl).
  cbn [app fst]. split; trivial.
  assert (Permutation
            (filter Runtime.required (Runtime.activeBots_ r)
             ++ Runtime.availableBots_ r ++ filter spare (Runtime.activeBots_ r))
            (Runtime.activeBots_ r ++ Runtime.availableBots_ r)) as Hmoved.
  { rewrite (Permutation_app_comm (Runtime.availableBots_ r)), app_assoc.
    apply Permutation_app_tail. apply partition_permutation. }
  repeat split; cbn.
  - apply (Permutation_NoDup
             (l := map Runtime.identity
                     (Runtime.activeBots_ r ++ Runtime.availableBots_ r)));
      trivial.
    apply Permutation_map. now symmetry.
  - apply Forall_app. split; trivial. apply Forall_forall. intros bot Hbot.
    apply filter_In in Hbot as [_ Hbot]. now apply negb_true_iff in Hbot.
  - now rewrite Hmoved.
  - now rewrite filter_idempotent.
Qed.

Lemma request_staffed (bots : list Runtime.Bot) (q : Runtime.Request) (r : Runtime.t) :
  Staffed bots r -> Staffed bots (fst (Runtime.request q r)).
Proof.
  intros Hr. destruct q; cbn [Runtime.request].
  - exact Hr.
  - now apply increase_spec.
  - unfold Runtime.requestSlaveDecrease.
    destruct (decreaseFrom_spec bots (Runtime.activeBots_ r) [] r Hr eq_refl)
      as [[_ ->] | (kept & bot & rest & _ & _ & _ & _ & Hs)]; trivial.
  - now apply diconnect_spec.
Qed.

Lemma requests_staffed (bots : list Runtime.Bot) (qs : list Runtime.Request)
    (r : Runtime.t) :
  Staffed bots r -> Staffed bots (Runtime.requests qs r).
Proof.
  revert r. induction qs as [|q qs IH]; intros r Hr; cbn; trivial.
  apply IH. now apply request_staffed.
Qed.

(** X11: however the runtime is asked to connect, to add or drop a slave, or
    to disconnect, it keeps every bot it created in exactly one of its two
    sets; the bots that are the master or not optional are always active, in
    the order of the configuration, and the available bots are optional
    slaves only. *)
Theorem runtime_keeps_its_bots_sorted
    (configs : list Runtime.BotConfig) (qs : list Runtime.Request) :
  let bots := Runtime.botsFrom 0 configs in
  let r := Runtime.requests qs (Runtime.create configs) in
  NoDup (map Runtime.identity (Runtime.activeBots_ r ++ Runtime.availableBots_ r)) /\
  Permutation (Runtime.activeBots_ r ++ Runtime.availableBots_ r) bots /\
  filter Runtime.required (Runtime.activeBots_ r) = filter Runtime.required bots /\
  Forall (fun bot => Runtime.master (Runtime.config bot) = false /\
                     Runtime.optional (Runtime.config bot) = true)
    (Runtime.availableBots_ r).
Proof.
  intros bots r.
  destruct (requests_staffed bots qs (Runtime.create configs) (create_staffed configs))
    as ((Hdistinct & Hspare) & Hperm & Hrequired).
  repeat split; trivial.
  eapply Forall_impl; [|exact Hspare].
  intros bot Hbot. unfold Runtime.required in Hbot.
  apply orb_false_iff in Hbot as [Hmaster Hoptional].
  now apply negb_false_iff in Hoptional.
Qed.

Lemma find_filter {A : Type} (p q : A -> bool) (l : list A) :
  (forall x, p x = true -> q x = true) ->
  find p (filter q l) = find p l.
Proof.
  intros Himplies. induction l as [|x l IH]; cbn; trivial.
  destruct (q x) eqn:Hq; cbn.
  - now rewrite IH.
  - destruct (p x) eqn:Hp; trivial.
    rewrite (Himplies x Hp) in Hq. discriminate.
Qed.

(** X12: the master bot of the runtime is the first bot marked as master in
    the configuration - or none, if there is none - and stays so through
    every connect, slave increase, slave decrease and disconnect. *)
Theorem masterBot_is_stable
    (configs : list Runtime.BotConfig) (qs : list Runtime.Request) :
  Runtime.masterBot (Runtime.requests qs (Runtime.create configs))
  = find (fun bot => Runtime.master (Runtime.config bot))
      (Runtime.botsFrom 0 configs).
Proof.
  destruct (requests_staffed _ qs (Runtime.create configs) (create_staffed configs))
    as (_ & _ & Hrequired).
  unfold Runtime.masterBot.
  rewrite <- (find_filter _ Runtime.required (Runtime.activeBots_ _)),
    <- (find_filter _ Runtime.required (Runtime.botsFrom 0 configs)).
  - now rewrite Hrequired.
  - intros bot Hmaster. unfold Runtime.required. now rewrite Hmaster.
  - intros bot Hmaster. unfold Runtime.required. now rewrite Hmaster.
Qed.

(** X13: diconnect() disconnects every bot that is active, each once and in
    order, and parks the optional slaves: afterwards exactly the master and
    the bots that are not optional are active, the parked slaves are appended
    to the available ones, and a connect() connects the remaining active bots
    only. *)
Theorem diconnect_parks_the_slaves
    (configs : list Runtime.BotConfig) (qs : list Runtime.Request) :
  let bots := Runtime.botsFrom 0 configs in
  let r := Runtime.requests qs (Runtime.create configs) in
  let r' := fst (Runtime.diconnect r) in
  snd (Runtime.diconnect r) = map Runtime.BotDisconnect (Runtime.activeBots_ r) /\
  Runtime.activeBots_ r' = filter Runtime.required bots /\
  Runtime.availableBots_ r'
    = Runtime.availableBots_ r ++ filter spare (Runtime.activeBots_ r) /\
  snd (Runtime.connect r') = map Runtime.BotConnect (filter Runtime.required bots).
Proof.
  intros bots r r'.
  pose proof (requests_staffed bots qs (Runtime.create configs)
                (create_staffed configs)) as Hr.
  fold r in Hr. destruct (diconnect_spec bots r Hr) as [Hresult _].
  destruct Hr as (_ & _ & Hrequired).
  subst r'. rewrite Hresult. cbn. rewrite Hrequired. repeat split.
Qed.

Lemma decreaseFrom_skip (kept remaining : list Runtime.Bot) (r : Runtime.t) :
  Forall (fun bot => Runtime.required bot = true) kept ->
  Runtime.decreaseFrom (kept ++ remaining) r = Runtime.decreaseFrom remaining r.
Proof.
  induction 1 as [|bot kept Hbot _ IH]; cbn [app Runtime.decreaseFrom]; trivial.
  fold (Runtime.required bot). now rewrite Hbot.
Qed.

(** X14: requestSlaveIncrease() does nothing when no bot is available;
    otherwise it moves the first available bot to the end of the active ones
    and connects it, and nothing else.  requestSlaveDecrease() does nothing
    when only the master and bots that are not optional are active.  When no
    slave was active, a decrease after an increase takes the same bot out
    again, disconnects it, and puts it last among the available bots. *)
Theorem slave_increase_and_decrease
    (configs : list Runtime.BotConfig) (qs : list Runtime.Request) :
  let r := Runtime.requests qs (Runtime.create configs) in
  (Runtime.availableBots_ r = [] -> Runtime.requestSlaveIncrease r = (r, [])) /\
  (forall bot rest,
     Runtime.availableBots_ r = bot :: rest ->
     Runtime.requestSlaveIncrease r
     = (Runtime.withBots (Runtime.activeBots_ r ++ [bot]) rest r,
        [Runtime.BotConnect bot])) /\
  (Forall (fun bot => Runtime.required bot = true) (Runtime.activeBots_ r) ->
   Runtime.requestSlaveDecrease r = (r, []) /\
   forall bot rest,
     Runtime.availableBots_ r = bot :: rest ->
     Runtime.requestSlaveDecrease (fst (Runtime.requestSlaveIncrease r))
     = (Runtime.withBots (Runtime.activeBots_ r) (rest ++ [bot]) r,
        [Runtime.BotDisconnect bot])).
Proof.
  intros r.
  pose proof (requests_staffed _ qs (Runtime.create configs)
                (create_staffed configs)) as Hr.
  fold r in Hr. destruct (increase_spec _ r Hr) as [Hincrease Hr1].
  split; [|split].
  - intros Hnone. now rewrite Hincrease, Hnone.
  - intros bot rest Havailable. now rewrite Hincrease, Havailable.
  - intros Hrequired. split.
    + unfold Runtime.requestSlaveDecrease.
      rewrite <- (app_nil_r (Runtime.activeBots_ r)) at 1.
      now rewrite decreaseFrom_skip.
    + intros bot rest Havailable.
      rewrite Hincrease, Havailable in *. cbn [fst] in *.
      unfold Runtime.requestSlaveDecrease. cbn [Runtime.activeBots_ Runtime.withBots].
      rewrite decreaseFrom_skip by trivial.
      destruct Hr as ((_ & Hspare) & _). rewrite Havailable in Hspare.
      inversion Hspare as [|? ? Hbot _]; subst.
      cbn [Runtime.decreaseFrom]. fold (Runtime.required bot). rewrite Hbot.
      destruct (moved_staffed _ (Runtime.activeBots_ r) [] bot _ Hr1)
        as (Hdelete & Hadd & _); trivial.
      cbn [Runtime.activeBots_ Runtime.availableBots_ Runtime.withBots] in *.
      rewrite Hdelete, Hadd, app_nil_r. reflexivity.
Qed.

Lemma slave_increase_and_decrease_witness :
  let configs := [{| Runtime.master := true; Runtime.optional := false |};
                  {| Runtime.master := false; Runtime.optional := true |};
                  {| Runtime.master := false; Runtime.optional := true |}] in
  let r := Runtime.create configs in
  map Runtime.identity (Runtime.activeBots_ r) = [0%nat] /\
  map Runtime.identity (Runtime.availableBots_ r) = [1%nat; 2%nat] /\
  Runtime.requestSlaveDecrease r = (r, []) /\
  map Runtime.identity
    (Runtime.availableBots_
       (fst (Runtime.requestSlaveDecrease (fst (Runtime.requestSlaveIncrease r)))))
  = [2%nat; 1%nat].
Proof.
  destruct (slave_increase_and_decrease
              [{| Runtime.master := true; Runtime.optional := false |};
               {| Runtime.master := false; Runtime.optional := true |};
               {| Runtime.master := false; Runtime.optional := true |}] [])
    as (_ & _ & Hdecrease).
  cbn [Runtime.requests] in Hdecrease.
  split; [reflexivity|]. split; [reflexivity|].
  destruct Hdecrease as [Hnothing Hround].
  - repeat constructor.
  - split; [exact Hnothing|].
    cbv zeta. rewrite (Hround _ _ eq_refl). reflexivity.
Defined.




(** X16: dispose() disposes of every bot, the active ones first, and empties
    both sets; from then on each of the three delegate callbacks throws and
    reaches no observer, addObserver() and a second dispose() fail, there is
    no master bot and connect() connects nothing. *)
Theorem disposed_runtime_is_inert
    (bot : Runtime.Bot) (message : string) (o : Runtime.Observer)
    (os : list Runtime.Observer) (r : Runtime.t) :
  Runtime.observers_ r = Some os ->
  let r' := snd (fst (Runtime.dispose r)) in
  Runtime.dispose r
  = (Runtime.Returns, r',
     map Runtime.BotDispose (Runtime.activeBots_ r)
     ++ map Runtime.BotDispose (Runtime.availableBots_ r)) /\
  Runtime.activeBots_ r' = [] /\
  Runtime.availableBots_ r' = [] /\
  Runtime.onBotConnected bot r'
  = (Runtime.Throws "Invalid call to onBotConnected: instance has been disposed of.",
     []) /\
  Runtime.onBotMessage bot message r'
  = (Runtime.Throws "Invalid call to onBotMessage: instance has been disposed of.",
     []) /\
  Runtime.onBotDisconnected bot r'
  = (Runtime.Throws "Invalid call to onBotDisconnected: instance has been disposed of.",
     []) /\
  (exists error, Runtime.addObserver o r' = (Runtime.Throws error, r')) /\
  Runtime.dispose r' = (Runtime.Throws "TypeError", r', []) /\
  Runtime.masterBot r' = None /\
  Runtime.connect r' = (r', []).
Proof.
  intros Hos. unfold Runtime.dispose. rewrite Hos. cbn.
  repeat split.
  unfold Runtime.addObserver. cbn.
  destruct (Runtime.isRuntimeObserver o); cbn; eauto.
Qed.

Lemma disposed_runtime_is_inert_witness :
  let configs := [{| Runtime.master := true; Runtime.optional := false |};
                  {| Runtime.master := false; Runtime.optional := true |}] in
  let r := Runtime.create configs in
  map (fun e => match e with Runtime.BotDispose b => Runtime.identity b | _ => 99%nat end)
      (snd (Runtime.dispose r)) = [0%nat; 1%nat] /\
  Runtime.masterBot r <> None /\
  Runtime.masterBot (snd (fst (Runtime.dispose r))) = None.
Proof.
  split; [reflexivity|]. split; [discriminate|].
  apply (disposed_runtime_is_inert
           {| Runtime.identity := 0;
              Runtime.config := {| Runtime.master := true;
                                   Runtime.optional := false |} |}
           "PING"
           {| Runtime.observerIdentity := 7; Runtime.isRuntimeObserver := true |}
           []
           (Runtime.create [{| Runtime.master := true; Runtime.optional := false |};
                            {| Runtime.master := false; Runtime.optional := true |}])).
  reflexivity.
Defined.

(** ** Beyond the claims: the synced player data *)

Lemma substring_length (n : nat) (s : string) :
  (String.length (substring 0 n s) <= n)%nat.
Proof.
  revert s. induction n as [|n IH]; intros [|c s]; cbn; try lia.
  pose proof (IH s). lia.
Qed.

Lemma substring_all (n : nat) (s : string) :
  (String.length s <= n)%nat -> substring 0 n s = s.
Proof.
  revert s. induction n as [|n IH]; intros [|c s] H; cbn in *; trivial; try lia.
  f_equal. apply IH. lia.
Qed.

Lemma substring_prefix (n : nat) (s : string) :
  exists rest, s = (substring 0 n s ++ rest)%string.
Proof.
  revert s. induction n as [|n IH]; intros [|c s]; cbn.
  - now exists "".
  - now exists (String c s).
  - now exists "".
  - destruct (IH s) as [rest Hrest]. exists rest. now f_equal.
Qed.

Lemma call_fits (player : nat) (c : PlayerSyncedData.Call) (data : PlayerSyncedData.t) :
  PlayerSyncedData.fits data ->
  PlayerSyncedData.fits (fst (PlayerSyncedData.call player c data)).
Proof.
  intros [Hname Hchannel]. unfold PlayerSyncedData.fits in *.
  pose proof (substring_length 31) as H31. pose proof (substring_length 63) as H63.
  destruct c; cbn; try (split; trivial; cbn; lia).
  - split; trivial. unfold PlayerSyncedData.format. cbn. specialize (H63 value).
    unfold PlayerSyncedData.sizeofPreferredRadioChannel. lia.
  - unfold PlayerSyncedData.OnPlayerSyncedDataChange, PlayerSyncedData.apply.
    destruct connected; cbn; [|now split].
    destruct (PlayerSyncedData.property u =? PlayerSyncedData.ISOLATED);
      [now split|].
    destruct (PlayerSyncedData.property u =? PlayerSyncedData.MINIGAME_NAME).
    { split; trivial. unfold PlayerSyncedData.format. cbn.
      specialize (H31 (PlayerSyncedData.stringValue u)).
      unfold PlayerSyncedData.sizeofMinigameName. lia. }
    destruct (PlayerSyncedData.property u =? PlayerSyncedData.PREFERRED_RADIO_CHANNEL);
      [|now split].
    split; trivial. unfold PlayerSyncedData.format. cbn.
    specialize (H63 (PlayerSyncedData.stringValue u)).
    unfold PlayerSyncedData.sizeofPreferredRadioChannel. lia.
Qed.

Lemma calls_fits (player : nat) (cs : list PlayerSyncedData.Call)
    (data : PlayerSyncedData.t) :
  PlayerSyncedData.fits data ->
  PlayerSyncedData.fits (PlayerSyncedData.calls player cs data).
Proof.
  revert data. induction cs as [|c cs IH]; intros data Hdata; cbn; trivial.
  apply IH. now apply call_fits.
Qed.

(** X17: whatever is set from Pawn or arrives from JavaScript, the two
    strings of a player's synced data stay within their arrays - at most 31
    characters of minigame name and 63 of radio channel.  A radio channel
    that is set is cut to its first 63 characters, and the update sent to
    JavaScript carries the channel as stored; setting the minigame name from
    Pawn changes and sends nothing. *)
Theorem synced_strings_fit_their_arrays
    (player : nat) (cs : list PlayerSyncedData.Call) (value : string)
    (data : PlayerSyncedData.t) :
  let data' := PlayerSyncedData.calls player cs (PlayerSyncedData.reset data) in
  let set := PlayerSyncedData.setPreferredRadioChannel player value data' in
  (String.length (PlayerSyncedData.minigameName data') <= 31)%nat /\
  (String.length (PlayerSyncedData.preferredRadioChannel data') <= 63)%nat /\
  (String.length (PlayerSyncedData.preferredRadioChannel (fst set)) <= 63)%nat /\
  (exists rest,
     value = (PlayerSyncedData.preferredRadioChannel (fst set) ++ rest)%string) /\
  ((String.length value <= 63)%nat ->
   PlayerSyncedData.preferredRadioChannel (fst set) = value) /\
  map PlayerSyncedData.stringValue (snd set)
    = [PlayerSyncedData.preferredRadioChannel (fst set)] /\
  PlayerSyncedData.setMinigameName player value data' = (data', []).
Proof.
  intros data' set.
  assert (PlayerSyncedData.fits data') as [Hname Hchannel].
  { apply calls_fits.
    split; cbn; unfold PlayerSyncedData.sizeofMinigameName,
      PlayerSyncedData.sizeofPreferredRadioChannel; lia. }
  unfold PlayerSyncedData.sizeofMinigameName,
    PlayerSyncedData.sizeofPreferredRadioChannel in *.
  unfold PlayerSyncedData.minigameName, PlayerSyncedData.preferredRadioChannel.
  subst set. cbn. unfold PlayerSyncedData.format. cbn.
  repeat split; try lia.
  - apply substring_length.
  - apply substring_prefix.
  - apply substring_all.
Qed.

(** X18: the updates that sync() sends for the three properties carry the
    data itself: applied on the JavaScript event path to any other instance
    of a connected player they reproduce the data, and applied to the
    instance that sent them they change nothing.  For a player who is not
    connected the change event is dropped, and a property number outside the
    enumeration is neither sent nor applied. *)
Theorem sync_then_apply_reproduces_the_data
    (player : nat) (prop : Z) (u : PlayerSyncedData.Update)
    (data other : PlayerSyncedData.t) :
  PlayerSyncedData.fits data ->
  let updates :=
    PlayerSyncedData.sync player PlayerSyncedData.ISOLATED data
    ++ PlayerSyncedData.sync player PlayerSyncedData.MINIGAME_NAME data
    ++ PlayerSyncedData.sync player PlayerSyncedData.PREFERRED_RADIO_CHANNEL data in
  PlayerSyncedData.calls player (map (PlayerSyncedData.Changed true) updates) other
    = data /\
  PlayerSyncedData.calls player (map (PlayerSyncedData.Changed true) updates) data
    = data /\
  PlayerSyncedData.OnPlayerSyncedDataChange false u other = other /\
  (prop <> PlayerSyncedData.ISOLATED ->
   prop <> PlayerSyncedData.MINIGAME_NAME ->
   prop <> PlayerSyncedData.PREFERRED_RADIO_CHANNEL ->
   PlayerSyncedData.sync player prop data = [] /\
   forall int float text, PlayerSyncedData.apply prop int float text other = other).
Proof.
  intros [Hname Hchannel].
  unfold PlayerSyncedData.sizeofMinigameName,
    PlayerSyncedData.sizeofPreferredRadioChannel in *.
  assert (forall start,
            PlayerSyncedData.calls player
              (map (PlayerSyncedData.Changed true)
                 (PlayerSyncedData.sync player PlayerSyncedData.ISOLATED data
                  ++ PlayerSyncedData.sync player PlayerSyncedData.MINIGAME_NAME data
                  ++ PlayerSyncedData.sync player
                       PlayerSyncedData.PREFERRED_RADIO_CHANNEL data))
              start = data) as Hreproduced.
  { intros start. cbn. unfold PlayerSyncedData.format. cbn.
    rewrite !substring_all by lia.
    destruct data as [isolated name channel]. cbn. now destruct isolated. }
  cbn zeta. split; [apply Hreproduced|]. split; [apply Hreproduced|].
  split; [reflexivity|].
  intros H1 H2 H0. apply Z.eqb_neq in H1, H2, H0.
  unfold PlayerSyncedData.sync, PlayerSyncedData.apply.
  now rewrite H1, H2, H0.
Qed.

Lemma sync_then_apply_reproduces_the_data_witness :
  let data := {| PlayerSyncedData.m_isolated := true;
                 PlayerSyncedData.m_minigameName := "Derby";
                 PlayerSyncedData.m_preferredRadioChannel := "LVP Radio" |} in
  let other := PlayerSyncedData.reset data in
  let updates :=
    PlayerSyncedData.sync 7 PlayerSyncedData.ISOLATED data
    ++ PlayerSyncedData.sync 7 PlayerSyncedData.MINIGAME_NAME data
    ++ PlayerSyncedData.sync 7 PlayerSyncedData.PREFERRED_RADIO_CHANNEL data in
  map PlayerSyncedData.property updates = [1; 2; 0] /\
  PlayerSyncedData.calls 7 (map (PlayerSyncedData.Changed true) updates) other = data /\
  PlayerSyncedData.sync 7 3 data = [].
Proof.
  destruct (sync_then_apply_reproduces_the_data 7 3
              {| PlayerSyncedData.playerId := 7; PlayerSyncedData.property := 3;
                 PlayerSyncedData.intValue := 0; PlayerSyncedData.floatValue := 0;
                 PlayerSyncedData.stringValue := "" |}
              {| PlayerSyncedData.m_isolated := true;
                 PlayerSyncedData.m_minigameName := "Derby";
                 PlayerSyncedData.m_preferredRadioChannel := "LVP Radio" |}
              (PlayerSyncedData.reset
                 {| PlayerSyncedData.m_isolated := true;
                    PlayerSyncedData.m_minigameName := "Derby";
                    PlayerSyncedData.m_preferredRadioChannel := "LVP Radio" |}))
    as (Hother & _ & _ & Hunknown).
  - split; cbn; unfold PlayerSyncedData.sizeofMinigameName,
      PlayerSyncedData.sizeofPreferredRadioChannel; lia.
  - split; [reflexivity|]. split; [exact Hother|].
    apply Hunknown; discriminate.
Defined.

Lemma synced_strings_fit_their_arrays_witness :
  let long :=
    "0123456789012345678901234567890123456789012345678901234567890123456789" in
  let data := PlayerSyncedData.reset
                {| PlayerSyncedData.m_isolated := true;
                   PlayerSyncedData.m_minigameName := "";
                   PlayerSyncedData.m_preferredRadioChannel := "" |} in
  PlayerSyncedData.preferredRadioChannel
    (fst (PlayerSyncedData.setPreferredRadioChannel 7 long data))
  = "012345678901234567890123456789012345678901234567890123456789012" /\
  PlayerSyncedData.preferredRadioChannel
    (fst (PlayerSyncedData.setPreferredRadioChannel 7 "LVP Radio" data))
  = "LVP Radio".
Proof.
  split; [reflexivity|].
  destruct (synced_strings_fit_their_arrays 7 [] "LVP Radio"
              {| PlayerSyncedData.m_isolated := true;
                 PlayerSyncedData.m_minigameName := "";
                 PlayerSyncedData.m_preferredRadioChannel := "" |})
    as (_ & _ & _ & _ & Hshort & _).
  apply Hshort. cbn. lia.
Defined.

(** ** Beyond the claims: the reaction tests *)

Lemma extract_length {A : Type} (p : A -> bool) (pool others : list A) (x : A) :
  extract p pool = Some (x, others) -> List.length pool = S (List.length others).
Proof.
  intros H. destruct (extract_split _ _ _ _ H) as (before & after & -> & -> & _).
  rewrite !length_app. cbn. lia.
Qed.

Section ReactionTestsFacts.

Variable Number : Type.
Variable seconds : Number -> option Number -> Number.
Variable Strategy : Type.
Variable verify : Strategy -> string -> bool.

Local Abbreviation World := (ReactionTests.World Number Strategy).
Local Abbreviation Player := ReactionTests.Player.
Local Abbreviation step := (ReactionTests.step Number seconds Strategy verify).
Local Abbreviation run := (ReactionTests.run Number seconds Strategy verify).
Local Abbreviation onPlayerText := (ReactionTests.onPlayerText Number seconds Strategy verify).
Local Abbreviation totalWins := (ReactionTests.totalWins Number Strategy).
Local Abbreviation pending w := (Z.of_nat (List.length (ReactionTests.timers Number Strategy w))).

Lemma tokenDiffers_same (token : option Z) :
  ReactionTests.tokenDiffers token token = false.
Proof.
  destruct token as [n|]; cbn; trivial. now rewrite Z.eqb_refl.
Qed.

Lemma countWin_others (winner : Player) (others : list Player) :
  ~ In (ReactionTests.id winner) (map ReactionTests.id others) ->
  map (fun player =>
         if Nat.eqb (ReactionTests.id player) (ReactionTests.id winner)
         then {| ReactionTests.id := ReactionTests.id player;
                 ReactionTests.name := ReactionTests.name player;
                 ReactionTests.nonPlayerCharacter :=
                   ReactionTests.nonPlayerCharacter player;
                 ReactionTests.reactionTests :=
                   ReactionTests.reactionTests player + 1 |}
         else player) others = others.
Proof.
  induction others as [|other others IH]; cbn; trivial.
  intros Habsent.
  destruct (Nat.eqb (ReactionTests.id other) (ReactionTests.id winner)) eqn:Hsame.
  - apply Nat.eqb_eq in Hsame. exfalso. apply Habsent. now left.
  - f_equal. apply IH. intros H. apply Habsent. now right.
Qed.

Lemma countWin_total (winner : Player) (w : World) :
  NoDup (map ReactionTests.id (ReactionTests.players Number Strategy w)) ->
  In winner (ReactionTests.players Number Strategy w) ->
  fold_right (fun player sum => ReactionTests.reactionTests player + sum) 0
    (ReactionTests.countWin Number Strategy winner w)
  = totalWins w + 1 /\
  map ReactionTests.id (ReactionTests.countWin Number Strategy winner w)
  = map ReactionTests.id (ReactionTests.players Number Strategy w).
Proof.
  unfold ReactionTests.totalWins, ReactionTests.countWin.
  generalize (ReactionTests.players Number Strategy w) as store.
  induction store as [|player store IH]; cbn; [tauto|].
  intros Hdistinct Hin. inversion Hdistinct as [|? ? Hfresh Hrest]; subst.
  destruct Hin as [-> | Hin].
  - rewrite Nat.eqb_refl. cbn. rewrite (countWin_others winner store Hfresh).
    split; [lia | reflexivity].
  - destruct (Nat.eqb (ReactionTests.id player) (ReactionTests.id winner)) eqn:Hsame.
    + apply Nat.eqb_eq in Hsame. exfalso. apply Hfresh. rewrite Hsame.
      now apply in_map.
    + destruct (IH Hrest Hin) as [Hsum Hids]. cbn. rewrite Hsum, Hids.
      split; [lia | reflexivity].
Qed.

Lemma onPlayerText_balance (player : Player) (message : string) (now : Number)
    (w : World) :
  NoDup (map ReactionTests.id (ReactionTests.players Number Strategy w)) ->
  In player (ReactionTests.players Number Strategy w) ->
  let w' := snd (fst (onPlayerText player message now w)) in
  pending w' - totalWins w' = pending w - totalWins w /\
  map ReactionTests.id (ReactionTests.players Number Strategy w')
  = map ReactionTests.id (ReactionTests.players Number Strategy w).
Proof.
  intros Hdistinct Hin. unfold ReactionTests.onPlayerText.
  destruct (ReactionTests.activeTest_ _ _ _) as [test|]; cbn; [|now split].
  destruct (verify test message); cbn; [|now split].
  destruct (ReactionTests.truthy _ && _); cbn; [now split|].
  destruct (ReactionTests.truthy _); cbn; [now split|].
  destruct (countWin_total player w Hdistinct Hin) as [Hsum Hids].
  unfold ReactionTests.totalWins at 1. cbn.
  rewrite Hsum, Hids, length_app. cbn. unfold ReactionTests.totalWins.
  split; [lia | reflexivity].
Qed.

Lemma step_balance (e : ReactionTests.Event Number Strategy) (w : World) :
  NoDup (map ReactionTests.id (ReactionTests.players Number Strategy w)) ->
  let w' := fst (step e w) in
  pending w' - totalWins w' = pending w - totalWins w /\
  map ReactionTests.id (ReactionTests.players Number Strategy w')
  = map ReactionTests.id (ReactionTests.players Number Strategy w).
Proof.
  intros Hdistinct. destruct e; cbn [ReactionTests.step].
  - unfold ReactionTests.fire.
    destruct (extract _ _) as [[timer others]|] eqn:Hextract; [|now split].
    apply extract_length in Hextract.
    unfold ReactionTests.startTimerFired, ReactionTests.startReactionTest. cbn.
    rewrite tokenDiffers_same.
    destruct (forallb _ _); cbn;
      unfold ReactionTests.totalWins; cbn; rewrite length_app, Hextract;
      cbn [Datatypes.length]; (split; [lia | reflexivity]).
  - unfold ReactionTests.fire.
    destruct (extract _ _) as [[timer others]|] eqn:Hextract; [|now split].
    apply extract_length in Hextract.
    unfold ReactionTests.timeoutTimerFired, ReactionTests.reactionTestTimedOut. cbn.
    rewrite tokenDiffers_same. cbn.
    unfold ReactionTests.totalWins; cbn; rewrite length_app, Hextract.
    cbn [Datatypes.length]. split; [lia | reflexivity].
  - destruct (find _ _) as [p|] eqn:Hfind; [|now split].
    apply find_some in Hfind as [Hin _].
    pose proof (onPlayerText_balance p message now w Hdistinct Hin) as Hbalance.
    destruct (onPlayerText p message now w) as [[result w'] effects].
    exact Hbalance.
  - now split.
Qed.

(** X19: no timer chain of the reaction tests ever ends, and every win adds
    one.  The token that a timer callback passes is read when the timer
    fires, so the token checks never turn a callback away: a start timer
    that fires bumps the token and either starts a test, setting the timeout
    timer, or - when every player is a non-player character - schedules the
    next start; a timeout timer that fires always clears the active test and
    schedules the next start, also after dispose().  Together with the start
    that each win schedules, the number of pending timers grows by exactly
    the number of tests won. *)
Theorem timers_grow_with_every_win
    (events : list (ReactionTests.Event Number Strategy)) (w : World) :
  NoDup (map ReactionTests.id (ReactionTests.players Number Strategy w)) ->
  pending (run events w) = pending w + (totalWins (run events w) - totalWins w) /\
  (forall fired,
     ReactionTests.fire Number Strategy ReactionTests.isTimeoutTimer w = Some fired ->
     let after := fst (step (ReactionTests.TimeoutFires Number Strategy) w) in
     ReactionTests.activeTest_ Number Strategy
       (ReactionTests.feature Number Strategy after) = None /\
     ReactionTests.timers Number Strategy after
     = ReactionTests.timers Number Strategy fired ++ [ReactionTests.StartTimer]).
Proof.
  intros Hdistinct. split.
  - revert w Hdistinct. induction events as [|e events IH]; intros w Hdistinct; cbn.
    + lia.
    + destruct (step_balance e w Hdistinct) as [Hbalance Hids].
      cbn zeta in Hbalance, Hids.
      rewrite IH by now rewrite Hids. lia.
  - intros fired Hfired. cbn [ReactionTests.step]. rewrite Hfired.
    unfold ReactionTests.timeoutTimerFired, ReactionTests.reactionTestTimedOut.
    rewrite tokenDiffers_same. cbn. now split.
Qed.



End ReactionTestsFacts.

Lemma sampleTest_distinct :
  NoDup (map ReactionTests.id (ReactionTests.players Z string sampleTest)).
Proof.
  cbn. repeat constructor; cbn; intuition discriminate.
Qed.

Lemma timers_grow_with_every_win_witness :
  let events :=
    [ReactionTests.PlayerText Z string 0 "abc" 3500;
     ReactionTests.TimeoutFires Z string;
     ReactionTests.Dispose Z string;
     ReactionTests.StartFires Z string "def" 9000;
     ReactionTests.StartFires Z string "ghi" 9500] in
  let final := ReactionTests.run Z sampleSeconds string String.eqb events sampleTest in
  ReactionTests.totalWins Z string final = 3 /\
  List.length (ReactionTests.timers Z string final) = 2%nat /\
  ReactionTests.timers Z string
    (fst (ReactionTests.step Z sampleSeconds string String.eqb
            (ReactionTests.TimeoutFires Z string) sampleTest))
  = [ReactionTests.StartTimer].
Proof.
  destruct (timers_grow_with_every_win Z sampleSeconds string String.eqb
              [ReactionTests.PlayerText Z string 0 "abc" 3500;
               ReactionTests.TimeoutFires Z string;
               ReactionTests.Dispose Z string;
               ReactionTests.StartFires Z string "def" 9000;
               ReactionTests.StartFires Z string "ghi" 9500]
              sampleTest sampleTest_distinct) as [Hgrowth Htimeout].
  destruct (Htimeout _ eq_refl) as [_ Htimers].
  split; [reflexivity|]. split; [|exact Htimers].
  apply Nat2Z.inj. rewrite Hgrowth. reflexivity.
Defined.

